(** * GAIL slot-machine simulator (C++ engine): specification check

    A shallow embedding of the spin-resolution engine, the balance sampler,
    the random and the v1 player, the session controller, the worker loop of
    the thread pool, the constructors of reel sets and machines, the machine
    factory, the task generator and the instance pool, followed by the
    properties stated about them.

    Conventions of the embedding
    - C++ [float]/[double] amounts are finite numbers, idealised as exact
      rationals [Q].  The properties below depend on the control flow, on
      comparisons and on which operations are applied in which order, never
      on how an operation rounds: sums are stated as the fold the code
      computes, not as an algebraic identity.  Comparisons are the boolean
      tests [flt], [fle], [feq]; a property about a value that need not be
      a number is stated with the test the code makes.
    - C++ [int] values are integers [Z]; the one subtraction that can leave
      the 32-bit range has its wrap-around written out ([int_sub]).
    - [std::unordered_map<std::string, T>] is a [gmap string T].
    - Pseudo-random generators are tapes of raw draws ([Rng]); a uniform
      integer distribution reduces a raw draw into its interval.
    - A C++ exception is the result [None] (or [inl] where the state that
      is left behind matters).  Undefined behaviour is not modelled, nor
      is the exception that leaves [RunSession] ahead of its [try] block:
      the inputs that lead there (a window size of 0 in a base-game spin, a
      negative spin cap) are excluded by hypothesis where a property
      depends on them. *)

From Stdlib Require Import ZArith QArith Qminmax Lia Lqa List Bool String DecimalString.
From Stdlib Require Import Sorted Permutation.
From stdpp Require Import base option gmap strings list sorting.

Local Open Scope Z_scope.

(** ** Numeric conventions *)

Definition flt (a b : Q) : bool := negb (Qle_bool b a).
Definition fle (a b : Q) : bool := Qle_bool a b.
Definition feq (a b : Q) : bool := Qeq_bool a b.

(** [std::min] and [std::max] on floats, and [std::clamp]. *)
Definition fmin (a b : Q) : Q := if flt b a then b else a.
Definition fmax (a b : Q) : Q := if flt a b then b else a.
Definition clamp (v lo hi : Q) : Q := if flt v lo then lo else if flt hi v then hi else v.

(** 32-bit two's complement [int]. *)
Definition INT_MIN : Z := - 2 ^ 31.
Definition INT_MAX : Z := 2 ^ 31 - 1.
Definition wrap32 (z : Z) : Z := (z + 2 ^ 31) mod 2 ^ 32 - 2 ^ 31.
Definition int_sub (a b : Z) : Z := wrap32 (a - b).

(** [std::to_string(int)]. *)
Definition to_string (z : Z) : string := NilZero.string_of_int (Z.to_int z).

(** [v[i]] on a [std::vector]; the source never reads out of range on the
    inputs considered, the default stands for such a read. *)
Definition vec_at {A} (v : list A) (i : Z) (d : A) : A :=
  if i <? 0 then d else nth (Z.to_nat i) v d.

(** Pseudo-random generator: the tape of raw draws still to come. *)
Definition Rng := list Z.

Definition next_draw (rng : Rng) : Z * Rng :=
  match rng with
  | [] => (0, [])
  | r :: rng' => (r, rng')
  end.

(** [std::uniform_int_distribution<int>(lo, hi)] applied to a raw draw. *)
Definition uniform_int (lo hi r : Z) : Z := lo + r mod (hi - lo + 1).

(** ** core/types.h *)

Definition SpinGrid := list Z.
Definition PaylineIndices := list Z.
Definition PayoutArray := list Q.
Definition BetOptions := list Q.

Record SpinResult := mkSpinResult {
  sr_grid : SpinGrid;
  sr_bet_amount : Q;
  sr_win_amount : Q;
  sr_profit : Q;
  sr_trigger_free_spins : bool;
  sr_free_spins_remaining : Z;
  sr_in_free_spins : bool;
  sr_timestamp : Q;
  sr_spin_number : Z
}.

Record MachineConfig := mkMachineConfig {
  machine_id : string;
  free_spins_count : Z;
  free_spins_multiplier : Q;
  wild_symbols : list Z;
  scatter_symbol : Z;
  window_size : Z;
  paylines : list PaylineIndices;
  pay_table : gmap string (list Q);
  bet_table : gmap string (list Q);
  active_lines : Z
}.

(** ** machines/reel.cpp *)

Definition Reel := list Z.

Definition GetLength (symbols_ : Reel) : Z := Z.of_nat (length symbols_).

(** [GetSymbolsAtPosition] for [count >= 0].  A negative [count] makes
    [result.reserve(count)] throw; [ReelSet::GenerateGrid], the only caller,
    never passes one: its own [reserve] throws first (see
    [reserve_throws]). *)
Definition GetSymbolsAtPosition (symbols_ : Reel) (position count : Z) : list Z :=
  let length := GetLength symbols_ in
  map (fun i => vec_at symbols_ (Z.rem (position + i) length) 0) (seqZ 0 count).

Record ReelSet := mkReelSet {
  reels_ : list Reel;
  window_size_ : Z
}.

(** [grid.reserve(num_reels * window_size_)] at the head of
    [ReelSet::GenerateGrid]: a negative product converts to a size above
    [max_size()] and [reserve] throws [std::length_error] before any draw. *)
Definition reserve_throws (rs : ReelSet) : bool :=
  Z.of_nat (length (reels_ rs)) * window_size_ rs <? 0.

(** The loop of [ReelSet::GenerateGrid]: one draw per reel, the window of
    each reel appended to the grid in reel order. *)
Fixpoint GenerateGrid_loop (window : Z) (reels : list Reel) (rng : Rng) : SpinGrid * Rng :=
  match reels with
  | [] => ([], rng)
  | reel :: rest =>
      let '(r, rng1) := next_draw rng in
      let position := uniform_int 0 (GetLength reel - 1) r in
      let symbols := GetSymbolsAtPosition reel position window in
      let '(grid, rng2) := GenerateGrid_loop window rest rng1 in
      (symbols ++ grid, rng2)
  end.

(** What [ReelSet::GenerateGrid] returns when its [reserve] does not throw;
    the throw is taken into account where the function is called
    ([SlotMachine.GenerateSpinGrid]). *)
Definition GenerateGrid (rs : ReelSet) (rng : Rng) : SpinGrid * Rng :=
  GenerateGrid_loop (window_size_ rs) (reels_ rs) rng.

(** ** machines/paytable.cpp *)

Module PayTable.

Record t := mk {
  pay_table_ : gmap string (list Q);
  paylines_ : list PaylineIndices
}.

Fixpoint GetPaylineSymbols (grid : SpinGrid) (payline : PaylineIndices) : list Z :=
  match payline with
  | [] => []
  | index :: rest =>
      if (0 <=? index) && (index <? Z.of_nat (length grid))
      then vec_at grid index 0 :: GetPaylineSymbols grid rest
      else GetPaylineSymbols grid rest
  end.

(** The [for] loop of [CountConsecutiveSymbols] from index 1 on, with its two
    loop variables; the wild symbol is the literal 101. *)
Fixpoint count_loop (rest : list Z) (first_symbol count : Z) : Z :=
  match rest with
  | [] => count
  | current_symbol :: rest' =>
      if (current_symbol =? first_symbol) || (current_symbol =? 101)
      then count_loop rest' first_symbol (count + 1)
      else if first_symbol =? 101
           then count_loop rest' current_symbol (count + 1)
           else count
  end.

Definition CountConsecutiveSymbols (symbols : list Z) : Z :=
  match symbols with
  | [] => 0
  | s0 :: rest => count_loop rest s0 1
  end.

Definition GetPayout (pt : t) (symbol : string) (count : Z) : Q :=
  match pay_table_ pt !! symbol with
  | None => 0%Q
  | Some payouts =>
      let index := count - 3 in
      if (0 <=? index) && (index <? Z.of_nat (length payouts))
      then vec_at payouts index 0%Q
      else 0%Q
  end.

(** The base symbol of [CalculatePaylineWin]: [symbols[0]], replaced by the
    first symbol different from 101 when there is one. *)
Definition base_symbol (symbols : list Z) : Z :=
  match List.find (fun symbol => negb (symbol =? 101)) symbols with
  | Some symbol => symbol
  | None => vec_at symbols 0 0
  end.

Definition CalculatePaylineWin (pt : t) (grid : SpinGrid) (payline : PaylineIndices)
    (bet_amount : Q) : Q :=
  let symbols := GetPaylineSymbols grid payline in
  match symbols with
  | [] => 0%Q
  | _ =>
      let consecutive_count := CountConsecutiveSymbols symbols in
      if consecutive_count <? 3 then 0%Q
      else
        let payout := GetPayout pt (to_string (base_symbol symbols)) consecutive_count in
        (payout * bet_amount)%Q
  end.

Definition CalculateTotalWin (pt : t) (grid : SpinGrid) (bet_amount : Q)
    (active_lines : Z) : Q :=
  let lines_to_check := Z.min active_lines (Z.of_nat (length (paylines_ pt))) in
  fold_left
    (fun total_win payline =>
       (total_win + CalculatePaylineWin pt grid payline bet_amount)%Q)
    (firstn (Z.to_nat lines_to_check) (paylines_ pt)) 0%Q.

End PayTable.

(** ** machines/slot_machine.cpp *)

Module SlotMachine.

(** A constructed machine.  The constructor copies the configuration, builds
    the pay table from [pay_table] and [paylines], and one [ReelSet] per
    configured reel-set name (strips in the order of their sorted keys, all
    with [window_size]). *)
Record t := mk {
  config_ : MachineConfig;
  pay_table_ : PayTable.t;
  reel_sets_ : gmap string ReelSet;
  rng_ : Rng
}.

Definition GetBetOptions (m : t) (currency : string) : BetOptions :=
  match bet_table (config_ m) !! currency with
  | Some options => options
  | None => []
  end.

(** [std::find] over the bet options, with float equality. *)
Definition IsValidBet (m : t) (bet_amount : Q) (currency : string) : bool :=
  existsb (fun option => feq option bet_amount) (GetBetOptions m currency).

(** [GenerateSpinGrid] throws [std::runtime_error] for a missing reel set,
    and [ReelSet::GenerateGrid] throws [std::length_error] when its [reserve]
    does. *)
Definition GenerateSpinGrid (m : t) (reel_set_name : string) : option (SpinGrid * Rng) :=
  match reel_sets_ m !! reel_set_name with
  | None => None
  | Some rs => if reserve_throws rs then None else Some (GenerateGrid rs (rng_ m))
  end.

Definition CalculateWinAmount (m : t) (grid : SpinGrid) (bet_amount : Q) (lines : Z) : Q :=
  PayTable.CalculateTotalWin (pay_table_ m) grid bet_amount lines.

(** The inner [for] loop over the rows of one column. *)
Definition has_scatter (cfg : MachineConfig) (grid : SpinGrid) (num_reels col : Z) : bool :=
  existsb (fun row => vec_at grid (row * num_reels + col) 0 =? scatter_symbol cfg)
          (seqZ 0 (window_size cfg)).

(** [CheckFreeSpinsTrigger] for [window_size <> 0].  With [window_size = 0]
    the source divides by zero ([grid.size() / config_.window_size]), which
    is undefined behaviour and a trap on the usual targets; the properties of
    base-game spins exclude it by hypothesis. *)
Definition CheckFreeSpinsTrigger (m : t) (grid : SpinGrid) : bool :=
  let cfg := config_ m in
  let num_reels := Z.quot (Z.of_nat (length grid)) (window_size cfg) in
  let scatter_columns :=
    Z.of_nat (length (List.filter (has_scatter cfg grid num_reels) (seqZ 0 num_reels))) in
  3 <=? scatter_columns.

Definition IsWildSymbol (m : t) (symbol : Z) : bool :=
  existsb (fun w => w =? symbol) (wild_symbols (config_ m)).

(** The machine's own run counter, which consults the configured wild set. *)
Fixpoint count_loop (m : t) (rest : list Z) (first_symbol count : Z) : Z :=
  match rest with
  | [] => count
  | current_symbol :: rest' =>
      if (current_symbol =? first_symbol) || IsWildSymbol m current_symbol
      then count_loop m rest' first_symbol (count + 1)
      else if IsWildSymbol m first_symbol
           then count_loop m rest' current_symbol (count + 1)
           else count
  end.

Definition CountConsecutiveSymbols (m : t) (symbols : list Z) : Z :=
  match symbols with
  | [] => 0
  | s0 :: rest => count_loop m rest s0 1
  end.

(** [Spin]; [now] is the wall-clock reading stored as time stamp.  The result
    is [None] when [GenerateSpinGrid] throws (no reel set to draw from, or a
    negative window).  In the base game [window_size] is assumed not to be 0
    (see [CheckFreeSpinsTrigger]). *)
Definition Spin (m : t) (now : Q) (bet_amount : Q) (in_free_spins : bool)
    (free_spins_remaining : Z) : option (SpinResult * t) :=
  let reel_set_name := if in_free_spins then "bonus"%string else "normal"%string in
  let reel_set_name :=
    match reel_sets_ m !! reel_set_name with
    | None => "normal"%string
    | Some _ => reel_set_name
    end in
  match GenerateSpinGrid m reel_set_name with
  | None => None
  | Some (grid, rng') =>
      let cfg := config_ m in
      let win_amount := CalculateWinAmount m grid bet_amount (active_lines cfg) in
      let m' := mk cfg (pay_table_ m) (reel_sets_ m) rng' in
      if negb in_free_spins then
        let trigger := CheckFreeSpinsTrigger m grid in
        Some (mkSpinResult grid bet_amount win_amount (win_amount - bet_amount)%Q
                trigger (if trigger then free_spins_count cfg else 0)
                in_free_spins now 0, m')
      else
        let win_amount' := (win_amount * free_spins_multiplier cfg)%Q in
        Some (mkSpinResult grid bet_amount win_amount' (win_amount' - bet_amount)%Q
                false (Z.max 0 (int_sub free_spins_remaining 1))
                in_free_spins now 0, m')
  end.

End SlotMachine.

(** ** core/types.cpp: the initial-balance distribution *)

Record BalanceDistribution := mkBalanceDistribution {
  bd_avg : Q;
  bd_std : Q;
  bd_min : Q;
  bd_max : Q
}.

(** [sample] is the value drawn from [std::normal_distribution(avg, std)];
    it is consulted only on the random path. *)
Definition GenerateBalance (d : BalanceDistribution) (sample : Q) : Q :=
  if fle (bd_std d) 0 then bd_avg d
  else clamp sample (bd_min d) (bd_max d).

(** ** core/types.h: decisions, statistics, observations *)

Record PlayerDecision := mkPlayerDecision {
  pd_bet_amount : Q;
  pd_delay_time : Q;
  pd_continue_playing : bool
}.

(** The constructor [PlayerDecision(bet, delay)]. *)
Definition PlayerDecision_new (bet delay : Q) : PlayerDecision :=
  mkPlayerDecision bet delay (flt 0 bet).

Record SessionStats := mkSessionStats {
  ss_session_id : string;
  ss_player_id : string;
  ss_machine_id : string;
  ss_total_spins : Z;
  ss_total_bet : Q;
  ss_total_win : Q;
  ss_total_profit : Q;
  ss_initial_balance : Q;
  ss_final_balance : Q;
  ss_session_duration : Q;
  ss_free_spins_triggered : Z;
  ss_free_spins_played : Z;
  ss_max_win : Q;
  ss_max_loss_streak : Q;
  ss_rtp : Q
}.

(** The default constructor [SessionStats()]. *)
Definition SessionStats_new : SessionStats :=
  mkSessionStats "" "" "" 0 0 0 0 0 0 0 0 0 0 0 0.

Record SessionData := mkSessionData {
  sd_current_balance : Q;
  sd_recent_spins : list SpinResult;
  sd_stats : SessionStats;
  sd_available_bets : BetOptions;
  sd_in_free_spins : bool;
  sd_free_spins_remaining : Z
}.

Record PlayerConfig := mkPlayerConfig {
  player_id : string;
  model_version : string;
  cluster_id : string;
  initial_balance : BalanceDistribution;
  currency : string
}.

(** [std::uniform_real_distribution<float>(lo, hi)] applied to a raw draw:
    a point of [lo, hi). *)
Definition uniform_real (lo hi : Q) (r : Z) : Q :=
  (lo + (hi - lo) * (inject_Z (r mod 2 ^ 24) / inject_Z (2 ^ 24)))%Q.

(** ** players/base_player.{h,cpp} *)

Module BasePlayer.

Record t := mk {
  config_ : PlayerConfig;
  balance_ : Q;
  active_ : bool;
  rng_ : Rng
}.

(** The constructor; [sample] feeds [GenerateBalance], [seed] is the tape of
    the player's own generator. *)
Definition new (config : PlayerConfig) (sample : Q) (seed : Rng) : t :=
  mk config (GenerateBalance (initial_balance config) sample) true seed.

Definition Reset (p : t) (sample : Q) : t :=
  mk (config_ p) (GenerateBalance (initial_balance (config_ p)) sample) true (rng_ p).

Definition IsActive (p : t) : bool := flt 0 (balance_ p) && active_ p.
Definition GetBalance (p : t) : Q := balance_ p.
Definition GetId (p : t) : string := player_id (config_ p).
Definition GetCurrency (p : t) : string := currency (config_ p).

Definition UpdateBalance (p : t) (amount : Q) : t :=
  mk (config_ p) (balance_ p + amount)%Q (active_ p) (rng_ p).

Definition with_rng (p : t) (rng : Rng) : t :=
  mk (config_ p) (balance_ p) (active_ p) rng.

Definition IsValidBet (p : t) (bet_amount : Q) (session_data : SessionData) : bool :=
  if fle bet_amount 0 then false
  else if flt (balance_ p) bet_amount then false
  else existsb (fun b => feq b bet_amount) (sd_available_bets session_data).

(** [GetRandomBet] draws only when some bet is affordable. *)
Definition GetRandomBet (p : t) (session_data : SessionData) : Q * Rng :=
  let available_bets := sd_available_bets session_data in
  match available_bets with
  | [] => (1%Q, rng_ p)
  | _ =>
      let affordable_bets := List.filter (fun bet => fle bet (balance_ p)) available_bets in
      match affordable_bets with
      | [] => (0%Q, rng_ p)
      | _ =>
          let '(r, rng') := next_draw (rng_ p) in
          let i := uniform_int 0 (Z.of_nat (length affordable_bets) - 1) r in
          (vec_at affordable_bets i 0%Q, rng')
      end
  end.

Definition GetRandomDelay (p : t) (min_delay max_delay : Q) : Q * Rng :=
  let '(r, rng') := next_draw (rng_ p) in
  (uniform_real min_delay max_delay r, rng').

End BasePlayer.

(** ** players/models/random/random_player.cpp *)

Module RandomPlayer.

(** The members the subclass adds to [BasePlayer]. *)
Record t := mk {
  min_delay_ : Q;
  max_delay_ : Q;
  end_probability_ : Q;
  max_consecutive_losses_ : Z;
  session_budget_ : Q;
  max_spins_per_session_ : Z;
  consecutive_losses_ : Z;
  session_spent_ : Q
}.

Definition ShouldEndSession (b : BasePlayer.t) (s : t) (session_data : SessionData)
    : bool * Rng :=
  let '(r, rng') := next_draw (BasePlayer.rng_ b) in
  let ended :=
    if flt (uniform_real 0 1 r) (end_probability_ s) then true
    else if max_consecutive_losses_ s <=? consecutive_losses_ s then true
    else if fle (session_budget_ s) (session_spent_ s) then true
    else if max_spins_per_session_ s <=? ss_total_spins (sd_stats session_data) then true
    else if fle (sd_current_balance session_data) 0 then true
    else false in
  (ended, rng').

Definition MakeDecision (b : BasePlayer.t) (s : t) (machine : string)
    (session_data : SessionData) : PlayerDecision * Rng * t :=
  let '(ended, rng1) := ShouldEndSession b s session_data in
  if ended then (PlayerDecision_new 0 0, rng1, s)
  else
    let '(bet_amount, rng2) := BasePlayer.GetRandomBet (BasePlayer.with_rng b rng1) session_data in
    if fle bet_amount 0 then (PlayerDecision_new 0 0, rng2, s)
    else
      let '(delay, rng3) :=
        BasePlayer.GetRandomDelay (BasePlayer.with_rng b rng2) (min_delay_ s) (max_delay_ s) in
      let losses :=
        match last (sd_recent_spins session_data) with
        | None => consecutive_losses_ s
        | Some last_spin =>
            if fle (sr_profit last_spin) 0 then consecutive_losses_ s + 1 else 0
        end in
      (PlayerDecision_new bet_amount delay, rng3,
       mk (min_delay_ s) (max_delay_ s) (end_probability_ s) (max_consecutive_losses_ s)
          (session_budget_ s) (max_spins_per_session_ s) losses
          (session_spent_ s + bet_amount)%Q).

End RandomPlayer.

(** ** players/models/v1: data processor, model loader, player *)

Module V1DataProcessor.

(** The reverse scan of [CalculateStreak]: [spins] is the history read from
    its last record backwards. *)
Fixpoint streak_loop (spins : list SpinResult) (winning : bool) (streak : Q) : Q :=
  match spins with
  | [] => streak
  | spin :: rest =>
      if Bool.eqb (flt 0 (sr_profit spin)) winning
      then streak_loop rest winning (streak + (if winning then 1 else -1))%Q
      else streak
  end.

Definition CalculateStreak (session_data : SessionData) : Q :=
  match last (sd_recent_spins session_data) with
  | None => 0%Q
  | Some last_spin =>
      streak_loop (rev (sd_recent_spins session_data)) (flt 0 (sr_profit last_spin)) 0%Q
  end.

Definition CalculateDeltaProfit (session_data : SessionData) : Q :=
  match rev (sd_recent_spins session_data) with
  | last_spin :: prev_spin :: _ => (sr_profit last_spin - sr_profit prev_spin)%Q
  | _ => 0%Q
  end.

Definition PrepareBettingInput (session_data : SessionData) : list Q :=
  let balance := sd_current_balance session_data in
  let current_profit :=
    match last (sd_recent_spins session_data) with
    | Some last_spin => sr_profit last_spin
    | None => 0%Q
    end in
  let prev_bet :=
    match last (sd_recent_spins session_data) with
    | Some last_spin => sr_bet_amount last_spin
    | None => 0%Q
    end in
  let prev_profit := 0%Q in
  [ balance; current_profit; CalculateStreak session_data; 1%Q; balance; 1%Q;
    CalculateDeltaProfit session_data; 0%Q; prev_bet; balance; prev_profit; 1%Q ].

Definition PrepareTerminationInput (session_data : SessionData) : list Q :=
  let balance := sd_current_balance session_data in
  let total_profit := ss_total_profit (sd_stats session_data) in
  let current_bet :=
    match rev (sd_recent_spins session_data) with
    | last_spin :: _ => sr_bet_amount last_spin
    | [] => 0%Q
    end in
  let prev_bet :=
    match rev (sd_recent_spins session_data) with
    | _ :: prev_spin :: _ => sr_bet_amount prev_spin
    | _ => 0%Q
    end in
  let streak := CalculateStreak session_data in
  [ balance; total_profit; current_bet; streak; fmax 0 streak; prev_bet; balance;
    total_profit ].

End V1DataProcessor.

(** The abstract [ModelLoader]: inference maps an input vector to an output
    vector, or throws. *)
Record ModelLoader := mkModelLoader {
  Predict : list Q -> option (list Q)
}.

Module V1ModelLoader.

(** Each [unique_ptr] member is a loaded model or null. *)
Record t := mk {
  models_loaded_ : bool;
  betting_model_ : option ModelLoader;
  termination_model_ : option ModelLoader;
  isolation_forest_ : option ModelLoader
}.

(** [PredictBetAmount]; an exception of the inference is the result [None]
    of [Predict], which the [catch] turns into the default bet 1. *)
Definition PredictBetAmount (l : t) (betting_input : list Q) : Q :=
  match models_loaded_ l, betting_model_ l with
  | true, Some model =>
      match Predict model betting_input with
      | None => 1%Q
      | Some [] => 1%Q
      | Some (predicted_bet :: _) =>
          if fle predicted_bet 0 then 1%Q else predicted_bet
      end
  | _, _ => 1%Q
  end.

Definition PredictTermination (l : t) (termination_input : list Q) : bool :=
  match models_loaded_ l, termination_model_ l, isolation_forest_ l with
  | true, Some dqn, Some forest =>
      match Predict dqn termination_input with
      | None => false
      | Some [] => false
      | Some (q :: _) =>
          let dqn_decision := flt (1 # 2) q in
          match Predict forest termination_input with
          | None => false
          | Some isolation_output =>
              let is_normal :=
                match isolation_output with
                | [] => false
                | score :: _ => flt 0 score
                end in
              if negb is_normal then true else dqn_decision
          end
      end
  | _, _, _ => false
  end.

End V1ModelLoader.

Module V1Player.

(** The members the subclass adds to [BasePlayer]. *)
Record t := mk {
  model_loader_ : V1ModelLoader.t;
  is_first_bet_ : bool;
  first_bet_amount_ : Q
}.

(** Defined by the class, called from no live statement. *)
Definition ShouldTerminate (s : t) (session_data : SessionData) : bool :=
  V1ModelLoader.PredictTermination (model_loader_ s)
    (V1DataProcessor.PrepareTerminationInput session_data).

Definition DecideBetAmount (b : BasePlayer.t) (s : t) (session_data : SessionData)
    : Q * Rng :=
  let betting_input := V1DataProcessor.PrepareBettingInput session_data in
  let predicted_bet := V1ModelLoader.PredictBetAmount (model_loader_ s) betting_input in
  if negb (BasePlayer.IsValidBet b predicted_bet session_data)
  then BasePlayer.GetRandomBet b session_data
  else (predicted_bet, BasePlayer.rng_ b).

Definition DecideDelayTime (b : BasePlayer.t) (session_data : SessionData) : Q * Rng :=
  BasePlayer.GetRandomDelay b (1 # 10) 1.

(** [MakeDecision]; the call of [ShouldTerminate] at its head is commented
    out in the source, and no statement of the [try] block can throw. *)
Definition MakeDecision (b : BasePlayer.t) (s : t) (machine : string)
    (session_data : SessionData) : PlayerDecision * Rng * t :=
  let '(bet_amount, rng1, s1) :=
    if is_first_bet_ s
    then (first_bet_amount_ s, BasePlayer.rng_ b,
          mk (model_loader_ s) false (first_bet_amount_ s))
    else let '(bet, rng') := DecideBetAmount b s session_data in (bet, rng', s) in
  let '(delay_time, rng2) := DecideDelayTime (BasePlayer.with_rng b rng1) session_data in
  (PlayerDecision_new bet_amount delay_time, rng2, s1).

End V1Player.

(** ** core/session_controller.cpp *)

(** What the controller reads from the clocks: the whole seconds elapsed since
    the session start as seen by the k-th call of [CheckSessionLimits], the
    system time stamped on the spin of the k-th iteration, and the duration
    measured after the loop. *)
Record Clock := mkClock {
  elapsed_seconds : nat -> Z;
  system_time : nat -> Q;
  final_duration : Q
}.

Module SessionController.

(** Where the [while] loop of [RunSession] is left. *)
Inductive Exit :=
  | PlayerInactive
  | LimitReached
  | PlayerEnded
  | InvalidBet
  | InsufficientBalance
  | ExceptionCaught.

Section WithPlayer.

(** The concrete player behind [PlayerInterface]: a [BasePlayer] together with
    the members [M] of the subclass and its [MakeDecision], which reads the
    base part and may advance the generator. *)
Context {M : Type}.
Variable MakeDecision : BasePlayer.t -> M -> string -> SessionData -> PlayerDecision * Rng * M.

Record t := mk {
  player_ : BasePlayer.t;
  model_ : M;
  machine_ : SlotMachine.t;
  spin_history_ : list SpinResult;
  in_free_spins_ : bool;
  free_spins_remaining_ : Z
}.

Definition GetMachineId (c : t) : string := machine_id (SlotMachine.config_ (machine_ c)).

(** The accumulation loop of [PrepareSessionData] over the whole history. *)
Definition accumulate (stats : SessionStats) (spin : SpinResult) : SessionStats :=
  mkSessionStats (ss_session_id stats) (ss_player_id stats) (ss_machine_id stats)
    (ss_total_spins stats)
    (ss_total_bet stats + sr_bet_amount spin)%Q
    (ss_total_win stats + sr_win_amount spin)%Q
    (ss_total_profit stats + sr_profit spin)%Q
    (ss_initial_balance stats) (ss_final_balance stats) (ss_session_duration stats)
    (if sr_trigger_free_spins spin then ss_free_spins_triggered stats + 1
     else ss_free_spins_triggered stats)
    (if sr_in_free_spins spin then ss_free_spins_played stats + 1
     else ss_free_spins_played stats)
    (fmax (ss_max_win stats) (sr_win_amount spin))
    (ss_max_loss_streak stats) (ss_rtp stats).

Definition PrepareSessionData (c : t) : SessionData :=
  let history := spin_history_ c in
  let history_size := Nat.min (length history) 10 in
  let recent := skipn (length history - history_size) history in
  let stats0 :=
    mkSessionStats "" "" "" (Z.of_nat (length history)) 0 0 0 0 0 0 0 0 0 0 0 in
  mkSessionData (BasePlayer.GetBalance (player_ c)) recent
    (fold_left accumulate history stats0)
    (SlotMachine.GetBetOptions (machine_ c) (BasePlayer.GetCurrency (player_ c)))
    (in_free_spins_ c) (free_spins_remaining_ c).

Definition UpdateSessionStats (stats : SessionStats) (spin_result : SpinResult) : SessionStats :=
  mkSessionStats (ss_session_id stats) (ss_player_id stats) (ss_machine_id stats)
    (ss_total_spins stats + 1)
    (ss_total_bet stats + sr_bet_amount spin_result)%Q
    (ss_total_win stats + sr_win_amount spin_result)%Q
    (ss_total_profit stats + sr_profit spin_result)%Q
    (ss_initial_balance stats) (ss_final_balance stats) (ss_session_duration stats)
    (if sr_trigger_free_spins spin_result then ss_free_spins_triggered stats + 1
     else ss_free_spins_triggered stats)
    (if sr_in_free_spins spin_result then ss_free_spins_played stats + 1
     else ss_free_spins_played stats)
    (fmax (ss_max_win stats) (sr_win_amount spin_result))
    (if flt (sr_profit spin_result) 0
     then fmin (ss_max_loss_streak stats) (sr_profit spin_result)
     else ss_max_loss_streak stats)
    (ss_rtp stats).

Definition CheckSessionLimits (stats : SessionStats) (max_spins : Z) (max_duration : Q)
    (elapsed : Z) : bool :=
  if max_spins <=? ss_total_spins stats then true
  else if fle max_duration (inject_Z elapsed) then true
  else false.

Definition with_spin_number (s : SpinResult) (n : Z) : SpinResult :=
  mkSpinResult (sr_grid s) (sr_bet_amount s) (sr_win_amount s) (sr_profit s)
    (sr_trigger_free_spins s) (sr_free_spins_remaining s) (sr_in_free_spins s)
    (sr_timestamp s) n.

(** [ExecuteSpin].  When [Spin] throws, the exception leaves the function
    after the debit: the left result is the controller in that state. *)
Definition ExecuteSpin (bet_amount : Q) (stats : SessionStats) (c : t) (now : Q)
    : t + SessionStats * t :=
  let p1 := BasePlayer.UpdateBalance (player_ c) (- bet_amount)%Q in
  match SlotMachine.Spin (machine_ c) now bet_amount (in_free_spins_ c)
          (free_spins_remaining_ c) with
  | None =>
      inl (mk p1 (model_ c) (machine_ c) (spin_history_ c) (in_free_spins_ c)
             (free_spins_remaining_ c))
  | Some (spin_result, machine') =>
      let p2 := BasePlayer.UpdateBalance p1 (sr_win_amount spin_result) in
      let '(in_free, remaining) :=
        if sr_trigger_free_spins spin_result && negb (in_free_spins_ c)
        then (true, sr_free_spins_remaining spin_result)
        else if in_free_spins_ c
             then (negb (sr_free_spins_remaining spin_result <=? 0),
                   sr_free_spins_remaining spin_result)
             else (in_free_spins_ c, free_spins_remaining_ c) in
      let spin_result' :=
        with_spin_number spin_result (Z.of_nat (length (spin_history_ c)) + 1) in
      inr (UpdateSessionStats stats spin_result',
           mk p2 (model_ c) machine' (spin_history_ c ++ [spin_result']) in_free remaining)
  end.

Inductive Step :=
  | Break (why : Exit) (stats : SessionStats) (c : t)
  | Again (stats : SessionStats) (c : t).

(** One evaluation of the loop condition followed, when it holds, by one
    pass through the loop body; [k] counts the passes so far. *)
Definition iteration (max_spins : Z) (max_duration : Q) (clock : Clock) (k : nat)
    (stats : SessionStats) (c : t) : Step :=
  if negb (BasePlayer.IsActive (player_ c)) then Break PlayerInactive stats c
  else if CheckSessionLimits stats max_spins max_duration (elapsed_seconds clock k)
  then Break LimitReached stats c
  else
    let session_data := PrepareSessionData c in
    let '(decision, rng', model') :=
      MakeDecision (player_ c) (model_ c) (GetMachineId c) session_data in
    let c1 := mk (BasePlayer.with_rng (player_ c) rng') model' (machine_ c)
                (spin_history_ c) (in_free_spins_ c) (free_spins_remaining_ c) in
    if negb (pd_continue_playing decision) || fle (pd_bet_amount decision) 0
    then Break PlayerEnded stats c1
    else if negb (SlotMachine.IsValidBet (machine_ c1) (pd_bet_amount decision)
                    (BasePlayer.GetCurrency (player_ c1)))
    then Break InvalidBet stats c1
    else if flt (BasePlayer.GetBalance (player_ c1)) (pd_bet_amount decision)
    then Break InsufficientBalance stats c1
    else
      match ExecuteSpin (pd_bet_amount decision) stats c1 (system_time clock k) with
      | inl c2 => Break ExceptionCaught stats c2
      | inr (stats', c2) => Again stats' c2
      end.

(** The [while] loop, bounded by [fuel] passes. *)
Fixpoint session_loop (fuel : nat) (max_spins : Z) (max_duration : Q) (clock : Clock)
    (k : nat) (stats : SessionStats) (c : t) : option (Exit * SessionStats * t) :=
  match fuel with
  | O => None
  | S fuel' =>
      match iteration max_spins max_duration clock k stats c with
      | Break why stats' c' => Some (why, stats', c')
      | Again stats' c' => session_loop fuel' max_spins max_duration clock (S k) stats' c'
      end
  end.

(** The statistics record as initialised before the loop. *)
Definition initial_stats (session_id : string) (c : t) : SessionStats :=
  mkSessionStats session_id (BasePlayer.GetId (player_ c)) (GetMachineId c)
    0 0 0 0 (BasePlayer.GetBalance (player_ c)) (BasePlayer.GetBalance (player_ c))
    0 0 0 0 0 0.

(** The statements after the loop. *)
Definition finish (clock : Clock) (stats : SessionStats) (c : t) : SessionStats :=
  let final_balance := BasePlayer.GetBalance (player_ c) in
  mkSessionStats (ss_session_id stats) (ss_player_id stats) (ss_machine_id stats)
    (ss_total_spins stats) (ss_total_bet stats) (ss_total_win stats)
    (final_balance - ss_initial_balance stats)%Q
    (ss_initial_balance stats) final_balance (final_duration clock)
    (ss_free_spins_triggered stats) (ss_free_spins_played stats)
    (ss_max_win stats) (ss_max_loss_streak stats)
    (if flt 0 (ss_total_bet stats) then (ss_total_win stats / ss_total_bet stats)%Q
     else ss_rtp stats).

Definition clear_history (c : t) : t :=
  mk (player_ c) (model_ c) (machine_ c) [] (in_free_spins_ c) (free_spins_remaining_ c).

(** [RunSession], for the calls that return a record: every pass that
    continues raises [total_spins] by one and the loop is left once it
    reaches [max_spins], so [max_spins + 1] passes suffice (see
    [session_loop_total]); the last branch is never taken.  With a negative
    [max_spins] the source throws [std::length_error] from
    [spin_history_.reserve(std::min(max_spins, 10000))] ahead of the [try]
    block and returns no record. *)
Definition RunSession (c : t) (session_id : string) (max_spins : Z) (max_duration : Q)
    (clock : Clock) : Exit * SessionStats * t :=
  let c0 := clear_history c in
  let stats := initial_stats session_id c in
  match session_loop (S (Z.to_nat max_spins)) max_spins max_duration clock 0 stats c0 with
  | Some (why, stats', c') => (why, finish clock stats' c', c')
  | None => (LimitReached, finish clock stats c0, c0)
  end.

(** The tests of one pass of the loop of [RunSession] that come before
    [ExecuteSpin], gathered in one boolean, evaluated on the decision the
    player makes in the given state: [!decision.continue_playing],
    [decision.bet_amount <= 0.0f], [!machine_->IsValidBet(...)],
    [decision.bet_amount > player_->GetBalance()] and
    [CheckSessionLimits(...)]. *)
Definition stop_condition (max_spins : Z) (max_duration : Q) (clock : Clock) (k : nat)
    (stats : SessionStats) (c : t) : bool :=
  let decision :=
    fst (fst (MakeDecision (player_ c) (model_ c) (GetMachineId c) (PrepareSessionData c))) in
  negb (pd_continue_playing decision)
  || fle (pd_bet_amount decision) 0
  || negb (SlotMachine.IsValidBet (machine_ c) (pd_bet_amount decision)
             (BasePlayer.GetCurrency (player_ c)))
  || flt (BasePlayer.GetBalance (player_ c)) (pd_bet_amount decision)
  || CheckSessionLimits stats max_spins max_duration (elapsed_seconds clock k).

(** The state at the head of the loop once [n] passes have gone through the
    body and continued, starting from pass [k]; [None] when the loop is left
    earlier. *)
Fixpoint head_state (max_spins : Z) (max_duration : Q) (clock : Clock) (n k : nat)
    (stats : SessionStats) (c : t) : option (SessionStats * t) :=
  match n with
  | O => Some (stats, c)
  | S n' =>
      match iteration max_spins max_duration clock k stats c with
      | Again stats' c' => head_state max_spins max_duration clock n' (S k) stats' c'
      | Break _ _ _ => None
      end
  end.

End WithPlayer.

Arguments t : clear implicits.
Arguments Step : clear implicits.

End SessionController.

(** ** core/thread_pool.{h,cpp}: the worker loop as an interleaving of
    atomic steps *)

Module ThreadPool.

(** A task is identified by a number; running it has no effect on the pool
    other than being counted. *)
Definition Task := nat.

(** Where a worker stands in [WorkerThread]: about to test [!shutdown_],
    about to call [ExecuteLocalTask], inside [StealTask] with [attempts]
    victims already tried, about to wait on the condition variable, running a
    task popped from a deque, or past the loop. *)
Inductive Pc :=
  | AtCheck
  | AtLocal
  | AtSteal (attempts : Z)
  | AtWait
  | Running (task : Task)
  | Exited.

Record State := mkState {
  shutdown_ : bool;
  queues_ : list (list Task);
  workers_ : list Pc;
  total_tasks_ : Z;
  executed : list (nat * Task)
}.

Definition thread_count_ (st : State) : Z := Z.of_nat (length (queues_ st)).

(** [ThreadPool(thread_count)] once its workers have started. *)
Definition new (thread_count : nat) : State :=
  mkState false (replicate thread_count []) (replicate thread_count AtCheck) 0 [].

(** [WorkQueue]: the front of the deque is the head of the list. *)
Definition PushBack (q : list Task) (item : Task) : list Task := q ++ [item].

Definition PopBack (q : list Task) : option (Task * list Task) :=
  match rev q with
  | [] => None
  | item :: rest => Some (item, rev rest)
  end.

Definition PopFront (q : list Task) : option (Task * list Task) :=
  match q with
  | [] => None
  | item :: rest => Some (item, rest)
  end.

Definition set_pc (st : State) (w : nat) (pc : Pc) : State :=
  mkState (shutdown_ st) (queues_ st) (<[w := pc]> (workers_ st)) (total_tasks_ st)
    (executed st).

Definition set_queue (st : State) (i : nat) (q : list Task) : State :=
  mkState (shutdown_ st) (<[i := q]> (queues_ st)) (workers_ st) (total_tasks_ st)
    (executed st).

(** The next atomic step of worker [w]; [None] when [w] is no worker or has
    left its loop.  The step of a worker that is running a task is the
    return of the task, which is then counted ([task(); total_tasks_++]);
    for a task that throws see [worker_fail]. *)
Definition worker_step (st : State) (w : nat) : option State :=
  match workers_ st !! w with
  | None => None
  | Some Exited => None
  | Some AtCheck =>
      if shutdown_ st then Some (set_pc st w Exited) else Some (set_pc st w AtLocal)
  | Some AtLocal =>
      match PopBack (default [] (queues_ st !! w)) with
      | Some (task, q) => Some (set_pc (set_queue st w q) w (Running task))
      | None => Some (set_pc st w (AtSteal 0))
      end
  | Some (AtSteal attempts) =>
      if attempts <? thread_count_ st - 1 then
        let target := Z.to_nat (Z.rem (Z.of_nat w + 1 + attempts) (thread_count_ st)) in
        match PopFront (default [] (queues_ st !! target)) with
        | Some (task, q) => Some (set_pc (set_queue st target q) w (Running task))
        | None => Some (set_pc st w (AtSteal (attempts + 1)))
        end
      else Some (set_pc st w AtWait)
  | Some AtWait => Some (set_pc st w AtCheck)
  | Some (Running task) =>
      Some (mkState (shutdown_ st) (queues_ st) (<[w := AtCheck]> (workers_ st))
              (total_tasks_ st + 1) (executed st ++ [(w, task)]))
  end.

(** The step of worker [w] whose running task throws a [std::exception]:
    the [catch] of [ExecuteLocalTask] and of [StealTask] logs the failure,
    [total_tasks_++] is skipped, and the worker goes on as after any task.
    [None] when [w] is not running a task. *)
Definition worker_fail (st : State) (w : nat) : option State :=
  match workers_ st !! w with
  | Some (Running task) =>
      Some (mkState (shutdown_ st) (queues_ st) (<[w := AtCheck]> (workers_ st))
              (total_tasks_ st) (executed st ++ [(w, task)]))
  | _ => None
  end.

(** The round-robin loop of [SubmitBatch]. *)
Fixpoint SubmitBatch_loop (queues : list (list Task)) (thread_idx : nat) (tasks : list Task)
    : list (list Task) :=
  match tasks with
  | [] => queues
  | task :: rest =>
      let i := (thread_idx mod length queues)%nat in
      SubmitBatch_loop (<[i := PushBack (default [] (queues !! i)) task]> queues)
        (S thread_idx) rest
  end.

Definition SubmitBatch (st : State) (tasks : list Task) : State :=
  if shutdown_ st then st
  else mkState (shutdown_ st) (SubmitBatch_loop (queues_ st) 0 tasks) (workers_ st)
         (total_tasks_ st) (executed st).

(** [Shutdown] up to its [notify_all]; the joins that follow wait for the
    workers and change nothing. *)
Definition Shutdown (st : State) : State :=
  if shutdown_ st then st
  else mkState true (queues_ st) (workers_ st) (total_tasks_ st) (executed st).

(** What happens to a pool: worker [w] takes its next step (a running task
    returns), a batch is submitted, shutdown is requested, or the task that
    worker [w] is running throws. *)
Inductive Event :=
  | Work (w : nat)
  | Submit (tasks : list Task)
  | Stop
  | Throw (w : nat).

Definition step (st : State) (e : Event) : option State :=
  match e with
  | Work w => worker_step st w
  | Submit tasks => Some (SubmitBatch st tasks)
  | Stop => Some (Shutdown st)
  | Throw w => worker_fail st w
  end.

Fixpoint run (st : State) (events : list Event) : option State :=
  match events with
  | [] => Some st
  | e :: rest =>
      match step st e with
      | None => None
      | Some st' => run st' rest
      end
  end.

Definition queue_of (st : State) (w : nat) : list Task := default [] (queues_ st !! w).

End ThreadPool.

(** * Specification-side definitions

    These follow the wording of the specification, not the source; the
    theorems below compare them with the embedded code. *)

Module Specification.

(** The windows read from the reels of a reel set, one per reel, in reel
    order, for the same draws as [GenerateGrid]: column [c] of the visible
    window consists of the symbols of the c-th element. *)
Fixpoint reel_windows (window : Z) (reels : list Reel) (rng : Rng) : list (list Z) :=
  match reels with
  | [] => []
  | reel :: rest =>
      let '(r, rng1) := next_draw rng in
      GetSymbolsAtPosition reel (uniform_int 0 (GetLength reel - 1) r) window
        :: reel_windows window rest rng1
  end.

(** The number of distinct reel columns on which the scatter symbol appears. *)
Definition scatter_reels (scatter : Z) (windows : list (list Z)) : Z :=
  Z.of_nat (length (List.filter (fun column => existsb (Z.eqb scatter) column) windows)).

(** The flat grid in row-major order: cell [row * num_reels + col] is row
    [row] of column [col]. *)
Definition row_major (window : Z) (windows : list (list Z)) : SpinGrid :=
  flat_map (fun row => map (fun column => vec_at column row 0) windows) (seqZ 0 window).

(** Wild substitution relative to a wild set [Wd]: the anchor is the first
    symbol outside [Wd]; the run extends from the first symbol while the
    symbol is the anchor or a member of [Wd]; a line without anchor is a run
    of wilds. *)
Definition is_wild (Wd : list Z) (s : Z) : bool := existsb (Z.eqb s) Wd.

Definition anchor (Wd : list Z) (symbols : list Z) : option Z :=
  List.find (fun s => negb (is_wild Wd s)) symbols.

Fixpoint run_while (keep : Z -> bool) (symbols : list Z) : Z :=
  match symbols with
  | [] => 0
  | s :: rest => if keep s then 1 + run_while keep rest else 0
  end.

Definition run_length (Wd : list Z) (symbols : list Z) : Z :=
  match anchor Wd symbols with
  | None => Z.of_nat (length symbols)
  | Some a => run_while (fun s => (s =? a) || is_wild Wd s) symbols
  end.

(** A pay line that pays the entry of its anchor's row clamped to the row's
    length: [row[min (k - 3) (m - 1)] * bet] for a run of [k >= 3] and a row
    of length [m >= 3]. *)
Definition pays_clamped (pt : PayTable.t) (grid : SpinGrid) (payline : PaylineIndices)
    (bet_amount : Q) : Prop :=
  let symbols := PayTable.GetPaylineSymbols grid payline in
  let k := PayTable.CountConsecutiveSymbols symbols in
  forall row : list Q,
    PayTable.pay_table_ pt !! to_string (PayTable.base_symbol symbols) = Some row ->
    3 <= k -> 3 <= Z.of_nat (length row) ->
    (PayTable.CalculatePaylineWin pt grid payline bet_amount ==
     vec_at row (Z.min (k - 3) (Z.of_nat (length row) - 1)) 0 * bet_amount)%Q.

(** The minimum of 0 and the given profits. *)
Definition min_with_zero (profits : list Q) : Q := fold_left fmin profits 0%Q.


(** Workers drain their deques before they exit: in every state the pool
    can reach, a worker that has left its loop has an empty deque. *)
Definition drains_before_exit (thread_count : nat) : Prop :=
  forall (events : list ThreadPool.Event) (st : ThreadPool.State) (w : nat),
    ThreadPool.run (ThreadPool.new thread_count) events = Some st ->
    ThreadPool.workers_ st !! w = Some ThreadPool.Exited ->
    ThreadPool.queue_of st w = [].

(** The number of tasks worker [w] has run so far. *)
Definition tasks_run_by (w : nat) (st : ThreadPool.State) : nat :=
  length (List.filter (fun e => Nat.eqb (fst e) w) (ThreadPool.executed st)).

(** The number of tasks a worker standing at [pc] can still start before its
    next test of the shutdown flag. *)
Definition tasks_ahead (pc : option ThreadPool.Pc) : nat :=
  match pc with
  | Some ThreadPool.AtLocal | Some (ThreadPool.AtSteal _) | Some (ThreadPool.Running _) => 1
  | _ => 0
  end.

(** The conditions of the interaction protocol under which no further spin
    is taken, in the words of the specification: the player does not
    continue, the bet is not positive, the bet is not one of the bets the
    machine offers, the bet exceeds the balance, the spin cap is reached, the
    duration cap is reached. *)
Definition protocol_stop (decision : PlayerDecision) (available_bets : list Q) (balance : Q)
    (total_spins max_spins elapsed : Z) (max_duration : Q) : Prop :=
  pd_continue_playing decision = false \/
  (pd_bet_amount decision <= 0)%Q \/
  ~ (exists option, In option available_bets /\ (option == pd_bet_amount decision)%Q) \/
  (balance < pd_bet_amount decision)%Q \/
  max_spins <= total_spins \/
  (max_duration <= inject_Z elapsed)%Q.

(** [protocol_stop] at the head of pass [k] of a session: for the decision
    the player makes in that state, the bets the machine's configuration
    lists for the player's currency, the player's balance, the spins counted
    so far and the whole seconds elapsed. *)
Definition stops_at {M : Type}
    (MakeDecision : BasePlayer.t -> M -> string -> SessionData -> PlayerDecision * Rng * M)
    (max_spins : Z) (max_duration : Q) (clock : Clock) (k : nat) (stats : SessionStats)
    (c : SessionController.t M) : Prop :=
  protocol_stop
    (fst (fst (MakeDecision (SessionController.player_ c) (SessionController.model_ c)
                 (machine_id (SlotMachine.config_ (SessionController.machine_ c)))
                 (SessionController.PrepareSessionData c))))
    (default [] (bet_table (SlotMachine.config_ (SessionController.machine_ c))
                   !! currency (BasePlayer.config_ (SessionController.player_ c))))
    (BasePlayer.balance_ (SessionController.player_ c))
    (ss_total_spins stats) max_spins (elapsed_seconds clock k) max_duration.


(** The session loop is left exactly when a condition of the protocol first
    holds: some pass [n] is reached, no condition held at the head of an
    earlier pass, one holds at pass [n], and the loop is left there. *)
Definition exits_on_protocol_condition {M : Type}
    (MakeDecision : BasePlayer.t -> M -> string -> SessionData -> PlayerDecision * Rng * M)
    (c : SessionController.t M) (session_id : string) (max_spins : Z) (max_duration : Q)
    (clock : Clock) : Prop :=
  exists (n : nat) (stats_n : SessionStats) (c_n : SessionController.t M),
    SessionController.head_state MakeDecision max_spins max_duration clock n 0
      (SessionController.initial_stats session_id c) (SessionController.clear_history c)
      = Some (stats_n, c_n) /\
    (forall j stats_j c_j, (j < n)%nat ->
       SessionController.head_state MakeDecision max_spins max_duration clock j 0
         (SessionController.initial_stats session_id c) (SessionController.clear_history c)
         = Some (stats_j, c_j) ->
       ~ stops_at MakeDecision max_spins max_duration clock j stats_j c_j) /\
    stops_at MakeDecision max_spins max_duration clock n stats_n c_n /\
    exists why stats' c',
      SessionController.iteration MakeDecision max_spins max_duration clock n stats_n c_n
      = SessionController.Break why stats' c'.

(** What the statistics record satisfies at the head of every pass: [rtp] is
    still 0, [max_loss_streak] is the minimum of 0 and the recorded profits,
    [total_spins] counts the recorded spins, and nothing is bet before the
    first spin. *)
Definition stats_invariant {M : Type} (stats : SessionStats) (c : SessionController.t M)
    : Prop :=
  ss_rtp stats = 0%Q /\
  ss_max_loss_streak stats
    = min_with_zero (map sr_profit (SessionController.spin_history_ c)) /\
  ss_total_spins stats = Z.of_nat (length (SessionController.spin_history_ c)) /\
  (SessionController.spin_history_ c = [] -> ss_total_bet stats = 0%Q).

End Specification.

(** * Concrete machines, players and schedules used below *)

Module Inputs.

Definition payline5 : PaylineIndices := [0; 1; 2; 3; 4].

Definition config_of (wilds : list Z) (window : Z) (lines : list PaylineIndices)
    (table : gmap string (list Q)) : MachineConfig :=
  mkMachineConfig "m1" 10 2 wilds 20 window lines table
    {[ "USD"%string := [1%Q] ]} (Z.of_nat (length lines)).

Definition machine_of (cfg : MachineConfig) (sets : gmap string ReelSet) (seed : Rng)
    : SlotMachine.t :=
  SlotMachine.mk cfg (PayTable.mk (pay_table cfg) (paylines cfg)) sets seed.

(** Three visible rows; the scatter symbol 20 fills the single-symbol strip
    of the first reel and appears on no other reel. *)
Definition one_scatter_reel : SlotMachine.t :=
  machine_of (config_of [101] 3 [] ∅)
    {[ "normal"%string := mkReelSet [[20]; [1]; [1]; [1]; [1]] 3 ]} [].

(** Three visible rows; with every reel stopped at position 0 the scatter
    symbol shows on the reels 0, 1 and 3. *)
Definition three_scatter_reels : SlotMachine.t :=
  machine_of (config_of [101] 3 [] ∅)
    {[ "normal"%string :=
         mkReelSet [[20; 1; 1]; [1; 1; 20]; [1]; [1; 20; 1]; [1]] 3 ]} [].

(** Six reels of one row, every strip the single symbol 1, and a pay-table
    row of length 3. *)
Definition row3_table : PayTable.t :=
  PayTable.mk {[ "1"%string := [1%Q; 2%Q; 5%Q] ]} [[0; 1; 2; 3; 4; 5]].

Definition six_of_a_kind : SpinGrid := [1; 1; 1; 1; 1; 1].
Definition five_of_a_kind : SpinGrid := [1; 1; 1; 1; 1].

(** A machine whose configured wild symbol is 100; the only line reads
    100, 5, 5, 5, 9. *)
Definition wild100 : SlotMachine.t :=
  machine_of (config_of [100] 1 [payline5] {[ "5"%string := [1%Q; 2%Q; 5%Q] ]})
    {[ "normal"%string := mkReelSet [[100]; [5]; [5]; [5]; [9]] 1 ]} [].

Definition wild100_line : list Z := [100; 5; 5; 5; 9].

(** Five reels showing the symbol 1, one line, with and without a bonus
    reel set showing the symbol 2. *)
Definition table12 : gmap string (list Q) :=
  {[ "1"%string := [1%Q; 2%Q; 5%Q]; "2"%string := [2%Q; 4%Q; 10%Q] ]}.

Definition plain_machine : SlotMachine.t :=
  machine_of (config_of [101] 1 [payline5] table12)
    {[ "normal"%string := mkReelSet [[1]; [1]; [1]; [1]; [1]] 1 ]} [].

Definition bonus_machine : SlotMachine.t :=
  machine_of (config_of [101] 1 [payline5] table12)
    {[ "normal"%string := mkReelSet [[1]; [1]; [1]; [1]; [1]] 1;
       "bonus"%string := mkReelSet [[2]; [2]; [2]; [2]; [2]] 1 ]} [].

(** A machine configured without any reel set. *)
Definition no_reels_machine : SlotMachine.t :=
  machine_of (config_of [101] 1 [payline5] table12) ∅ [].


(** A machine that never pays: alternating symbols on the only line. *)
Definition losing_machine : SlotMachine.t :=
  machine_of (config_of [101] 1 [payline5] table12)
    {[ "normal"%string := mkReelSet [[1]; [2]; [1]; [2]; [1]] 1 ]} [].

(** [initial_balance: {avg: 50}]: the loader fills in std 0, min 100 and
    max 10000. *)
Definition low_mean : BalanceDistribution := mkBalanceDistribution 50 0 100 10000.

Definition spread : BalanceDistribution := mkBalanceDistribution 1000 200 100 10000.

Definition player_config (d : BalanceDistribution) : PlayerConfig :=
  mkPlayerConfig "p1" "random" "cluster_0" d "USD".

(** A random player holding 10 units that never ends a session by chance, by
    loss count, by budget or by its own spin limit. *)
Definition ten_units : BasePlayer.t :=
  BasePlayer.mk (player_config (mkBalanceDistribution 10 0 10 10)) 10 true [].

Definition patient : RandomPlayer.t :=
  RandomPlayer.mk 0 0 0 1000000 1000000 1000000 0 0.

Definition controller_on (m : SlotMachine.t) : SessionController.t RandomPlayer.t :=
  SessionController.mk ten_units patient m [] false 0.

Definition still_clock : Clock := mkClock (fun _ => 0) (fun _ => 0%Q) 0%Q.

(** Two workers and the tasks 0 and 1: worker 0 takes task 0, which throws;
    worker 1 takes task 1, which returns. *)
Definition one_task_throws : list ThreadPool.Event :=
  [ThreadPool.Submit [0; 1]%nat;
   ThreadPool.Work 0%nat; ThreadPool.Work 0%nat; ThreadPool.Throw 0%nat;
   ThreadPool.Work 1%nat; ThreadPool.Work 1%nat; ThreadPool.Work 1%nat].

(** A v1 player past its first bet whose three models answer with constants:
    bet 1, termination score 1, anomaly score -1. *)
Definition constant_model (out : list Q) : ModelLoader := mkModelLoader (fun _ => Some out).

Definition v1_loader : V1ModelLoader.t :=
  V1ModelLoader.mk true (Some (constant_model [1%Q])) (Some (constant_model [1%Q]))
    (Some (constant_model [(-1)%Q])).

Definition v1_state : V1Player.t := V1Player.mk v1_loader false 1.

Definition v1_base : BasePlayer.t :=
  BasePlayer.mk (mkPlayerConfig "p2" "v1" "cluster_0" (mkBalanceDistribution 100 0 100 100) "USD")
    100 true [].

Definition v1_observation : SessionData :=
  mkSessionData 100
    [mkSpinResult [1; 2; 1; 2; 1] 1 0 (-1) false 0 false 0 1]
    (mkSessionStats "" "" "" 1 1 0 (-1) 0 0 0 0 0 0 0 0) [1%Q] false 0.

(** Two workers, four tasks submitted in one batch, shutdown requested
    before any worker has looked at its deque, then worker 0 scheduled. *)
Definition early_shutdown : list ThreadPool.Event :=
  [ThreadPool.Submit [0; 1; 2; 3]%nat; ThreadPool.Stop; ThreadPool.Work 0%nat].

End Inputs.

(** * Construction, registries and task generation *)

(** ** machines/reel.cpp: the constructors *)

(** [Reel::Reel] throws on an empty strip. *)
Definition Reel_new (symbols : list Z) : option Reel :=
  match symbols with
  | [] => None
  | _ => Some symbols
  end.

(** The order of [std::sort] on reel names: [std::string] compares byte by
    byte. *)
Definition name_le (a b : string) : Prop := String.leb a b = true.

#[global] Instance name_le_dec : RelDecision name_le :=
  fun a b => decide (String.leb a b = true).

(** The names of the configured strips, collected from the map and sorted. *)
Definition sorted_names (reels_config : gmap string (list Z)) : list string :=
  merge_sort name_le (map fst (map_to_list reels_config)).

(** The loop that creates one [Reel] per name; the exception of [Reel::Reel]
    leaves the constructor. *)
Fixpoint build_reels (reels_config : gmap string (list Z)) (reel_names : list string)
    : option (list Reel) :=
  match reel_names with
  | [] => Some []
  | name :: rest =>
      match reels_config !! name with
      | None => build_reels reels_config rest
      | Some symbols =>
          match Reel_new symbols with
          | None => None
          | Some reel =>
              match build_reels reels_config rest with
              | None => None
              | Some reels => Some (reel :: reels)
              end
          end
      end
  end.

(** [ReelSet::ReelSet]; throws when a strip is empty or no strip is
    configured. *)
Definition ReelSet_new (reels_config : gmap string (list Z)) (window_size : Z)
    : option ReelSet :=
  match build_reels reels_config (sorted_names reels_config) with
  | None => None
  | Some [] => None
  | Some reels => Some (mkReelSet reels window_size)
  end.

(** ** machines/slot_machine.cpp: the constructor *)

(** The member [reels] of the C++ [MachineConfig]: reel-set name to strip
    name to strip.  It is read by the constructor only and is passed next to
    the record [MachineConfig], which holds the members the spin reads. *)
Definition ReelsConfig := gmap string (gmap string (list Z)).

(** [SlotMachine::SlotMachine]: one [ReelSet] per configured reel set, all
    with the window size of the configuration; an exception of a [ReelSet]
    constructor leaves the constructor.  [seed] stands for the seed taken
    from [std::random_device]. *)
Definition SlotMachine_new (config : MachineConfig) (reels : ReelsConfig) (seed : Rng)
    : option SlotMachine.t :=
  if decide (map_Forall (fun _ reels_config =>
                           is_Some (ReelSet_new reels_config (window_size config))) reels)
  then Some (SlotMachine.mk config (PayTable.mk (pay_table config) (paylines config))
               (omap (fun reels_config => ReelSet_new reels_config (window_size config))
                     reels)
               seed)
  else None.

(** ** machines/machine_factory.cpp *)

Module MachineFactory.

(** [machine_configs_]: machine id to configuration. *)
Definition t := gmap string (MachineConfig * ReelsConfig).

Definition RegisterMachine (f : t) (config : MachineConfig) (reels : ReelsConfig) : t :=
  <[machine_id config := (config, reels)]> f.

(** [CreateMachine] returns a null pointer, here [None], for an unknown id
    and when the constructor throws. *)
Definition CreateMachine (f : t) (id : string) (seed : Rng) : option SlotMachine.t :=
  match f !! id with
  | None => None
  | Some (config, reels) => SlotMachine_new config reels seed
  end.

Definition IsRegistered (f : t) (id : string) : bool := bool_decide (is_Some (f !! id)).

End MachineFactory.

(** ** core/task_distributor.cpp *)

Record SimulationConfig := mkSimulationConfig {
  sessions_per_pair : Z;
  max_spins_per_session : Z;
  max_session_duration : Q
}.

Module SessionTask.

Record t := mk {
  task_id : Z;
  session_id : Z;
  player_version : string;
  player_cluster : string;
  machine_id : string;
  sim_config : SimulationConfig
}.

End SessionTask.

Module TaskDistributor.

(** The body of the innermost loop: one task is appended and the [int]
    counter [task_id] is incremented. *)
Definition add_task (machine_config : MachineConfig) (player_config : PlayerConfig)
    (sim : SimulationConfig) (st : list SessionTask.t * Z) (session_num : Z)
    : list SessionTask.t * Z :=
  let '(tasks, task_id) := st in
  (tasks ++ [SessionTask.mk task_id session_num (model_version player_config)
               (cluster_id player_config) (machine_id machine_config) sim],
   wrap32 (task_id + 1)).

(** [GenerateSessionTasks]: machines, then players, then session numbers
    [0 .. sessions_per_pair - 1]. *)
Definition GenerateSessionTasks (machine_configs : list MachineConfig)
    (player_configs : list PlayerConfig) (sim : SimulationConfig) : list SessionTask.t :=
  fst (fold_left
         (fun st machine_config =>
            fold_left
              (fun st player_config =>
                 fold_left (add_task machine_config player_config sim)
                   (seqZ 0 (sessions_per_pair sim)) st)
              player_configs st)
         machine_configs ([], 0)).

End TaskDistributor.

(** The per-thread pool of player and machine instances.  The instances are
    opaque here; the two factories are the functions that create them, a null
    pointer being [None]. *)
Module InstancePool.

Section WithInstances.

Context {Player Machine : Type}.
Variable CreatePlayer : string -> string -> option Player.
Variable CreateMachine : string -> option Machine.

(** Each pool is a vector whose back is the end of the list. *)
Record t := mk {
  player_pools_ : gmap string (list Player);
  machine_pools_ : gmap string (list Machine)
}.

Definition new : t := mk ∅ ∅.

Definition MakeKey (player_version player_cluster machine_id : string) : string :=
  (player_version ++ "_" ++ player_cluster ++ "_" ++ machine_id)%string.

Definition MAX_POOL_SIZE : nat := 3.

(** Take the back of the pool under [key], or create an instance;
    [operator[]] leaves an entry under [key] in both cases. *)
Definition take_or_create {A} (pools : gmap string (list A)) (key : string)
    (create : option A) : option A * gmap string (list A) :=
  let pool := default [] (pools !! key) in
  match rev pool with
  | [] => (create, <[key := []]> pools)
  | instance :: rest => (Some instance, <[key := rev rest]> pools)
  end.

Definition GetInstances (p : t) (player_version player_cluster machine_id : string)
    : (option Player * option Machine) * t :=
  let key := MakeKey player_version player_cluster machine_id in
  let '(player, player_pools) :=
    take_or_create (player_pools_ p) key (CreatePlayer player_version player_cluster) in
  let '(machine, machine_pools) :=
    take_or_create (machine_pools_ p) key (CreateMachine machine_id) in
  ((player, machine), mk player_pools machine_pools).

(** Keep the instance when it is not null and the pool holds fewer than
    [MAX_POOL_SIZE] instances, delete it otherwise. *)
Definition keep_or_delete {A} (pools : gmap string (list A)) (key : string)
    (instance : option A) : gmap string (list A) :=
  let pool := default [] (pools !! key) in
  match instance with
  | Some i =>
      if (length pool <? MAX_POOL_SIZE)%nat then <[key := pool ++ [i]]> pools
      else <[key := pool]> pools
  | None => pools
  end.

Definition ReturnInstances (p : t) (player : option Player) (machine : option Machine)
    (player_version player_cluster machine_id : string) : t :=
  let key := MakeKey player_version player_cluster machine_id in
  mk (keep_or_delete (player_pools_ p) key player)
     (keep_or_delete (machine_pools_ p) key machine).

(** The calls made on a pool. *)
Inductive Call :=
  | Get (player_version player_cluster machine_id : string)
  | Return (player : option Player) (machine : option Machine)
           (player_version player_cluster machine_id : string).

Definition call (p : t) (c : Call) : t :=
  match c with
  | Get pv pc mid => snd (GetInstances p pv pc mid)
  | Return player machine pv pc mid => ReturnInstances p player machine pv pc mid
  end.

End WithInstances.

Arguments t : clear implicits.
Arguments Call : clear implicits.

End InstancePool.

(** * Notions used to state further properties *)

Module Characterisation.

(** The amounts added up from 0 in list order, as the [+=] of
    [UpdateSessionStats] adds them. *)
Definition running_sum (amounts : list Q) : Q := fold_left Qplus amounts 0%Q.

(** The balance after the given spins, from the balance [initial]: each
    spin debits its bet and then credits its win, as [ExecuteSpin] does with
    two calls of [UpdateBalance]. *)
Definition replay_balance (initial : Q) (spins : list SpinResult) : Q :=
  fold_left (fun balance spin => (balance + - sr_bet_amount spin + sr_win_amount spin)%Q)
            spins initial.

(** The number of leading elements that satisfy [same]. *)
Fixpoint leading_run {A} (same : A -> bool) (l : list A) : nat :=
  match l with
  | [] => 0%nat
  | x :: rest => if same x then S (leading_run same rest) else 0%nat
  end.

(** The streak at the end of a history: the number of its last spins that
    share the outcome of the very last one (a win is a profit above 0),
    counted positive after a win and negative otherwise; 0 without spins. *)
Definition current_streak (spins : list SpinResult) : Z :=
  match last spins with
  | None => 0
  | Some last_spin =>
      let winning := flt 0 (sr_profit last_spin) in
      let n := Z.of_nat (leading_run
                           (fun spin => Bool.eqb (flt 0 (sr_profit spin)) winning)
                           (rev spins)) in
      if winning then n else - n
  end.

(** The tasks of a pool: waiting in a deque, being run by a worker, or
    already executed. *)
Definition pc_task (pc : ThreadPool.Pc) : list ThreadPool.Task :=
  match pc with
  | ThreadPool.Running task => [task]
  | _ => []
  end.

Definition tasks_of (st : ThreadPool.State) : list ThreadPool.Task :=
  concat (ThreadPool.queues_ st) ++ flat_map pc_task (ThreadPool.workers_ st)
  ++ map snd (ThreadPool.executed st).

(** The tasks a sequence of events hands to the pool: those of the batches
    submitted before the first shutdown request. *)
Fixpoint accepted (shutdown : bool) (events : list ThreadPool.Event)
    : list ThreadPool.Task :=
  match events with
  | [] => []
  | ThreadPool.Submit tasks :: rest =>
      (if shutdown then [] else tasks) ++ accepted shutdown rest
  | ThreadPool.Stop :: rest => accepted true rest
  | ThreadPool.Work _ :: rest => accepted shutdown rest
  | ThreadPool.Throw _ :: rest => accepted shutdown rest
  end.

(** The number of tasks that threw in a sequence of events. *)
Definition thrown (events : list ThreadPool.Event) : nat :=
  length (List.filter (fun e => match e with ThreadPool.Throw _ => true | _ => false end)
            events).

(** What identifies a generated task besides its number: machine, player
    version, player cluster and session number. *)
Definition task_key (task : SessionTask.t) : string * string * string * Z :=
  (SessionTask.machine_id task, SessionTask.player_version task,
   SessionTask.player_cluster task, SessionTask.session_id task).

(** What a loop of [GenerateSessionTasks] does to the task list and the
    counter when it adds the tasks with the given keys. *)
Definition adds_tasks (sim : SimulationConfig) (keys : list (string * string * string * Z))
    (st st' : list SessionTask.t * Z) : Prop :=
  snd st' = snd st + Z.of_nat (length keys) /\
  map SessionTask.task_id (fst st')
  = map SessionTask.task_id (fst st) ++ seqZ (snd st) (Z.of_nat (length keys)) /\
  map task_key (fst st') = map task_key (fst st) ++ keys /\
  (Forall (fun task => SessionTask.sim_config task = sim) (fst st) ->
   Forall (fun task => SessionTask.sim_config task = sim) (fst st')).

(** Every machine with every player, [sessions_per_pair] times, machines
    outermost and session numbers innermost. *)
Definition generated_keys (machine_configs : list MachineConfig)
    (player_configs : list PlayerConfig) (sim : SimulationConfig)
    : list (string * string * string * Z) :=
  flat_map
    (fun machine_config =>
       flat_map
         (fun player_config =>
            map (fun session_num =>
                   (machine_id machine_config, model_version player_config,
                    cluster_id player_config, session_num))
                (seqZ 0 (sessions_per_pair sim)))
         player_configs)
    machine_configs.

End Characterisation.

(** * Properties *)

Import Specification Inputs.

(** ** Comparisons and integers *)

Lemma flt_spec a b : flt a b = true <-> (a < b)%Q.
Proof.
  unfold flt. rewrite negb_true_iff. split.
  - intros H. apply Qnot_le_lt. intros Hle. apply Qle_bool_iff in Hle. congruence.
  - intros H. destruct (Qle_bool b a) eqn:E; [|reflexivity].
    apply Qle_bool_iff in E. exfalso. exact (Qlt_not_le _ _ H E).
Qed.

Lemma flt_false a b : flt a b = false <-> (b <= a)%Q.
Proof.
  unfold flt. rewrite negb_false_iff. apply Qle_bool_iff.
Qed.

Lemma fle_spec a b : fle a b = true <-> (a <= b)%Q.
Proof. apply Qle_bool_iff. Qed.

Lemma feq_spec a b : feq a b = true <-> (a == b)%Q.
Proof. apply Qeq_bool_iff. Qed.

Lemma wrap32_id z : INT_MIN <= z <= INT_MAX -> wrap32 z = z.
Proof.
  unfold INT_MIN, INT_MAX, wrap32. intros H.
  rewrite Z.mod_small; lia.
Qed.

Lemma fle_false a b : fle a b = false <-> (b < a)%Q.
Proof.
  unfold fle. split.
  - intros H. apply Qnot_le_lt. intros Hle. apply Qle_bool_iff in Hle. congruence.
  - intros H. destruct (Qle_bool a b) eqn:E; [|reflexivity].
    apply Qle_bool_iff in E. exfalso. exact (Qlt_not_le _ _ H E).
Qed.

Lemma fmin_le_l a b : (fmin a b <= a)%Q.
Proof.
  unfold fmin. destruct (flt b a) eqn:E.
  - apply flt_spec in E. apply Qlt_le_weak, E.
  - apply Qle_refl.
Qed.

Lemma fmin_le_r a b : (fmin a b <= b)%Q.
Proof.
  unfold fmin. destruct (flt b a) eqn:E.
  - apply Qle_refl.
  - apply flt_false in E. exact E.
Qed.

Lemma fmin_cases a b : fmin a b = a \/ (fmin a b = b /\ (b < a)%Q).
Proof.
  unfold fmin. destruct (flt b a) eqn:E; [right | left; reflexivity].
  split; [reflexivity | apply flt_spec, E].
Qed.

Lemma clamp_bounds v lo hi : (lo <= hi)%Q -> (lo <= clamp v lo hi <= hi)%Q.
Proof.
  intros Hlh. unfold clamp.
  destruct (flt v lo) eqn:E1.
  - split; [apply Qle_refl | exact Hlh].
  - apply flt_false in E1. destruct (flt hi v) eqn:E2.
    + split; [exact Hlh | apply Qle_refl].
    + apply flt_false in E2. split; assumption.
Qed.

(** ** Reel windows and the grid *)

Lemma GenerateGrid_loop_windows window reels rng :
  fst (GenerateGrid_loop window reels rng) = concat (reel_windows window reels rng).
Proof.
  revert rng. induction reels as [|reel rest IH]; intros rng; simpl; [reflexivity|].
  destruct (next_draw rng) as [r rng1].
  specialize (IH rng1).
  destruct (GenerateGrid_loop window rest rng1) as [grid rng2]. simpl in *.
  now rewrite IH.
Qed.

Lemma GetSymbolsAtPosition_length symbols position count :
  length (GetSymbolsAtPosition symbols position count) = Z.to_nat count.
Proof.
  unfold GetSymbolsAtPosition. rewrite length_map. apply length_seqZ.
Qed.

Lemma reel_windows_length window reels rng :
  length (reel_windows window reels rng) = length reels.
Proof.
  revert rng. induction reels as [|reel rest IH]; intros rng; simpl; [reflexivity|].
  destruct (next_draw rng) as [r rng1]. simpl. now rewrite IH.
Qed.

(** X1.  The grid generated from a reel set has [num_reels * window_size]
    cells, whatever the draws. *)
Lemma GenerateGrid_length rs rng :
  0 <= window_size_ rs ->
  Z.of_nat (length (fst (GenerateGrid rs rng))) =
  Z.of_nat (length (reels_ rs)) * window_size_ rs.
Proof.
  intros Hw. unfold GenerateGrid.
  generalize (reels_ rs) as reels. intros reels. revert rng.
  induction reels as [|reel rest IH]; intros rng; simpl; [reflexivity|].
  destruct (next_draw rng) as [r rng1].
  specialize (IH rng1).
  destruct (GenerateGrid_loop (window_size_ rs) rest rng1) as [grid rng2]. simpl in *.
  rewrite length_app, GetSymbolsAtPosition_length. lia.
Qed.

(** ** The scatter detector on a row-major grid *)

Lemma vec_at_nil (i : Z) : vec_at (@nil Z) i 0 = 0.
Proof. unfold vec_at. destruct (i <? 0); [reflexivity|]. now destruct (Z.to_nat i). Qed.

Lemma vec_at_nth {A} (v : list A) (i : nat) (d : A) : vec_at v (Z.of_nat i) d = nth i v d.
Proof.
  unfold vec_at. assert (E : (Z.of_nat i <? 0) = false) by (apply Z.ltb_ge; lia).
  now rewrite E, Nat2Z.id.
Qed.

Lemma flat_map_uniform_length {A B} (f : A -> list B) (n : nat) (l : list A) :
  (forall a, length (f a) = n) -> length (flat_map f l) = (length l * n)%nat.
Proof.
  intros Hf. induction l as [|a l IH]; cbn [flat_map length]; [reflexivity|].
  rewrite length_app, Hf, IH. lia.
Qed.

Lemma nth_flat_map_uniform {A B} (f : A -> list B) (n : nat) (d : B) (a0 : A) (l : list A) :
  (forall a, length (f a) = n) ->
  forall r c, (c < n)%nat -> (r < length l)%nat ->
  nth (r * n + c) (flat_map f l) d = nth c (f (nth r l a0)) d.
Proof.
  intros Hf. induction l as [|a l IH]; intros r c Hc Hr; cbn [length] in Hr; [lia|].
  cbn [flat_map]. destruct r as [|r].
  - cbn [Nat.mul Nat.add nth]. apply app_nth1. now rewrite Hf.
  - rewrite app_nth2 by (rewrite Hf; lia). rewrite Hf.
    replace (S r * n + c - n)%nat with (r * n + c)%nat by lia.
    cbn [nth]. apply IH; lia.
Qed.

(** The cell [row * num_reels + col] of a row-major grid is row [row] of
    column [col]. *)
Lemma row_major_cell (window : Z) (windows : list (list Z)) (row col : nat) :
  (Z.of_nat row < window) -> (col < length windows)%nat ->
  vec_at (row_major window windows)
    (Z.of_nat row * Z.of_nat (length windows) + Z.of_nat col) 0
  = vec_at (nth col windows []) (Z.of_nat row) 0.
Proof.
  intros Hrow Hcol. unfold row_major.
  replace (Z.of_nat row * Z.of_nat (length windows) + Z.of_nat col)
    with (Z.of_nat (row * length windows + col)) by lia.
  rewrite vec_at_nth.
  rewrite (nth_flat_map_uniform _ (length windows) 0 0).
  - assert (Hnth : nth row (seqZ 0 window) 0 = Z.of_nat row).
    { rewrite nth_lookup, lookup_seqZ_lt by exact Hrow. reflexivity. }
    rewrite Hnth. rewrite <- (vec_at_nil (Z.of_nat row)) at 1.
    apply (map_nth (fun column => vec_at column (Z.of_nat row) 0)).
  - intros a. apply length_map.
  - exact Hcol.
  - rewrite length_seqZ. lia.
Qed.

Lemma row_major_length (window : Z) (windows : list (list Z)) :
  0 <= window ->
  Z.of_nat (length (row_major window windows)) = window * Z.of_nat (length windows).
Proof.
  intros Hw. unfold row_major.
  rewrite (flat_map_uniform_length _ (length windows)) by (intros a; apply length_map).
  rewrite length_seqZ. lia.
Qed.

(** On a row-major grid the column test of the detector finds the scatter
    exactly when the column holds it. *)
Lemma has_scatter_row_major (cfg : MachineConfig) (windows : list (list Z)) (col : nat) :
  Forall (fun column => Z.of_nat (length column) = window_size cfg) windows ->
  (col < length windows)%nat ->
  SlotMachine.has_scatter cfg (row_major (window_size cfg) windows)
    (Z.of_nat (length windows)) (Z.of_nat col)
  = existsb (Z.eqb (scatter_symbol cfg)) (nth col windows []).
Proof.
  intros Hall Hcol.
  assert (Hlen : Z.of_nat (length (nth col windows [])) = window_size cfg).
  { rewrite List.Forall_forall in Hall. apply Hall. now apply nth_In. }
  unfold SlotMachine.has_scatter. apply eq_true_iff_eq.
  rewrite !existsb_exists. split.
  - intros (row & Hin & Heq).
    apply list_elem_of_In, elem_of_seqZ in Hin.
    assert (Hr : row = Z.of_nat (Z.to_nat row)) by lia.
    rewrite Hr in Heq. rewrite row_major_cell in Heq by lia.
    rewrite vec_at_nth in Heq. apply Z.eqb_eq in Heq.
    exists (scatter_symbol cfg). split; [|apply Z.eqb_refl].
    rewrite <- Heq. apply nth_In. lia.
  - intros (x & Hin & Heq). apply Z.eqb_eq in Heq. subst x.
    destruct (In_nth _ _ 0 Hin) as (i & Hi & Hnth).
    exists (Z.of_nat i). split.
    + apply list_elem_of_In, elem_of_seqZ. lia.
    + rewrite row_major_cell by lia. rewrite vec_at_nth, Hnth. apply Z.eqb_refl.
Qed.

Lemma count_by_index {A} (P : Z -> bool) (Q : A -> bool) (d : A) (l : list A) :
  (forall i, (i < length l)%nat -> P (Z.of_nat i) = Q (nth i l d)) ->
  length (List.filter P (seqZ 0 (Z.of_nat (length l)))) = length (List.filter Q l).
Proof.
  induction l as [|x l IH] using rev_ind; intros H; [reflexivity|].
  rewrite length_app. cbn [length]. rewrite Nat.add_1_r, seqZ_S.
  rewrite !List.filter_app, !length_app. f_equal.
  - apply IH. intros i Hi. rewrite H by (rewrite length_app; cbn [length]; lia).
    now rewrite app_nth1 by exact Hi.
  - cbn [List.filter]. rewrite Z.add_0_l.
    rewrite (H (length l)) by (rewrite length_app; cbn [length]; lia).
    rewrite nth_middle. now destruct (Q x).
Qed.

(** X27.  Had the grid been assembled row-major, the detector would report a
    trigger exactly when the scatter shows on at least three reel columns:
    the detector matches the layout announced for [SpinGrid], the assembler
    does not produce it. *)
Lemma detector_right_on_row_major (m : SlotMachine.t) (windows : list (list Z)) :
  0 < window_size (SlotMachine.config_ m) ->
  Forall (fun column => Z.of_nat (length column) = window_size (SlotMachine.config_ m))
         windows ->
  SlotMachine.CheckFreeSpinsTrigger m
    (row_major (window_size (SlotMachine.config_ m)) windows)
  = (3 <=? scatter_reels (scatter_symbol (SlotMachine.config_ m)) windows).
Proof.
  intros Hw Hall. unfold SlotMachine.CheckFreeSpinsTrigger, scatter_reels.
  rewrite row_major_length by lia.
  rewrite Z.mul_comm, Z.quot_mul by lia.
  f_equal. f_equal.
  apply (count_by_index _ _ []).
  intros i Hi. now apply has_scatter_row_major.
Qed.

(** C1.  The claim: a spin reports a free-spin trigger exactly when the
    scatter symbol appears on at least three reel columns, the scatter
    detector reading the cells the grid assembler wrote for every reel.  The
    code departs from it: [GenerateGrid] stores the window of reel [c] in the
    cells [c * window_size ..], [CheckFreeSpinsTrigger] reads column [c] from
    the cells [row * num_reels + c].  On [one_scatter_reel] the scatter shows
    on one reel only and the spin reports a trigger; on [three_scatter_reels]
    it shows on three reels and the spin reports none. *)
Theorem scatter_detector_layout_mismatch :
  (exists res m',
     SlotMachine.Spin one_scatter_reel 0 1 false 0 = Some (res, m') /\
     sr_grid res = concat (reel_windows 3 [[20]; [1]; [1]; [1]; [1]] []) /\
     scatter_reels 20 (reel_windows 3 [[20]; [1]; [1]; [1]; [1]] []) = 1 /\
     sr_trigger_free_spins res = true) /\
  (exists res m',
     SlotMachine.Spin three_scatter_reels 0 1 false 0 = Some (res, m') /\
     sr_grid res = concat (reel_windows 3 [[20; 1; 1]; [1; 1; 20]; [1]; [1; 20; 1]; [1]] []) /\
     scatter_reels 20 (reel_windows 3 [[20; 1; 1]; [1; 1; 20]; [1]; [1; 20; 1]; [1]] []) = 3 /\
     sr_trigger_free_spins res = false).
Proof.
  split; eexists; eexists; (split; [vm_compute; reflexivity|]);
    repeat split; vm_compute; reflexivity.
Qed.

(** ** Run length with wild substitution *)

Lemma is_wild_101 s : is_wild [101] s = (s =? 101).
Proof. unfold is_wild. simpl. apply orb_false_r. Qed.

Lemma IsWildSymbol_is_wild m s :
  SlotMachine.IsWildSymbol m s = is_wild (wild_symbols (SlotMachine.config_ m)) s.
Proof.
  unfold SlotMachine.IsWildSymbol, is_wild.
  induction (wild_symbols (SlotMachine.config_ m)) as [|w ws IH]; simpl; [reflexivity|].
  now rewrite IH, Z.eqb_sym.
Qed.

Lemma run_while_nonneg keep symbols : 0 <= run_while keep symbols.
Proof.
  induction symbols as [|s rest IH]; simpl; [lia|]. destruct (keep s); lia.
Qed.

(** With a first symbol that is not 101 the loop of the pay table counts the
    symbols equal to it or to 101. *)
Lemma PayTable_count_loop_anchor rest a c :
  (a =? 101) = false ->
  PayTable.count_loop rest a c = c + run_while (fun s => (s =? a) || is_wild [101] s) rest.
Proof.
  intros Ha. revert c.
  induction rest as [|s rest IH]; intros c; cbn [PayTable.count_loop run_while]; [lia|].
  rewrite is_wild_101.
  destruct ((s =? a) || (s =? 101)) eqn:E.
  - rewrite IH. lia.
  - rewrite Ha. lia.
Qed.

(** With 101 in front the loop skips to the first other symbol and goes on
    with it as the symbol to match. *)
Lemma PayTable_count_loop_wild rest c :
  PayTable.count_loop rest 101 c =
  match anchor [101] rest with
  | None => c + Z.of_nat (length rest)
  | Some a => c + run_while (fun s => (s =? a) || is_wild [101] s) rest
  end.
Proof.
  revert c. induction rest as [|s rest IH]; intros c.
  - simpl. lia.
  - cbn [PayTable.count_loop anchor List.find]. rewrite is_wild_101.
    destruct (s =? 101) eqn:E.
    + rewrite orb_true_r. cbn [negb]. rewrite IH. unfold anchor.
      destruct (List.find _ rest) as [a|].
      * cbn [run_while]. rewrite is_wild_101, E, orb_true_r. lia.
      * cbn [length]. lia.
    + cbn [orb negb]. rewrite Z.eqb_refl.
      rewrite PayTable_count_loop_anchor by exact E.
      cbn [run_while]. rewrite Z.eqb_refl. cbn [orb]. lia.
Qed.

(** X28.  For the wild set {101} the run counted by the pay table is the run
    of the specification: the anchor is the first symbol other than 101 and
    the run extends while the symbol is the anchor or 101. *)
Lemma PayTable_count_is_run_101 symbols :
  PayTable.CountConsecutiveSymbols symbols = run_length [101] symbols.
Proof.
  destruct symbols as [|s0 rest]; [reflexivity|].
  unfold PayTable.CountConsecutiveSymbols, run_length.
  cbn [anchor List.find]. rewrite is_wild_101.
  destruct (s0 =? 101) eqn:E.
  - apply Z.eqb_eq in E. subst s0. cbn [negb]. rewrite PayTable_count_loop_wild.
    unfold anchor. destruct (List.find _ rest) as [a|].
    + cbn [run_while]. rewrite is_wild_101. cbn [Z.eqb Pos.eqb]. rewrite orb_true_r. lia.
    + cbn [length]. lia.
  - cbn [negb]. rewrite PayTable_count_loop_anchor by exact E.
    cbn [run_while]. rewrite Z.eqb_refl. cbn [orb]. lia.
Qed.

Lemma SlotMachine_count_loop_anchor m rest a c :
  SlotMachine.IsWildSymbol m a = false ->
  SlotMachine.count_loop m rest a c =
  c + run_while (fun s => (s =? a) || is_wild (wild_symbols (SlotMachine.config_ m)) s) rest.
Proof.
  intros Ha. revert c.
  induction rest as [|s rest IH]; intros c; cbn [SlotMachine.count_loop run_while]; [lia|].
  rewrite <- IsWildSymbol_is_wild.
  destruct ((s =? a) || SlotMachine.IsWildSymbol m s) eqn:E.
  - rewrite IH. lia.
  - rewrite Ha. lia.
Qed.

Lemma SlotMachine_count_loop_wild m rest w c :
  SlotMachine.IsWildSymbol m w = true ->
  SlotMachine.count_loop m rest w c =
  match anchor (wild_symbols (SlotMachine.config_ m)) rest with
  | None => c + Z.of_nat (length rest)
  | Some a =>
      c + run_while (fun s => (s =? a) || is_wild (wild_symbols (SlotMachine.config_ m)) s) rest
  end.
Proof.
  intros Hw. revert c. induction rest as [|s rest IH]; intros c.
  - simpl. lia.
  - cbn [SlotMachine.count_loop anchor List.find]. rewrite <- IsWildSymbol_is_wild.
    destruct (SlotMachine.IsWildSymbol m s) eqn:E.
    + rewrite orb_true_r. cbn [negb]. rewrite IH. unfold anchor.
      destruct (List.find _ rest) as [a|].
      * cbn [run_while]. rewrite <- IsWildSymbol_is_wild, E, orb_true_r. lia.
      * cbn [length]. lia.
    + rewrite orb_false_r. cbn [negb].
      assert (Hne : (s =? w) = false).
      { destruct (s =? w) eqn:Esw; [|reflexivity].
        apply Z.eqb_eq in Esw. subst s. congruence. }
      rewrite Hne, Hw.
      rewrite SlotMachine_count_loop_anchor by exact E.
      cbn [run_while]. rewrite Z.eqb_refl. cbn [orb]. lia.
Qed.

(** X29.  The machine's own counter, which no live path calls, computes the
    run of the specification for every configured wild set. *)
Lemma SlotMachine_count_is_run m symbols :
  SlotMachine.CountConsecutiveSymbols m symbols =
  run_length (wild_symbols (SlotMachine.config_ m)) symbols.
Proof.
  destruct symbols as [|s0 rest]; [reflexivity|].
  unfold SlotMachine.CountConsecutiveSymbols, run_length.
  cbn [anchor List.find]. rewrite <- IsWildSymbol_is_wild.
  destruct (SlotMachine.IsWildSymbol m s0) eqn:E.
  - cbn [negb]. rewrite SlotMachine_count_loop_wild by exact E.
    unfold anchor. destruct (List.find _ rest) as [a|].
    + cbn [run_while]. rewrite <- IsWildSymbol_is_wild, E, orb_true_r. lia.
    + cbn [length]. lia.
  - cbn [negb]. rewrite SlotMachine_count_loop_anchor by exact E.
    cbn [run_while]. rewrite Z.eqb_refl. cbn [orb]. lia.
Qed.

(** C3.  The claim: the run length used for the payout is computed with wild
    substitution relative to the configured wild set, whatever that set is.
    The code departs from it: the counter of the pay table, the one the
    payout uses, compares with the literal 101.  On [wild100], whose wild
    symbol is 100, the line 100, 5, 5, 5, 9 has a run of 4 relative to the
    configured set, which is also what the machine's own counter returns;
    the pay table counts 1 and the spin pays nothing instead of 2 times the
    bet. *)
Theorem payout_run_ignores_configured_wilds :
  wild_symbols (SlotMachine.config_ wild100) = [100] /\
  run_length [100] wild100_line = 4 /\
  SlotMachine.CountConsecutiveSymbols wild100 wild100_line = 4 /\
  PayTable.CountConsecutiveSymbols wild100_line = 1 /\
  (exists res m',
     SlotMachine.Spin wild100 0 1 false 0 = Some (res, m') /\
     sr_grid res = wild100_line /\
     sr_win_amount res = 0%Q /\
     PayTable.GetPayout (SlotMachine.pay_table_ wild100) "5" 4 = 2%Q).
Proof.
  repeat split; try (vm_compute; reflexivity).
  eexists; eexists. split; [vm_compute; reflexivity|].
  repeat split; vm_compute; reflexivity.
Qed.

(** ** Pay-line payout *)

Lemma CountConsecutiveSymbols_nil_lt symbols :
  3 <= PayTable.CountConsecutiveSymbols symbols -> symbols <> [].
Proof. intros H ->. simpl in H. lia. Qed.

(** C2, as stated, fails: with six reels, six symbols 1 on the line and the
    row [1; 2; 5], the run is 6, the clamped entry is the last one, 5, and
    the line pays 0. *)
Lemma six_of_a_kind_not_clamped :
  ~ pays_clamped row3_table six_of_a_kind [0; 1; 2; 3; 4; 5] 1.
Proof.
  intros H. unfold pays_clamped in H.
  specialize (H [1%Q; 2%Q; 5%Q]).
  assert (Hrow : PayTable.pay_table_ row3_table
                   !! to_string (PayTable.base_symbol
                        (PayTable.GetPaylineSymbols six_of_a_kind [0; 1; 2; 3; 4; 5]))
                 = Some [1%Q; 2%Q; 5%Q]) by (vm_compute; reflexivity).
  specialize (H Hrow).
  assert (Hk : 3 <= PayTable.CountConsecutiveSymbols
                      (PayTable.GetPaylineSymbols six_of_a_kind [0; 1; 2; 3; 4; 5]))
    by (vm_compute; discriminate).
  assert (Hm : 3 <= Z.of_nat (length [1%Q; 2%Q; 5%Q])) by (vm_compute; discriminate).
  specialize (H Hk Hm). vm_compute in H. discriminate H.
Qed.

(** C2, amended.  For a pay line whose run, as the pay table counts it, has
    length [k >= 3] and whose base symbol has a row of length [m]: the line
    pays [row[k - 3] * bet] when [k - 3 < m], and 0 when [k - 3 >= m]; the
    row is never read past its end. *)
Theorem payline_pays_entry_or_nothing (pt : PayTable.t) (grid : SpinGrid)
    (payline : PaylineIndices) (bet_amount : Q) (row : list Q) :
  PayTable.pay_table_ pt
    !! to_string (PayTable.base_symbol (PayTable.GetPaylineSymbols grid payline)) = Some row ->
  3 <= PayTable.CountConsecutiveSymbols (PayTable.GetPaylineSymbols grid payline) ->
  (PayTable.CountConsecutiveSymbols (PayTable.GetPaylineSymbols grid payline) - 3
     < Z.of_nat (length row) ->
   PayTable.CalculatePaylineWin pt grid payline bet_amount =
   (nth (Z.to_nat (PayTable.CountConsecutiveSymbols (PayTable.GetPaylineSymbols grid payline) - 3))
        row 0 * bet_amount)%Q) /\
  (Z.of_nat (length row)
     <= PayTable.CountConsecutiveSymbols (PayTable.GetPaylineSymbols grid payline) - 3 ->
   (PayTable.CalculatePaylineWin pt grid payline bet_amount == 0)%Q).
Proof.
  intros Hrow Hk.
  pose proof (CountConsecutiveSymbols_nil_lt _ Hk) as Hne.
  unfold PayTable.CalculatePaylineWin.
  destruct (PayTable.GetPaylineSymbols grid payline) as [|s0 rest] eqn:Hs; [congruence|].
  set (symbols := s0 :: rest) in *.
  set (k := PayTable.CountConsecutiveSymbols symbols) in *.
  assert (Hlt : (k <? 3) = false) by (apply Z.ltb_ge; lia).
  rewrite Hlt. unfold PayTable.GetPayout. rewrite Hrow.
  split; intros Hm.
  - assert (Hin : (0 <=? k - 3) && (k - 3 <? Z.of_nat (length row)) = true).
    { apply andb_true_iff. split; [apply Z.leb_le | apply Z.ltb_lt]; lia. }
    rewrite Hin. unfold vec_at.
    assert (Hneg : (k - 3 <? 0) = false) by (apply Z.ltb_ge; lia).
    now rewrite Hneg.
  - assert (Hout : (0 <=? k - 3) && (k - 3 <? Z.of_nat (length row)) = false).
    { apply andb_false_iff. right. apply Z.ltb_ge. lia. }
    rewrite Hout. apply Qmult_0_l.
Qed.

(** Five of a kind on a row of length 3 pays the last entry. *)
Lemma payline_pays_entry_or_nothing_witness :
  PayTable.CalculatePaylineWin row3_table five_of_a_kind payline5 1 = (5 * 1)%Q.
Proof.
  apply (proj1 (payline_pays_entry_or_nothing row3_table five_of_a_kind payline5 1
                  [1%Q; 2%Q; 5%Q] eq_refl ltac:(vm_compute; discriminate))).
  vm_compute. reflexivity.
Defined.

(** ** Free-spin mode *)

(** The [reserve] of [ReelSet::GenerateGrid] does not throw on a window that
    is not negative. *)
Lemma reserve_returns (rs : ReelSet) : 0 <= window_size_ rs -> reserve_throws rs = false.
Proof. intros Hw. unfold reserve_throws. apply Z.ltb_ge. nia. Qed.



(** ** Initial balance *)

(** X30.  On the random path ([std > 0]) the sampled balance is clamped into
    the interval [[min, max]]. *)
Lemma GenerateBalance_clamped d sample :
  (0 < bd_std d)%Q -> (bd_min d <= bd_max d)%Q ->
  (bd_min d <= GenerateBalance d sample <= bd_max d)%Q.
Proof.
  intros Hstd Hmm. unfold GenerateBalance.
  assert (E : fle (bd_std d) 0 = false) by (apply fle_false; exact Hstd).
  rewrite E. apply clamp_bounds, Hmm.
Qed.

(** A sample far above the upper bound is cut back to it. *)
Example GenerateBalance_spread :
  (bd_min spread <= GenerateBalance spread 20000 <= bd_max spread)%Q /\
  GenerateBalance spread 20000 = 10000%Q.
Proof.
  split; [|reflexivity].
  apply GenerateBalance_clamped; vm_compute; [reflexivity | discriminate].
Defined.

(** C7.  The claim: with [min <= max] every sampled balance lies in
    [[min, max]], also when [std <= 0].  The code departs from it: for
    [std <= 0] [GenerateBalance] returns the mean before reaching the clamp.
    With mean 50, std 0 and the bounds 100 and 10000 the construction of a
    player and each reset set the balance to 50. *)
Theorem mean_returned_unclamped (sample : Q) (seed : Rng) :
  (bd_min low_mean <= bd_max low_mean)%Q /\
  GenerateBalance low_mean sample = 50%Q /\
  (50 < bd_min low_mean)%Q /\
  BasePlayer.balance_ (BasePlayer.new (player_config low_mean) sample seed) = 50%Q /\
  BasePlayer.balance_
    (BasePlayer.Reset (BasePlayer.new (player_config low_mean) sample seed) sample) = 50%Q.
Proof.
  repeat split; try reflexivity; vm_compute; try reflexivity; discriminate.
Qed.

(** ** The v1 player *)

Lemma PrepareTerminationInput_length session_data :
  length (V1DataProcessor.PrepareTerminationInput session_data) = 8%nat.
Proof. reflexivity. Qed.

(** The decision of the v1 player is the same whatever termination model
    and anomaly model it holds. *)
Lemma MakeDecision_termination_models_unused b loaded betting dqn1 forest1 dqn2 forest2
    first amount machine session_data :
  fst (fst (V1Player.MakeDecision b
              (V1Player.mk (V1ModelLoader.mk loaded betting dqn1 forest1) first amount)
              machine session_data)) =
  fst (fst (V1Player.MakeDecision b
              (V1Player.mk (V1ModelLoader.mk loaded betting dqn2 forest2) first amount)
              machine session_data)).
Proof.
  unfold V1Player.MakeDecision, V1Player.DecideBetAmount, V1ModelLoader.PredictBetAmount.
  cbn [V1Player.is_first_bet_ V1Player.model_loader_ V1Player.first_bet_amount_
       V1ModelLoader.models_loaded_ V1ModelLoader.betting_model_].
  destruct first.
  - destruct (V1Player.DecideDelayTime _ _); reflexivity.
  - match goal with
    | |- context [if negb ?c then _ else _] => destruct (negb c)
    end.
    + destruct (BasePlayer.GetRandomBet b session_data) as [bet rng'].
      destruct (V1Player.DecideDelayTime _ _); reflexivity.
    + destruct (V1Player.DecideDelayTime _ _); reflexivity.
Qed.

(** The v1 player continues exactly when the bet it settled on is positive. *)
Lemma MakeDecision_continues_on_positive_bet b s machine session_data :
  pd_continue_playing (fst (fst (V1Player.MakeDecision b s machine session_data))) =
  flt 0 (pd_bet_amount (fst (fst (V1Player.MakeDecision b s machine session_data)))).
Proof.
  unfold V1Player.MakeDecision.
  destruct (V1Player.is_first_bet_ s).
  - destruct (V1Player.DecideDelayTime _ _); reflexivity.
  - destruct (V1Player.DecideBetAmount b s session_data) as [bet rng'].
    destruct (V1Player.DecideDelayTime _ _); reflexivity.
Qed.

(** C4.  The claim: on every decision after the first the v1 player stops
    when the termination predictor, applied to the 8-feature vector, crosses
    0.5 or the anomaly score overrides, so that some session state makes the
    decision a stop because of the predictor.  The code departs from it:
    [MakeDecision] never consults [ShouldTerminate].  In the state below,
    past the first bet, the predictor answers 1 > 0.5 and the anomaly model
    flags the state, [ShouldTerminate] holds, and the decision is to continue
    with the bet 1; whatever the two models are, the decision is the same. *)
Theorem v1_decision_bypasses_termination_predictor :
  V1Player.is_first_bet_ v1_state = false /\
  length (V1DataProcessor.PrepareTerminationInput v1_observation) = 8%nat /\
  V1Player.ShouldTerminate v1_state v1_observation = true /\
  pd_continue_playing (fst (fst (V1Player.MakeDecision v1_base v1_state "m1" v1_observation)))
    = true /\
  pd_bet_amount (fst (fst (V1Player.MakeDecision v1_base v1_state "m1" v1_observation)))
    = 1%Q /\
  (forall dqn forest,
     fst (fst (V1Player.MakeDecision v1_base
                 (V1Player.mk (V1ModelLoader.mk true (Some (constant_model [1%Q])) dqn forest)
                    false 1)
                 "m1" v1_observation)) =
     fst (fst (V1Player.MakeDecision v1_base v1_state "m1" v1_observation))).
Proof.
  split; [reflexivity|]. split; [reflexivity|].
  do 3 (split; [vm_compute; reflexivity|]).
  intros dqn forest. apply MakeDecision_termination_models_unused.
Qed.

(** ** The worker loop under shutdown *)

Lemma workers_set_pc_eq st w pc0 pc :
  ThreadPool.workers_ st !! w = Some pc0 ->
  ThreadPool.workers_ (ThreadPool.set_pc st w pc) !! w = Some pc.
Proof.
  intros H. unfold ThreadPool.set_pc. cbn [ThreadPool.workers_].
  apply list_lookup_insert_eq. eapply lookup_lt_Some, H.
Qed.

Lemma workers_set_pc_ne st w w' pc :
  w <> w' ->
  ThreadPool.workers_ (ThreadPool.set_pc st w' pc) !! w = ThreadPool.workers_ st !! w.
Proof.
  intros H. unfold ThreadPool.set_pc. cbn [ThreadPool.workers_].
  apply list_lookup_insert_ne. congruence.
Qed.

Lemma tasks_run_by_snoc w st' st w' task :
  ThreadPool.executed st' = ThreadPool.executed st ++ [(w', task)] ->
  tasks_run_by w st' = (tasks_run_by w st + (if Nat.eqb w' w then 1 else 0))%nat.
Proof.
  intros H. unfold tasks_run_by. rewrite H, List.filter_app, length_app.
  cbn [List.filter fst]. destruct (Nat.eqb w' w); reflexivity.
Qed.

(** Once the flag is set, a step of any worker keeps it set and does not
    raise, for any worker [w], the number of tasks [w] has run plus the
    number it can still start. *)
Lemma worker_step_bounded st st' w w' :
  ThreadPool.shutdown_ st = true ->
  ThreadPool.worker_step st w' = Some st' ->
  ThreadPool.shutdown_ st' = true /\
  (tasks_run_by w st' + tasks_ahead (ThreadPool.workers_ st' !! w)
   <= tasks_run_by w st + tasks_ahead (ThreadPool.workers_ st !! w))%nat.
Proof.
  intros Hsd Hstep. unfold ThreadPool.worker_step in Hstep.
  destruct (ThreadPool.workers_ st !! w') as [pc|] eqn:Hpc; [|discriminate].
  destruct (decide (w = w')) as [->|Hne].
  - rewrite Hpc.
    destruct pc as [| |attempts| |task|]; try discriminate.
    + rewrite Hsd in Hstep. injection Hstep as <-.
      split; [exact Hsd|]. erewrite workers_set_pc_eq by exact Hpc.
      unfold tasks_run_by. cbn. lia.
    + destruct (ThreadPool.PopBack _) as [[task q]|]; injection Hstep as <-;
        (split; [exact Hsd|]).
      * erewrite workers_set_pc_eq by exact Hpc. unfold tasks_run_by. cbn. lia.
      * erewrite workers_set_pc_eq by exact Hpc. unfold tasks_run_by. cbn. lia.
    + destruct (attempts <? _).
      * destruct (ThreadPool.PopFront _) as [[task q]|]; injection Hstep as <-;
          (split; [exact Hsd|]).
        -- erewrite workers_set_pc_eq by exact Hpc. unfold tasks_run_by. cbn. lia.
        -- erewrite workers_set_pc_eq by exact Hpc. unfold tasks_run_by. cbn. lia.
      * injection Hstep as <-. split; [exact Hsd|].
        erewrite workers_set_pc_eq by exact Hpc. unfold tasks_run_by. cbn. lia.
    + injection Hstep as <-. split; [exact Hsd|].
      erewrite workers_set_pc_eq by exact Hpc. unfold tasks_run_by. cbn. lia.
    + injection Hstep as <-. split; [exact Hsd|].
      erewrite tasks_run_by_snoc by reflexivity. rewrite Nat.eqb_refl.
      cbn [ThreadPool.workers_].
      rewrite list_lookup_insert_eq by (eapply lookup_lt_Some, Hpc).
      cbn. lia.
  - assert (Hneb : Nat.eqb w' w = false) by (apply Nat.eqb_neq; congruence).
    destruct pc as [| |attempts| |task|]; try discriminate.
    + rewrite Hsd in Hstep. injection Hstep as <-.
      split; [exact Hsd|]. rewrite workers_set_pc_ne by exact Hne.
      unfold tasks_run_by. cbn. lia.
    + destruct (ThreadPool.PopBack _) as [[task q]|]; injection Hstep as <-;
        (split; [exact Hsd|]); rewrite workers_set_pc_ne by exact Hne;
        unfold tasks_run_by; cbn; lia.
    + destruct (attempts <? _).
      * destruct (ThreadPool.PopFront _) as [[task q]|]; injection Hstep as <-;
          (split; [exact Hsd|]); rewrite workers_set_pc_ne by exact Hne;
          unfold tasks_run_by; cbn; lia.
      * injection Hstep as <-. split; [exact Hsd|].
        rewrite workers_set_pc_ne by exact Hne. unfold tasks_run_by. cbn. lia.
    + injection Hstep as <-. split; [exact Hsd|].
      rewrite workers_set_pc_ne by exact Hne. unfold tasks_run_by. cbn. lia.
    + injection Hstep as <-. split; [exact Hsd|].
      erewrite tasks_run_by_snoc by reflexivity. rewrite Hneb.
      cbn [ThreadPool.workers_].
      rewrite list_lookup_insert_ne by congruence. lia.
Qed.

(** A task that throws leaves the state a task that returns leaves, but for
    the counter. *)
Lemma worker_fail_as_step st st' w :
  ThreadPool.worker_fail st w = Some st' ->
  exists st'',
    ThreadPool.worker_step st w = Some st'' /\
    ThreadPool.shutdown_ st' = ThreadPool.shutdown_ st'' /\
    ThreadPool.queues_ st' = ThreadPool.queues_ st'' /\
    ThreadPool.workers_ st' = ThreadPool.workers_ st'' /\
    ThreadPool.executed st' = ThreadPool.executed st'' /\
    ThreadPool.total_tasks_ st'' = ThreadPool.total_tasks_ st' + 1.
Proof.
  unfold ThreadPool.worker_fail, ThreadPool.worker_step.
  destruct (ThreadPool.workers_ st !! w) as [[| | | |task|]|]; try discriminate.
  intros H. injection H as <-. eexists. split; [reflexivity|]. cbn. repeat split.
Qed.

Lemma step_bounded st st' w e :
  ThreadPool.shutdown_ st = true ->
  ThreadPool.step st e = Some st' ->
  ThreadPool.shutdown_ st' = true /\
  (tasks_run_by w st' + tasks_ahead (ThreadPool.workers_ st' !! w)
   <= tasks_run_by w st + tasks_ahead (ThreadPool.workers_ st !! w))%nat.
Proof.
  intros Hsd Hstep. destruct e as [w'|tasks| |w']; cbn [ThreadPool.step] in Hstep.
  - eapply worker_step_bounded; eassumption.
  - unfold ThreadPool.SubmitBatch in Hstep. rewrite Hsd in Hstep.
    injection Hstep as <-. split; [exact Hsd | lia].
  - unfold ThreadPool.Shutdown in Hstep. rewrite Hsd in Hstep.
    injection Hstep as <-. split; [exact Hsd | lia].
  - apply worker_fail_as_step in Hstep.
    destruct Hstep as (st2 & Hstep & Hsh & _ & Hws & Hex & _).
    unfold tasks_run_by. rewrite Hsh, Hws, Hex.
    exact (worker_step_bounded st st2 w w' Hsd Hstep).
Qed.

Lemma run_bounded events : forall st st' w,
  ThreadPool.shutdown_ st = true ->
  ThreadPool.run st events = Some st' ->
  ThreadPool.shutdown_ st' = true /\
  (tasks_run_by w st' + tasks_ahead (ThreadPool.workers_ st' !! w)
   <= tasks_run_by w st + tasks_ahead (ThreadPool.workers_ st !! w))%nat.
Proof.
  induction events as [|e rest IH]; intros st st' w Hsd Hrun; cbn [ThreadPool.run] in Hrun.
  - injection Hrun as <-. split; [exact Hsd | lia].
  - destruct (ThreadPool.step st e) as [st1|] eqn:Hstep; [|discriminate].
    destruct (step_bounded st st1 w e Hsd Hstep) as [Hsd1 Hle1].
    destruct (IH st1 st' w Hsd1 Hrun) as [Hsd' Hle']. split; [exact Hsd' | lia].
Qed.

(** C9, as stated, fails: with two workers, four tasks submitted and the
    shutdown requested before worker 0 has looked at its deque, worker 0
    leaves its loop while the tasks 0 and 2 are pending in its deque, and no
    task has been run. *)
Lemma worker_exits_with_pending_tasks :
  ~ drains_before_exit 2 /\
  exists st,
    ThreadPool.run (ThreadPool.new 2) early_shutdown = Some st /\
    ThreadPool.shutdown_ st = true /\
    ThreadPool.workers_ st !! 0%nat = Some ThreadPool.Exited /\
    ThreadPool.queue_of st 0 = [0%nat; 2%nat] /\
    ThreadPool.executed st = [].
Proof.
  split.
  - intros H.
    specialize (H early_shutdown
                  (ThreadPool.mkState true [[0%nat; 2%nat]; [1%nat; 3%nat]]
                     [ThreadPool.Exited; ThreadPool.AtCheck] 0 [])
                  0%nat eq_refl eq_refl).
    discriminate H.
  - eexists. split; [reflexivity|]. repeat split; reflexivity.
Qed.

(** C9, amended.  Once the shutdown flag is set, a worker leaves its loop at
    its next test of the flag, whatever its deque holds: the step changes no
    deque and runs no task, and the worker takes no step afterwards.  Over
    every schedule that follows, the flag stays set and each worker runs at
    most the one task of the pass through the loop body it is in; the tasks
    left in the deques are not drained. *)
Theorem shutdown_stops_workers_without_draining (st : ThreadPool.State) (w : nat) :
  ThreadPool.shutdown_ st = true ->
  (ThreadPool.workers_ st !! w = Some ThreadPool.AtCheck ->
   exists st',
     ThreadPool.worker_step st w = Some st' /\
     ThreadPool.workers_ st' !! w = Some ThreadPool.Exited /\
     ThreadPool.queues_ st' = ThreadPool.queues_ st /\
     ThreadPool.executed st' = ThreadPool.executed st /\
     ThreadPool.worker_step st' w = None) /\
  (forall events st',
     ThreadPool.run st events = Some st' ->
     ThreadPool.shutdown_ st' = true /\
     (tasks_run_by w st' <= tasks_run_by w st + 1)%nat /\
     (tasks_run_by w st' + tasks_ahead (ThreadPool.workers_ st' !! w)
      <= tasks_run_by w st + tasks_ahead (ThreadPool.workers_ st !! w))%nat).
Proof.
  intros Hsd. split.
  - intros Hpc. exists (ThreadPool.set_pc st w ThreadPool.Exited).
    assert (Hex : ThreadPool.workers_ (ThreadPool.set_pc st w ThreadPool.Exited) !! w
                  = Some ThreadPool.Exited) by (eapply workers_set_pc_eq, Hpc).
    split; [unfold ThreadPool.worker_step; now rewrite Hpc, Hsd|].
    split; [exact Hex|]. split; [reflexivity|]. split; [reflexivity|].
    unfold ThreadPool.worker_step. now rewrite Hex.
  - intros events st' Hrun.
    destruct (run_bounded events st st' w Hsd Hrun) as [Hsd' Hle].
    split; [exact Hsd'|]. split; [|exact Hle].
    assert (tasks_ahead (ThreadPool.workers_ st !! w) <= 1)%nat.
    { unfold tasks_ahead. destruct (ThreadPool.workers_ st !! w) as [[]|]; lia. }
    lia.
Qed.

Lemma shutdown_stops_workers_without_draining_witness :
  exists st',
    ThreadPool.worker_step
      (ThreadPool.mkState true [[0%nat; 2%nat]; [1%nat; 3%nat]]
         [ThreadPool.AtCheck; ThreadPool.AtCheck] 0 []) 0 = Some st' /\
    ThreadPool.workers_ st' !! 0%nat = Some ThreadPool.Exited /\
    ThreadPool.queues_ st' = [[0%nat; 2%nat]; [1%nat; 3%nat]] /\
    ThreadPool.executed st' = [] /\
    ThreadPool.worker_step st' 0 = None.
Proof.
  exact (proj1 (shutdown_stops_workers_without_draining
                  (ThreadPool.mkState true [[0%nat; 2%nat]; [1%nat; 3%nat]]
                     [ThreadPool.AtCheck; ThreadPool.AtCheck] 0 []) 0 eq_refl) eq_refl).
Defined.

(** ** The session loop *)

(** [Spin] raises only when there is no [normal] reel set or when the
    [reserve] of a reel set's [GenerateGrid] throws. *)
Lemma Spin_raises m now bet_amount in_free r :
  SlotMachine.Spin m now bet_amount in_free r = None ->
  SlotMachine.reel_sets_ m !! "normal"%string = None \/
  exists name rs,
    SlotMachine.reel_sets_ m !! name = Some rs /\ reserve_throws rs = true.
Proof.
  unfold SlotMachine.Spin, SlotMachine.GenerateSpinGrid. intros H.
  destruct (SlotMachine.reel_sets_ m !! "normal"%string) as [rs|] eqn:Hn; [|now left].
  right. destruct in_free.
  - destruct (SlotMachine.reel_sets_ m !! "bonus"%string) as [rb|] eqn:Hb.
    + rewrite Hb in H. destruct (reserve_throws rb) eqn:Hr; [eauto|].
      destruct (GenerateGrid rb _). discriminate H.
    + rewrite Hn in H. destruct (reserve_throws rs) eqn:Hr; [eauto|].
      destruct (GenerateGrid rs _). discriminate H.
  - rewrite Hn in H. rewrite Hn in H. destruct (reserve_throws rs) eqn:Hr; [eauto|].
    destruct (GenerateGrid rs _). discriminate H.
Qed.

Lemma Spin_keeps_reel_sets m now bet_amount in_free r res m' :
  SlotMachine.Spin m now bet_amount in_free r = Some (res, m') ->
  SlotMachine.reel_sets_ m' = SlotMachine.reel_sets_ m.
Proof.
  unfold SlotMachine.Spin. intros H.
  destruct (SlotMachine.GenerateSpinGrid _ _) as [[grid rng']|]; [|discriminate].
  destruct (negb in_free); injection H as _ <-; reflexivity.
Qed.

(** With a [normal] reel set and no negative window, [Spin] does not
    raise. *)
Lemma Spin_returns m now bet_amount in_free r :
  is_Some (SlotMachine.reel_sets_ m !! "normal"%string) ->
  (forall name rs, SlotMachine.reel_sets_ m !! name = Some rs -> 0 <= window_size_ rs) ->
  exists res m', SlotMachine.Spin m now bet_amount in_free r = Some (res, m').
Proof.
  intros [rs Hn] Hw.
  destruct (SlotMachine.Spin m now bet_amount in_free r) as [[res m']|] eqn:E.
  - eauto.
  - apply Spin_raises in E. destruct E as [E|(name & rs' & Hrs & Ht)]; [congruence|].
    rewrite (reserve_returns rs' (Hw name rs' Hrs)) in Ht. discriminate Ht.
Qed.


Section SessionLoop.

Context {M : Type}.
Variable MakeDecision : BasePlayer.t -> M -> string -> SessionData -> PlayerDecision * Rng * M.
Variables (max_spins : Z) (max_duration : Q) (clock : Clock).

Local Abbreviation iteration :=
  (SessionController.iteration MakeDecision max_spins max_duration clock).
Local Abbreviation session_loop fuel :=
  (SessionController.session_loop MakeDecision fuel max_spins max_duration clock).
Local Abbreviation head_state :=
  (SessionController.head_state MakeDecision max_spins max_duration clock).
Local Abbreviation stop_condition :=
  (SessionController.stop_condition MakeDecision max_spins max_duration clock).
Local Abbreviation player_ := SessionController.player_.
Local Abbreviation spin_history_ := SessionController.spin_history_.

Lemma ExecuteSpin_returns bet_amount stats (c : SessionController.t M) now stats' c2 :
  SessionController.ExecuteSpin bet_amount stats c now = inr (stats', c2) ->
  exists spin,
    spin_history_ c2 = spin_history_ c ++ [spin] /\
    stats' = SessionController.UpdateSessionStats stats spin /\
    BasePlayer.active_ (player_ c2) = BasePlayer.active_ (player_ c) /\
    SlotMachine.reel_sets_ (SessionController.machine_ c2)
      = SlotMachine.reel_sets_ (SessionController.machine_ c).
Proof.
  unfold SessionController.ExecuteSpin. intros H.
  destruct (SlotMachine.Spin _ _ _ _ _) as [[spin_result machine']|] eqn:Hspin;
    [|discriminate].
  apply Spin_keeps_reel_sets in Hspin.
  match type of H with
  | (let '(_, _) := ?p in _) = _ => destruct p as [in_free remaining]
  end.
  injection H as <- <-. eexists. split; [reflexivity|]. split; [reflexivity|].
  split; [reflexivity | exact Hspin].
Qed.

Lemma ExecuteSpin_raises bet_amount stats (c : SessionController.t M) now c2 :
  SessionController.ExecuteSpin bet_amount stats c now = inl c2 ->
  (SlotMachine.reel_sets_ (SessionController.machine_ c) !! "normal"%string = None \/
   exists name rs,
     SlotMachine.reel_sets_ (SessionController.machine_ c) !! name = Some rs /\
     reserve_throws rs = true) /\
  spin_history_ c2 = spin_history_ c /\
  BasePlayer.active_ (player_ c2) = BasePlayer.active_ (player_ c) /\
  BasePlayer.balance_ (player_ c2) = (BasePlayer.balance_ (player_ c) + - bet_amount)%Q.
Proof.
  unfold SessionController.ExecuteSpin. intros H.
  destruct (SlotMachine.Spin _ _ _ _ _) as [[spin_result machine']|] eqn:E.
  - match type of H with
    | (let '(_, _) := ?p in _) = _ => destruct p as [in_free remaining]
    end.
    discriminate H.
  - injection H as <-. split; [eapply Spin_raises, E|]. repeat split; reflexivity.
Qed.



(** A pass continues only below the spin cap, and counts one spin. *)
Lemma iteration_again_spins k stats (c : SessionController.t M) stats' c' :
  iteration k stats c = SessionController.Again stats' c' ->
  ss_total_spins stats < max_spins /\ ss_total_spins stats' = ss_total_spins stats + 1.
Proof.
  unfold SessionController.iteration. intros H.
  destruct (negb (BasePlayer.IsActive (player_ c))); [discriminate|].
  destruct (SessionController.CheckSessionLimits _ _ _ _) eqn:Hlim; [discriminate|].
  destruct (MakeDecision _ _ _ _) as [[decision rng'] model'].
  destruct (negb (pd_continue_playing decision) || _); [discriminate|].
  destruct (negb (SlotMachine.IsValidBet _ _ _)); [discriminate|].
  destruct (flt _ _); [discriminate|].
  destruct (SessionController.ExecuteSpin _ _ _ _) as [c2|[stats2 c2]] eqn:Hex;
    [discriminate|].
  injection H as <- <-.
  apply ExecuteSpin_returns in Hex. destruct Hex as (spin & _ & -> & _ & _).
  split; [|reflexivity].
  unfold SessionController.CheckSessionLimits in Hlim.
  destruct (max_spins <=? ss_total_spins stats) eqn:E; [discriminate|].
  apply Z.leb_gt in E. exact E.
Qed.

(** The loop terminates: it is left within [max_spins - total_spins + 1]
    passes. *)
Lemma session_loop_total fuel : forall k stats (c : SessionController.t M),
  (Z.to_nat (max_spins - ss_total_spins stats) < fuel)%nat ->
  exists why stats' c', session_loop fuel k stats c = Some (why, stats', c').
Proof.
  induction fuel as [|fuel IH]; intros k stats c Hfuel; [lia|].
  cbn [SessionController.session_loop].
  destruct (iteration k stats c) as [why stats' c'|stats' c'] eqn:Hit.
  - eauto.
  - apply iteration_again_spins in Hit. destruct Hit as [Hlt Hinc].
    apply IH. rewrite Hinc. lia.
Qed.



End SessionLoop.

(** The loop of [RunSession] always returns within the passes it is given:
    the fall-back branch of the embedding is never taken. *)
Lemma RunSession_loop_returns {M : Type}
    (MakeDecision : BasePlayer.t -> M -> string -> SessionData -> PlayerDecision * Rng * M)
    (c : SessionController.t M) (session_id : string) (max_spins : Z) (max_duration : Q)
    (clock : Clock) :
  exists why stats' c',
    SessionController.session_loop MakeDecision (S (Z.to_nat max_spins)) max_spins
      max_duration clock 0 (SessionController.initial_stats session_id c)
      (SessionController.clear_history c)
    = Some (why, stats', c').
Proof.
  apply session_loop_total. cbn [SessionController.initial_stats ss_total_spins]. lia.
Qed.

(** [CheckSessionLimits] answers [true] exactly when a cap is reached. *)
Lemma CheckSessionLimits_spec stats max_spins max_duration elapsed :
  SessionController.CheckSessionLimits stats max_spins max_duration elapsed = true <->
  max_spins <= ss_total_spins stats \/ (max_duration <= inject_Z elapsed)%Q.
Proof.
  unfold SessionController.CheckSessionLimits.
  destruct (max_spins <=? ss_total_spins stats) eqn:E.
  - apply Z.leb_le in E. tauto.
  - apply Z.leb_gt in E. destruct (fle max_duration (inject_Z elapsed)) eqn:F.
    + apply fle_spec in F. tauto.
    + apply fle_false in F. split; [discriminate|].
      intros [H|H]; [lia|]. exfalso. exact (Qlt_not_le _ _ F H).
Qed.

(** [IsValidBet] answers [true] exactly when the bet is one of the bets the
    configuration lists for the currency. *)
Lemma IsValidBet_spec m bet_amount currency :
  SlotMachine.IsValidBet m bet_amount currency = true <->
  exists option,
    In option (default [] (bet_table (SlotMachine.config_ m) !! currency)) /\
    (option == bet_amount)%Q.
Proof.
  unfold SlotMachine.IsValidBet, SlotMachine.GetBetOptions.
  replace (match bet_table (SlotMachine.config_ m) !! currency with
           | Some options => options
           | None => []
           end)
    with (default [] (bet_table (SlotMachine.config_ m) !! currency))
    by (destruct (bet_table (SlotMachine.config_ m) !! currency); reflexivity).
  rewrite existsb_exists.
  split; intros (option & Hin & H); exists option; (split; [exact Hin|]);
    apply feq_spec; exact H.
Qed.

(** The tests of a pass that come before the spin succeed together exactly
    when a condition of the protocol holds. *)
Lemma stop_condition_stops_at {M : Type}
    (MakeDecision : BasePlayer.t -> M -> string -> SessionData -> PlayerDecision * Rng * M)
    (max_spins : Z) (max_duration : Q) (clock : Clock) (k : nat) (stats : SessionStats)
    (c : SessionController.t M) :
  SessionController.stop_condition MakeDecision max_spins max_duration clock k stats c = true
  <-> stops_at MakeDecision max_spins max_duration clock k stats c.
Proof.
  unfold SessionController.stop_condition, stops_at, protocol_stop,
    SessionController.GetMachineId, BasePlayer.GetBalance, BasePlayer.GetCurrency.
  rewrite !orb_true_iff, !negb_true_iff, flt_spec, fle_spec, CheckSessionLimits_spec,
    <- (not_true_iff_false (SlotMachine.IsValidBet _ _ _)), IsValidBet_spec.
  tauto.
Qed.

Lemma stop_condition_not_stops_at {M : Type}
    (MakeDecision : BasePlayer.t -> M -> string -> SessionData -> PlayerDecision * Rng * M)
    (max_spins : Z) (max_duration : Q) (clock : Clock) (k : nat) (stats : SessionStats)
    (c : SessionController.t M) :
  SessionController.stop_condition MakeDecision max_spins max_duration clock k stats c = false
  <-> ~ stops_at MakeDecision max_spins max_duration clock k stats c.
Proof. rewrite <- stop_condition_stops_at. symmetry. apply not_true_iff_false. Qed.


(** Outside the data model, where a machine carries at least a [normal]
    reel set: on a machine configured without reel sets a player holding 10
    units decides to continue with the admissible bet 1 under caps that are
    not reached, the spin raises, the exception is caught and the loop is
    left with the bet debited and no spin recorded, although no condition of
    the protocol held. *)
Lemma spin_exception_ends_session :
  ~ exits_on_protocol_condition RandomPlayer.MakeDecision
      (controller_on no_reels_machine) "s" 5 300 still_clock /\
  ~ stops_at RandomPlayer.MakeDecision 5 300 still_clock 0
      (SessionController.initial_stats "s" (controller_on no_reels_machine))
      (SessionController.clear_history (controller_on no_reels_machine)) /\
  exists stats c',
    SessionController.RunSession RandomPlayer.MakeDecision
      (controller_on no_reels_machine) "s" 5 300 still_clock
    = (SessionController.ExceptionCaught, stats, c') /\
    ss_total_spins stats = 0 /\
    SessionController.spin_history_ c' = [] /\
    BasePlayer.balance_ (SessionController.player_ c') = (10 + - 1)%Q.
Proof.
  assert (Hstop :
    ~ stops_at RandomPlayer.MakeDecision 5 300 still_clock 0
        (SessionController.initial_stats "s" (controller_on no_reels_machine))
        (SessionController.clear_history (controller_on no_reels_machine)))
    by (apply stop_condition_not_stops_at; vm_compute; reflexivity).
  split; [|split; [exact Hstop|]].
  - intros (n & sn & cn & Hhead & _ & Hcond & _).
    destruct n as [|n].
    + injection Hhead as <- <-. exact (Hstop Hcond).
    + cbn [SessionController.head_state] in Hhead.
      assert (Hit : exists c2,
        SessionController.iteration RandomPlayer.MakeDecision 5 300 still_clock 0
          (SessionController.initial_stats "s" (controller_on no_reels_machine))
          (SessionController.clear_history (controller_on no_reels_machine))
        = SessionController.Break SessionController.ExceptionCaught
            (SessionController.initial_stats "s" (controller_on no_reels_machine)) c2)
        by (eexists; vm_compute; reflexivity).
      destruct Hit as [c2 Hit]. rewrite Hit in Hhead. discriminate Hhead.
  - eexists. eexists. split; [vm_compute; reflexivity|].
    repeat split; reflexivity.
Qed.



(** ** Session statistics *)

Lemma fold_fmin_spec (profits : list Q) : forall a : Q,
  (fold_left fmin profits a <= a)%Q /\
  (forall p, In p profits -> (fold_left fmin profits a <= p)%Q) /\
  (fold_left fmin profits a = a \/
   exists p, In p profits /\ fold_left fmin profits a = p /\ (p < a)%Q).
Proof.
  induction profits as [|x rest IH]; intros a; cbn [fold_left].
  - split; [apply Qle_refl|]. split; [intros p []|]. now left.
  - destruct (IH (fmin a x)) as (Hle & Hall & Hatt). split; [|split].
    + eapply Qle_trans; [exact Hle | apply fmin_le_l].
    + intros p [<-|Hp].
      * eapply Qle_trans; [exact Hle | apply fmin_le_r].
      * apply Hall, Hp.
    + destruct Hatt as [Heq|(p & Hp & Heq & Hlt)].
      * destruct (fmin_cases a x) as [Ha|[Hx Hlt]].
        -- left. congruence.
        -- right. exists x. split; [now left|]. split; [congruence | exact Hlt].
      * right. exists p. split; [now right|]. split; [exact Heq|].
        eapply Qlt_le_trans; [exact Hlt | apply fmin_le_l].
Qed.

Lemma min_with_zero_snoc profits p :
  min_with_zero (profits ++ [p]) = fmin (min_with_zero profits) p.
Proof. unfold min_with_zero. now rewrite fold_left_app. Qed.

(** The update of [max_loss_streak], guarded by [profit < 0], is the minimum
    with the profit as long as the field is not positive. *)
Lemma guarded_min (streak p : Q) :
  (streak <= 0)%Q -> (if flt p 0 then fmin streak p else streak) = fmin streak p.
Proof.
  intros Hs. destruct (flt p 0) eqn:E; [reflexivity|].
  apply flt_false in E. unfold fmin.
  assert (Hf : flt p streak = false).
  { apply flt_false. eapply Qle_trans; eassumption. }
  now rewrite Hf.
Qed.

Section SessionStatistics.

Context {M : Type}.
Variable MakeDecision : BasePlayer.t -> M -> string -> SessionData -> PlayerDecision * Rng * M.
Variables (max_spins : Z) (max_duration : Q) (clock : Clock).

(** A pass either leaves statistics and history as they are, or records one
    spin in both. *)
Lemma iteration_effect k stats (c : SessionController.t M) :
  match SessionController.iteration MakeDecision max_spins max_duration clock k stats c with
  | SessionController.Break _ stats' c' =>
      stats' = stats /\
      SessionController.spin_history_ c' = SessionController.spin_history_ c
  | SessionController.Again stats' c' =>
      exists spin,
        SessionController.spin_history_ c' = SessionController.spin_history_ c ++ [spin] /\
        stats' = SessionController.UpdateSessionStats stats spin
  end.
Proof.
  unfold SessionController.iteration.
  destruct (negb (BasePlayer.IsActive _)); [split; reflexivity|].
  destruct (SessionController.CheckSessionLimits _ _ _ _); [split; reflexivity|].
  destruct (MakeDecision _ _ _ _) as [[decision rng'] model'].
  destruct (negb (pd_continue_playing decision) || _); [split; reflexivity|].
  destruct (negb (SlotMachine.IsValidBet _ _ _)); [split; reflexivity|].
  destruct (flt _ _); [split; reflexivity|].
  destruct (SessionController.ExecuteSpin _ _ _ _) as [c2|[stats2 c2]] eqn:Hex.
  - apply ExecuteSpin_raises in Hex. destruct Hex as (_ & Hh & _). split; [reflexivity|].
    exact Hh.
  - apply ExecuteSpin_returns in Hex. destruct Hex as (spin & Hh & Hs & _ & _).
    exists spin. split; assumption.
Qed.

Lemma stats_invariant_update stats (c c' : SessionController.t M) spin :
  stats_invariant stats c ->
  SessionController.spin_history_ c' = SessionController.spin_history_ c ++ [spin] ->
  stats_invariant (SessionController.UpdateSessionStats stats spin) c'.
Proof.
  intros (Hrtp & Hmls & Hspins & Hbet) Hh. unfold stats_invariant.
  cbn [SessionController.UpdateSessionStats ss_rtp ss_max_loss_streak ss_total_spins
       ss_total_bet].
  rewrite Hh. split; [exact Hrtp|]. split; [|split].
  - rewrite map_app. cbn [map]. rewrite min_with_zero_snoc, <- Hmls.
    apply guarded_min. rewrite Hmls. exact (proj1 (fold_fmin_spec _ 0%Q)).
  - rewrite length_app. cbn [length]. lia.
  - intros Hnil. destruct (SessionController.spin_history_ c); discriminate Hnil.
Qed.

Lemma session_loop_invariant fuel : forall k stats (c : SessionController.t M) why stats' c',
  stats_invariant stats c ->
  SessionController.session_loop MakeDecision fuel max_spins max_duration clock k stats c
    = Some (why, stats', c') ->
  stats_invariant stats' c'.
Proof.
  induction fuel as [|fuel IH]; intros k stats c why stats' c' Hinv H; [discriminate|].
  cbn [SessionController.session_loop] in H.
  pose proof (iteration_effect k stats c) as Heff.
  destruct (SessionController.iteration _ _ _ _ _ _ _) as [why1 stats1 c1|stats1 c1].
  - injection H as <- <- <-. destruct Heff as [-> Hh].
    unfold stats_invariant in *. rewrite Hh. exact Hinv.
  - destruct Heff as (spin & Hh & ->).
    eapply IH; [|exact H]. eapply stats_invariant_update; eassumption.
Qed.

(** The record returned by [RunSession] is the record of the last loop
    state, completed by [finish], and that state meets the invariant. *)
Lemma RunSession_finish (c : SessionController.t M) session_id why stats c' :
  SessionController.RunSession MakeDecision c session_id max_spins max_duration clock
    = (why, stats, c') ->
  exists stats0,
    stats = SessionController.finish clock stats0 c' /\ stats_invariant stats0 c'.
Proof.
  unfold SessionController.RunSession. intros H.
  assert (Hinit : stats_invariant (SessionController.initial_stats session_id c)
                    (SessionController.clear_history c)).
  { unfold stats_invariant. cbn. repeat split; reflexivity. }
  destruct (SessionController.session_loop _ _ _ _ _ _ _ _) as [[[why1 stats1] c1]|] eqn:Hloop.
  - injection H as <- <- <-. exists stats1. split; [reflexivity|].
    eapply session_loop_invariant; eassumption.
  - injection H as <- <- <-. eexists. split; [reflexivity | exact Hinit].
Qed.

End SessionStatistics.

(** C8.  For every session record returned by [RunSession], [rtp] equals
    [total_win / total_bet] when [total_bet > 0] and equals 0 when
    [total_bet = 0]; a session without spins has bet nothing and has
    [rtp = 0]. *)
Theorem rtp_is_win_over_bet {M : Type}
    (MakeDecision : BasePlayer.t -> M -> string -> SessionData -> PlayerDecision * Rng * M)
    (c : SessionController.t M) (session_id : string) (max_spins : Z) (max_duration : Q)
    (clock : Clock) (why : SessionController.Exit) (stats : SessionStats)
    (c' : SessionController.t M) :
  SessionController.RunSession MakeDecision c session_id max_spins max_duration clock
    = (why, stats, c') ->
  ((0 < ss_total_bet stats)%Q ->
   ss_rtp stats = (ss_total_win stats / ss_total_bet stats)%Q) /\
  ((ss_total_bet stats == 0)%Q -> ss_rtp stats = 0%Q) /\
  (ss_total_spins stats = 0 -> ss_total_bet stats = 0%Q /\ ss_rtp stats = 0%Q).
Proof.
  intros Hrun.
  destruct (RunSession_finish _ _ _ _ _ _ _ _ _ Hrun) as (stats0 & -> & Hrtp & _ & Hspins & Hbet).
  cbn [SessionController.finish ss_rtp ss_total_bet ss_total_win ss_total_spins].
  split; [|split].
  - intros Hpos. apply flt_spec in Hpos. now rewrite Hpos.
  - intros Hzero.
    assert (E : flt 0 (ss_total_bet stats0) = false).
    { apply flt_false. rewrite Hzero. apply Qle_refl. }
    now rewrite E.
  - intros Hnone.
    assert (Hnil : SessionController.spin_history_ c' = []).
    { destruct (SessionController.spin_history_ c'); [reflexivity|].
      rewrite Hspins in Hnone. cbn [length] in Hnone. lia. }
    rewrite (Hbet Hnil). split; [reflexivity|]. exact Hrtp.
Qed.

(** Three winning spins: 15 won on 3 bet. *)
Lemma rtp_is_win_over_bet_witness :
  ss_rtp (snd (fst (SessionController.RunSession RandomPlayer.MakeDecision
                      (controller_on plain_machine) "s" 3 300 still_clock)))
  = (15 / 3)%Q.
Proof.
  refine (eq_trans
    (proj1 (rtp_is_win_over_bet RandomPlayer.MakeDecision (controller_on plain_machine)
              "s" 3 300 still_clock
              SessionController.LimitReached
              (snd (fst (SessionController.RunSession RandomPlayer.MakeDecision
                           (controller_on plain_machine) "s" 3 300 still_clock)))
              (snd (SessionController.RunSession RandomPlayer.MakeDecision
                      (controller_on plain_machine) "s" 3 300 still_clock))
              _) _) _).
  - vm_compute. reflexivity.
  - vm_compute. reflexivity.
  - vm_compute. reflexivity.
Defined.

(** C10.  For every session record returned by [RunSession],
    [max_loss_streak] is the minimum of 0 and the profits of the spins of the
    session, one entry per counted spin: it is not positive, it is below or
    equal to every single-spin profit, and it is either 0 or the negative
    profit of one recorded spin, never a sum over several spins. *)
Theorem max_loss_streak_is_worst_spin {M : Type}
    (MakeDecision : BasePlayer.t -> M -> string -> SessionData -> PlayerDecision * Rng * M)
    (c : SessionController.t M) (session_id : string) (max_spins : Z) (max_duration : Q)
    (clock : Clock) (why : SessionController.Exit) (stats : SessionStats)
    (c' : SessionController.t M) :
  SessionController.RunSession MakeDecision c session_id max_spins max_duration clock
    = (why, stats, c') ->
  ss_max_loss_streak stats
    = min_with_zero (map sr_profit (SessionController.spin_history_ c')) /\
  ss_total_spins stats = Z.of_nat (length (SessionController.spin_history_ c')) /\
  (ss_max_loss_streak stats <= 0)%Q /\
  (forall spin, In spin (SessionController.spin_history_ c') ->
                (ss_max_loss_streak stats <= sr_profit spin)%Q) /\
  (ss_max_loss_streak stats = 0%Q \/
   exists spin, In spin (SessionController.spin_history_ c') /\
                ss_max_loss_streak stats = sr_profit spin /\ (sr_profit spin < 0)%Q).
Proof.
  intros Hrun.
  destruct (RunSession_finish _ _ _ _ _ _ _ _ _ Hrun) as (stats0 & -> & _ & Hmls & Hspins & _).
  cbn [SessionController.finish ss_max_loss_streak ss_total_spins].
  destruct (fold_fmin_spec (map sr_profit (SessionController.spin_history_ c')) 0%Q)
    as (Hle & Hall & Hatt).
  fold (min_with_zero (map sr_profit (SessionController.spin_history_ c'))) in Hle, Hall, Hatt.
  rewrite <- Hmls in Hle, Hall, Hatt.
  split; [exact Hmls|]. split; [exact Hspins|]. split; [exact Hle|]. split.
  - intros spin Hin. apply Hall. apply in_map, Hin.
  - destruct Hatt as [Hz|(p & Hp & Heq & Hlt)]; [now left | right].
    apply in_map_iff in Hp. destruct Hp as (spin & <- & Hin).
    exists spin. split; [exact Hin|]. split; assumption.
Qed.

(** Three losing spins of 1 each: the field is -1, not -3. *)
Lemma max_loss_streak_is_worst_spin_witness :
  ss_max_loss_streak
    (snd (fst (SessionController.RunSession RandomPlayer.MakeDecision
                 (controller_on losing_machine) "s" 3 300 still_clock)))
  = (-1)%Q /\
  ss_total_profit
    (snd (fst (SessionController.RunSession RandomPlayer.MakeDecision
                 (controller_on losing_machine) "s" 3 300 still_clock)))
  = (7 - 10)%Q.
Proof.
  split.
  - refine (eq_trans
      (proj1 (max_loss_streak_is_worst_spin RandomPlayer.MakeDecision
                (controller_on losing_machine) "s" 3 300 still_clock
                SessionController.LimitReached
                (snd (fst (SessionController.RunSession RandomPlayer.MakeDecision
                             (controller_on losing_machine) "s" 3 300 still_clock)))
                (snd (SessionController.RunSession RandomPlayer.MakeDecision
                        (controller_on losing_machine) "s" 3 300 still_clock))
                _)) _).
    + vm_compute. reflexivity.
    + vm_compute. reflexivity.
  - vm_compute. reflexivity.
Defined.

(** * Further properties of the embedded code *)

Import Characterisation.

(** ** Reels and grids *)

Lemma uniform_int_range lo hi r : lo <= hi -> lo <= uniform_int lo hi r <= hi.
Proof.
  intros H. unfold uniform_int.
  pose proof (Z.mod_pos_bound r (hi - lo + 1) ltac:(lia)). lia.
Qed.

Lemma GetSymbolsAtPosition_In symbols position count x :
  symbols <> [] -> 0 <= position ->
  In x (GetSymbolsAtPosition symbols position count) -> In x symbols.
Proof.
  intros Hne Hpos Hin. unfold GetSymbolsAtPosition in Hin.
  apply in_map_iff in Hin. destruct Hin as (i & <- & Hi).
  apply list_elem_of_In, elem_of_seqZ in Hi.
  assert (Hlen : 0 < GetLength symbols).
  { unfold GetLength. destruct symbols; [congruence | cbn [length]; lia]. }
  rewrite Z.rem_mod_nonneg by lia.
  pose proof (Z.mod_pos_bound (position + i) (GetLength symbols) Hlen) as Hb.
  unfold vec_at.
  assert (E : ((position + i) mod GetLength symbols <? 0) = false) by (apply Z.ltb_ge; lia).
  rewrite E. apply nth_In. unfold GetLength in *. lia.
Qed.

Lemma GenerateGrid_loop_draws window reels rng :
  snd (GenerateGrid_loop window reels rng) = skipn (length reels) rng.
Proof.
  revert rng. induction reels as [|reel rest IH]; intros rng; [reflexivity|].
  cbn [GenerateGrid_loop length].
  destruct (next_draw rng) as [r rng1] eqn:Hdraw.
  specialize (IH rng1).
  destruct (GenerateGrid_loop window rest rng1) as [grid rng2]. cbn [fst snd] in *.
  rewrite IH. destruct rng as [|r0 rng0]; cbn in Hdraw; injection Hdraw as <- <-.
  - now rewrite !skipn_nil.
  - reflexivity.
Qed.

(** X2.  On a reel set without empty strip, every symbol of the generated
    grid occurs on one of the strips, and generating the grid consumes one
    draw of the generator per reel. *)
Theorem GenerateGrid_shows_strip_symbols (rs : ReelSet) (rng : Rng) :
  Forall (fun reel => reel <> []) (reels_ rs) ->
  (forall x, In x (fst (GenerateGrid rs rng)) ->
             exists reel, In reel (reels_ rs) /\ In x reel) /\
  snd (GenerateGrid rs rng) = skipn (length (reels_ rs)) rng.
Proof.
  intros Hall. split; [|apply GenerateGrid_loop_draws].
  unfold GenerateGrid. generalize (window_size_ rs) as window. intros window.
  revert rng. induction Hall as [|reel rest Hne Hrest IH]; intros rng.
  - intros x [].
  - cbn [GenerateGrid_loop].
    destruct (next_draw rng) as [r rng1].
    specialize (IH rng1).
    destruct (GenerateGrid_loop window rest rng1) as [grid rng2]. cbn [fst] in *.
    intros x Hin. apply in_app_or in Hin. destruct Hin as [Hin|Hin].
    + exists reel. split; [now left|].
      eapply GetSymbolsAtPosition_In; [exact Hne | | exact Hin].
      apply uniform_int_range.
      unfold GetLength. destruct reel; [congruence | cbn [length]; lia].
    + destruct (IH x Hin) as (reel' & Hr & Hx). exists reel'. split; [now right | exact Hx].
Qed.

Lemma GenerateGrid_shows_strip_symbols_witness :
  snd (GenerateGrid (mkReelSet [[20; 1; 1]; [1; 1; 20]; [1]] 3) [4; 5; 6; 7; 8]) = [7; 8].
Proof.
  apply (proj2 (GenerateGrid_shows_strip_symbols
                  (mkReelSet [[20; 1; 1]; [1; 1; 20]; [1]] 3) [4; 5; 6; 7; 8]
                  ltac:(repeat constructor; discriminate))).
Defined.

Lemma GenerateGrid_length_witness :
  Z.of_nat (length (fst (GenerateGrid (mkReelSet [[20; 1; 1]; [1; 1; 20]; [1]] 3) [4; 5])))
  = 3 * 3.
Proof.
  apply (GenerateGrid_length (mkReelSet [[20; 1; 1]; [1; 1; 20]; [1]] 3) [4; 5]).
  cbn. lia.
Defined.

(** X3.  A window as long as the strip is the strip rotated to start at the
    stop position: reads wrap around the end of the strip. *)
Theorem full_turn_is_rotation (symbols : Reel) (position : Z) :
  0 <= position < GetLength symbols ->
  GetSymbolsAtPosition symbols position (GetLength symbols)
  = skipn (Z.to_nat position) symbols ++ firstn (Z.to_nat position) symbols.
Proof.
  intros Hpos. unfold GetLength in *.
  apply (nth_ext _ _ 0 0).
  - rewrite GetSymbolsAtPosition_length, length_app, length_skipn, length_firstn.
    unfold GetLength. lia.
  - intros n Hn. rewrite GetSymbolsAtPosition_length in Hn. unfold GetLength in Hn.
    unfold GetSymbolsAtPosition.
    rewrite nth_lookup, list_lookup_fmap, lookup_seqZ_lt by lia.
    cbn [fmap option_fmap option_map default id]. rewrite Z.add_0_l. unfold GetLength.
    rewrite Z.rem_mod_nonneg by lia.
    destruct (Z_lt_le_dec (position + Z.of_nat n) (Z.of_nat (length symbols))) as [Hlt|Hge].
    + rewrite Z.mod_small by lia.
      replace (position + Z.of_nat n) with (Z.of_nat (Z.to_nat position + n)) by lia.
      rewrite vec_at_nth.
      rewrite app_nth1 by (rewrite length_skipn; lia).
      now rewrite nth_skipn.
    + replace ((position + Z.of_nat n) mod Z.of_nat (length symbols))
        with (position + Z.of_nat n - Z.of_nat (length symbols)).
      2:{ apply Z.mod_unique with (q := 1); lia. }
      replace (position + Z.of_nat n - Z.of_nat (length symbols))
        with (Z.of_nat (n - (length symbols - Z.to_nat position))) by lia.
      rewrite vec_at_nth.
      rewrite app_nth2 by (rewrite length_skipn; lia).
      rewrite length_skipn. rewrite nth_firstn.
      assert (E : (n - (length symbols - Z.to_nat position) <? Z.to_nat position)%nat = true)
        by (apply Nat.ltb_lt; lia).
      now rewrite E.
Qed.

Lemma full_turn_is_rotation_witness :
  GetSymbolsAtPosition [1; 2; 3; 4; 5] 3 5 = [4; 5; 1; 2; 3].
Proof.
  apply (full_turn_is_rotation [1; 2; 3; 4; 5] 3).
  vm_compute. split; [discriminate | reflexivity].
Defined.

(** ** Pay lines and the pay table *)

Lemma GetPaylineSymbols_length_le grid payline :
  (length (PayTable.GetPaylineSymbols grid payline) <= length payline)%nat.
Proof.
  induction payline as [|index rest IH]; cbn [PayTable.GetPaylineSymbols length]; [lia|].
  destruct ((0 <=? index) && (index <? Z.of_nat (length grid))); cbn [length]; lia.
Qed.

Lemma PayTable_count_loop_bounds rest first_symbol count :
  count <= PayTable.count_loop rest first_symbol count <= count + Z.of_nat (length rest).
Proof.
  revert first_symbol count.
  induction rest as [|s rest IH]; intros first_symbol count; cbn [PayTable.count_loop length].
  - lia.
  - destruct ((s =? first_symbol) || (s =? 101)).
    + specialize (IH first_symbol (count + 1)). lia.
    + destruct (first_symbol =? 101).
      * specialize (IH s (count + 1)). lia.
      * lia.
Qed.

Lemma PayTable_count_le_length symbols :
  0 <= PayTable.CountConsecutiveSymbols symbols <= Z.of_nat (length symbols).
Proof.
  destruct symbols as [|s0 rest]; cbn [PayTable.CountConsecutiveSymbols length]; [lia|].
  pose proof (PayTable_count_loop_bounds rest s0 1). lia.
Qed.

(** X4.  A pay line with fewer than three indices pays nothing, whatever the
    grid, the pay table and the bet: the run it counts cannot reach 3. *)
Theorem short_line_pays_nothing (pt : PayTable.t) (grid : SpinGrid)
    (payline : PaylineIndices) (bet_amount : Q) :
  (length payline < 3)%nat ->
  PayTable.CalculatePaylineWin pt grid payline bet_amount = 0%Q.
Proof.
  intros Hshort. unfold PayTable.CalculatePaylineWin.
  pose proof (GetPaylineSymbols_length_le grid payline) as Hlen.
  pose proof (PayTable_count_le_length (PayTable.GetPaylineSymbols grid payline)) as Hcount.
  destruct (PayTable.GetPaylineSymbols grid payline) as [|s0 rest] eqn:E; [reflexivity|].
  assert (Hlt : (PayTable.CountConsecutiveSymbols (s0 :: rest) <? 3) = true)
    by (apply Z.ltb_lt; lia).
  now rewrite Hlt.
Qed.

Lemma short_line_pays_nothing_witness :
  PayTable.CalculatePaylineWin row3_table six_of_a_kind [0; 1] 7 = 0%Q.
Proof.
  apply (short_line_pays_nothing row3_table six_of_a_kind [0; 1] 7). cbn. lia.
Defined.

Lemma GetPayout_nonneg (pt : PayTable.t) (symbol : string) (count : Z) :
  (forall sym row p, PayTable.pay_table_ pt !! sym = Some row -> In p row -> (0 <= p)%Q) ->
  (0 <= PayTable.GetPayout pt symbol count)%Q.
Proof.
  intros Hpos. unfold PayTable.GetPayout.
  destruct (PayTable.pay_table_ pt !! symbol) as [payouts|] eqn:E; [|apply Qle_refl].
  cbv zeta.
  destruct ((0 <=? count - 3) && (count - 3 <? Z.of_nat (length payouts))) eqn:Hrange;
    [|apply Qle_refl].
  apply andb_true_iff in Hrange. destruct Hrange as [H0 H1].
  apply Z.leb_le in H0. apply Z.ltb_lt in H1.
  apply (Hpos symbol payouts); [exact E|].
  unfold vec_at. assert (Hneg : (count - 3 <? 0) = false) by (apply Z.ltb_ge; lia).
  rewrite Hneg. apply nth_In. lia.
Qed.

Lemma CalculatePaylineWin_nonneg (pt : PayTable.t) grid payline (bet_amount : Q) :
  (forall sym row p, PayTable.pay_table_ pt !! sym = Some row -> In p row -> (0 <= p)%Q) ->
  (0 <= bet_amount)%Q ->
  (0 <= PayTable.CalculatePaylineWin pt grid payline bet_amount)%Q.
Proof.
  intros Hpos Hbet. unfold PayTable.CalculatePaylineWin.
  destruct (PayTable.GetPaylineSymbols grid payline) as [|s0 rest]; [apply Qle_refl|].
  cbv zeta. destruct (PayTable.CountConsecutiveSymbols (s0 :: rest) <? 3); [apply Qle_refl|].
  apply Qmult_le_0_compat; [now apply GetPayout_nonneg | exact Hbet].
Qed.

Lemma fold_wins_nonneg (pt : PayTable.t) grid (bet_amount : Q) lines (acc : Q) :
  (forall sym row p, PayTable.pay_table_ pt !! sym = Some row -> In p row -> (0 <= p)%Q) ->
  (0 <= bet_amount)%Q -> (0 <= acc)%Q ->
  (0 <= fold_left
          (fun total_win payline =>
             (total_win + PayTable.CalculatePaylineWin pt grid payline bet_amount)%Q)
          lines acc)%Q.
Proof.
  intros Hpos Hbet. revert acc.
  induction lines as [|payline rest IH]; intros acc Hacc; cbn [fold_left].
  - exact Hacc.
  - apply IH.
    pose proof (CalculatePaylineWin_nonneg pt grid payline bet_amount Hpos Hbet) as Hwin.
    lra.
Qed.

(** X5.  With a pay table without negative entry and a bet that is not
    negative, the total win of a grid is not negative, for every number of
    active lines. *)
Theorem total_win_nonnegative (pt : PayTable.t) (grid : SpinGrid) (bet_amount : Q)
    (active_lines : Z) :
  (forall sym row p, PayTable.pay_table_ pt !! sym = Some row -> In p row -> (0 <= p)%Q) ->
  (0 <= bet_amount)%Q ->
  (0 <= PayTable.CalculateTotalWin pt grid bet_amount active_lines)%Q.
Proof.
  intros Hpos Hbet. unfold PayTable.CalculateTotalWin. cbv zeta.
  apply fold_wins_nonneg; [exact Hpos | exact Hbet | apply Qle_refl].
Qed.

Lemma total_win_nonnegative_witness :
  (0 <= PayTable.CalculateTotalWin row3_table five_of_a_kind 2 1)%Q.
Proof.
  apply (total_win_nonnegative row3_table five_of_a_kind 2 1).
  - intros sym row p Hrow Hin. unfold row3_table in Hrow. cbn [PayTable.pay_table_] in Hrow.
    apply lookup_singleton_Some in Hrow. destruct Hrow as [_ <-].
    cbn [In] in Hin. destruct Hin as [<-|[<-|[<-|[]]]]; vm_compute; discriminate.
  - vm_compute; discriminate.
Defined.

Lemma CalculatePaylineWin_monotone (pt : PayTable.t) grid payline (bet_amount bet_amount' : Q) :
  (forall sym row p, PayTable.pay_table_ pt !! sym = Some row -> In p row -> (0 <= p)%Q) ->
  (bet_amount <= bet_amount')%Q ->
  (PayTable.CalculatePaylineWin pt grid payline bet_amount
   <= PayTable.CalculatePaylineWin pt grid payline bet_amount')%Q.
Proof.
  intros Hpos Hbet. unfold PayTable.CalculatePaylineWin.
  destruct (PayTable.GetPaylineSymbols grid payline) as [|s0 rest]; [apply Qle_refl|].
  cbv zeta. destruct (PayTable.CountConsecutiveSymbols (s0 :: rest) <? 3); [apply Qle_refl|].
  rewrite !(Qmult_comm (PayTable.GetPayout _ _ _)).
  apply Qmult_le_compat_r; [exact Hbet | now apply GetPayout_nonneg].
Qed.

Lemma fold_wins_monotone (pt : PayTable.t) grid (bet_amount bet_amount' : Q) lines
    (acc acc' : Q) :
  (forall sym row p, PayTable.pay_table_ pt !! sym = Some row -> In p row -> (0 <= p)%Q) ->
  (bet_amount <= bet_amount')%Q -> (acc <= acc')%Q ->
  (fold_left
     (fun total_win payline =>
        (total_win + PayTable.CalculatePaylineWin pt grid payline bet_amount)%Q)
     lines acc
   <= fold_left
        (fun total_win payline =>
           (total_win + PayTable.CalculatePaylineWin pt grid payline bet_amount')%Q)
        lines acc')%Q.
Proof.
  intros Hpos Hbet. revert acc acc'.
  induction lines as [|payline rest IH]; intros acc acc' Hacc; cbn [fold_left].
  - exact Hacc.
  - apply IH. apply Qplus_le_compat; [exact Hacc|].
    now apply CalculatePaylineWin_monotone.
Qed.

(** X6.  With a pay table without negative entry, the total win of a grid
    does not decrease when the bet grows: the same lines win with the same
    pay-table entries, each multiplied by the bet, and the products are
    added in line order.  (Multiplying by a factor that is not negative and
    adding preserve the order, also after rounding.) *)
Theorem total_win_monotone_in_bet (pt : PayTable.t) (grid : SpinGrid)
    (bet_amount bet_amount' : Q) (active_lines : Z) :
  (forall sym row p, PayTable.pay_table_ pt !! sym = Some row -> In p row -> (0 <= p)%Q) ->
  (bet_amount <= bet_amount')%Q ->
  (PayTable.CalculateTotalWin pt grid bet_amount active_lines
   <= PayTable.CalculateTotalWin pt grid bet_amount' active_lines)%Q.
Proof.
  intros Hpos Hbet. unfold PayTable.CalculateTotalWin. cbv zeta.
  apply fold_wins_monotone; [exact Hpos | exact Hbet | apply Qle_refl].
Qed.

Lemma total_win_monotone_in_bet_witness :
  (PayTable.CalculateTotalWin row3_table five_of_a_kind 1 1
   <= PayTable.CalculateTotalWin row3_table five_of_a_kind 2 1)%Q.
Proof.
  apply (total_win_monotone_in_bet row3_table five_of_a_kind 1 2 1).
  - intros sym row p Hrow Hin. unfold row3_table in Hrow. cbn [PayTable.pay_table_] in Hrow.
    apply lookup_singleton_Some in Hrow. destruct Hrow as [_ <-].
    cbn [In] in Hin. destruct Hin as [<-|[<-|[<-|[]]]]; vm_compute; discriminate.
  - vm_compute; discriminate.
Defined.

(** X7.  Reading a pay line never fails: an index outside the grid is
    skipped, so the symbols that follow it move one position to the left;
    every symbol read is a cell of the grid; and when every index is inside
    the grid the line reads the cells at its indices, in order. *)
Theorem GetPaylineSymbols_reads_grid (grid : SpinGrid) :
  (forall before index after,
     index < 0 \/ Z.of_nat (length grid) <= index ->
     PayTable.GetPaylineSymbols grid (before ++ index :: after)
     = PayTable.GetPaylineSymbols grid (before ++ after)) /\
  (forall payline x, In x (PayTable.GetPaylineSymbols grid payline) -> In x grid) /\
  (forall payline,
     Forall (fun index => 0 <= index < Z.of_nat (length grid)) payline ->
     PayTable.GetPaylineSymbols grid payline
     = map (fun index => nth (Z.to_nat index) grid 0) payline).
Proof.
  split; [|split].
  - intros before index after Hout.
    induction before as [|b before IH]; cbn [app PayTable.GetPaylineSymbols].
    + assert (E : (0 <=? index) && (index <? Z.of_nat (length grid)) = false).
      { apply andb_false_iff. destruct Hout; [left; apply Z.leb_gt | right; apply Z.ltb_ge]; lia. }
      now rewrite E.
    + now rewrite IH.
  - intros payline x. induction payline as [|index rest IH]; cbn [PayTable.GetPaylineSymbols].
    + intros [].
    + destruct ((0 <=? index) && (index <? Z.of_nat (length grid))) eqn:Hrange; [|exact IH].
      apply andb_true_iff in Hrange. destruct Hrange as [H0 H1].
      apply Z.leb_le in H0. apply Z.ltb_lt in H1.
      intros [<-|Hin]; [|now apply IH].
      unfold vec_at. assert (Hneg : (index <? 0) = false) by (apply Z.ltb_ge; lia).
      rewrite Hneg. apply nth_In. lia.
  - intros payline Hall. induction Hall as [|index rest Hin Hrest IH];
      cbn [PayTable.GetPaylineSymbols map]; [reflexivity|].
    assert (E : (0 <=? index) && (index <? Z.of_nat (length grid)) = true).
    { apply andb_true_iff. split; [apply Z.leb_le | apply Z.ltb_lt]; lia. }
    rewrite E, IH. f_equal.
    unfold vec_at. assert (Hneg : (index <? 0) = false) by (apply Z.ltb_ge; lia).
    now rewrite Hneg.
Qed.

(** ** The machine's spin *)




(** X9.  A spin that returns changes nothing of the machine but its
    generator, which advances by one draw per reel of the reel set used
    ([bonus] only in free-spin mode, [normal] otherwise); the result carries
    the bet and the mode it was asked for, the grid of that reel set, and
    [profit = win - bet]. *)
Theorem Spin_changes_only_generator (m : SlotMachine.t) (now bet_amount : Q)
    (in_free : bool) (r : Z) (res : SpinResult) (m' : SlotMachine.t) :
  SlotMachine.Spin m now bet_amount in_free r = Some (res, m') ->
  SlotMachine.config_ m' = SlotMachine.config_ m /\
  SlotMachine.pay_table_ m' = SlotMachine.pay_table_ m /\
  SlotMachine.reel_sets_ m' = SlotMachine.reel_sets_ m /\
  (exists name rs,
     SlotMachine.reel_sets_ m !! name = Some rs /\
     (name = "normal"%string \/ in_free = true /\ name = "bonus"%string) /\
     sr_grid res = fst (GenerateGrid rs (SlotMachine.rng_ m)) /\
     SlotMachine.rng_ m' = skipn (length (reels_ rs)) (SlotMachine.rng_ m)) /\
  sr_bet_amount res = bet_amount /\
  sr_in_free_spins res = in_free /\
  sr_profit res = (sr_win_amount res - bet_amount)%Q.
Proof.
  unfold SlotMachine.Spin, SlotMachine.GenerateSpinGrid. intros H.
  set (name0 := if in_free then "bonus"%string else "normal"%string) in H.
  set (name := match SlotMachine.reel_sets_ m !! name0 with
               | None => "normal"%string | Some _ => name0 end) in H.
  assert (Hname : name = "normal"%string \/ in_free = true /\ name = "bonus"%string).
  { subst name name0. destruct in_free.
    - destruct (SlotMachine.reel_sets_ m !! "bonus"%string); auto.
    - destruct (SlotMachine.reel_sets_ m !! "normal"%string); auto. }
  clearbody name. clear name0.
  destruct (SlotMachine.reel_sets_ m !! name) as [rs|] eqn:Hrs; [|discriminate].
  destruct (reserve_throws rs); [discriminate|].
  pose proof (GenerateGrid_loop_draws (window_size_ rs) (reels_ rs) (SlotMachine.rng_ m))
    as Hdraws. fold (GenerateGrid rs (SlotMachine.rng_ m)) in Hdraws.
  destruct (GenerateGrid rs (SlotMachine.rng_ m)) as [grid rng'] eqn:Hgrid.
  cbn [snd] in Hdraws.
  destruct (negb in_free); injection H as <- <-; cbn;
    (do 3 (split; [reflexivity|]); split;
     [exists name, rs; split; [exact Hrs|]; split; [exact Hname|];
      split; [now rewrite Hgrid | exact Hdraws]
     | repeat split]).
Qed.

Lemma Spin_changes_only_generator_witness :
  exists res m',
    SlotMachine.Spin bonus_machine 0 1 true 4 = Some (res, m') /\
    SlotMachine.reel_sets_ m' = SlotMachine.reel_sets_ bonus_machine /\
    sr_profit res = (sr_win_amount res - 1)%Q.
Proof.
  destruct (SlotMachine.Spin bonus_machine 0 1 true 4) as [[res m']|] eqn:E;
    [|vm_compute in E; discriminate E].
  exists res, m'. split; [reflexivity|].
  pose proof (Spin_changes_only_generator bonus_machine 0 1 true 4 res m' E) as H.
  split; [apply H | apply H].
Defined.

Lemma concat_single_row (windows : list (list Z)) :
  Forall (fun column => length column = 1%nat) windows ->
  concat windows = row_major 1 windows.
Proof.
  unfold row_major. cbn [seqZ]. change (seqZ 0 1) with [0]. cbn [flat_map].
  rewrite app_nil_r.
  induction 1 as [|column rest Hlen Hrest IH]; cbn [concat map]; [reflexivity|].
  rewrite IH. destruct column as [|x [|y column]]; try discriminate Hlen. reflexivity.
Qed.

Lemma reel_windows_uniform window reels rng :
  Forall (fun column => length column = Z.to_nat window) (reel_windows window reels rng).
Proof.
  revert rng. induction reels as [|reel rest IH]; intros rng; cbn [reel_windows].
  - constructor.
  - destruct (next_draw rng) as [r rng1]. constructor; [|apply IH].
    apply GetSymbolsAtPosition_length.
Qed.

(** X10.  On a machine with a single visible row the two grid layouts
    coincide, and the free-spin trigger is right on every generated grid: it
    fires exactly when the scatter symbol shows on at least three reels. *)
Theorem single_row_trigger_counts_reels (m : SlotMachine.t) (rs : ReelSet) (rng : Rng) :
  window_size (SlotMachine.config_ m) = 1 ->
  window_size_ rs = 1 ->
  SlotMachine.CheckFreeSpinsTrigger m (fst (GenerateGrid rs rng))
  = (3 <=? scatter_reels (scatter_symbol (SlotMachine.config_ m))
             (reel_windows 1 (reels_ rs) rng)).
Proof.
  intros Hcfg Hrs. unfold GenerateGrid. rewrite Hrs, GenerateGrid_loop_windows.
  pose proof (reel_windows_uniform 1 (reels_ rs) rng) as Huni.
  rewrite concat_single_row by exact Huni.
  generalize dependent (reel_windows 1 (reels_ rs) rng). intros windows Huni.
  unfold SlotMachine.CheckFreeSpinsTrigger, scatter_reels. rewrite Hcfg.
  rewrite row_major_length by lia.
  rewrite Z.mul_comm, Z.quot_mul by lia.
  f_equal. f_equal.
  apply (count_by_index _ _ []).
  intros i Hi. rewrite <- Hcfg. apply has_scatter_row_major; [|exact Hi].
  rewrite Hcfg. eapply List.Forall_impl; [|exact Huni].
  intros column Hlen. cbn beta in Hlen. rewrite Hlen. reflexivity.
Qed.

Lemma single_row_trigger_counts_reels_witness :
  SlotMachine.CheckFreeSpinsTrigger plain_machine
    (fst (GenerateGrid (mkReelSet [[20; 1]; [1; 20]; [20]; [1]; [1; 1; 20]] 1) [0; 1; 0; 0; 2]))
  = true.
Proof.
  rewrite (single_row_trigger_counts_reels plain_machine
             (mkReelSet [[20; 1]; [1; 20]; [20]; [1]; [1; 1; 20]] 1) [0; 1; 0; 0; 2]);
    reflexivity.
Defined.

(** ** Players *)

(** What [GetRandomBet] returns: 1 without any bet option, 0 when no option
    is affordable, and otherwise an option within the balance. *)
Lemma GetRandomBet_cases (b : BasePlayer.t) (session_data : SessionData) :
  (sd_available_bets session_data = [] /\
   fst (BasePlayer.GetRandomBet b session_data) = 1%Q) \/
  (sd_available_bets session_data <> [] /\
   fst (BasePlayer.GetRandomBet b session_data) = 0%Q) \/
  (In (fst (BasePlayer.GetRandomBet b session_data)) (sd_available_bets session_data) /\
   (fst (BasePlayer.GetRandomBet b session_data) <= BasePlayer.balance_ b)%Q).
Proof.
  unfold BasePlayer.GetRandomBet. cbv zeta.
  destruct (sd_available_bets session_data) as [|o options] eqn:Hopts; [left; now split|].
  right.
  destruct (List.filter (fun bet => fle bet (BasePlayer.balance_ b)) (o :: options))
    as [|a affordable] eqn:Haff.
  - left. split; [discriminate | reflexivity].
  - right. destruct (next_draw (BasePlayer.rng_ b)) as [r rng']. cbn [fst].
    assert (Hin : In (vec_at (a :: affordable)
                        (uniform_int 0 (Z.of_nat (length (a :: affordable)) - 1) r) 0%Q)
                     (a :: affordable)).
    { pose proof (uniform_int_range 0 (Z.of_nat (length (a :: affordable)) - 1) r
                    ltac:(cbn [length]; lia)) as Hr.
      unfold vec_at.
      assert (Hneg : (uniform_int 0 (Z.of_nat (length (a :: affordable)) - 1) r <? 0) = false)
        by (apply Z.ltb_ge; lia).
      rewrite Hneg. apply nth_In. lia. }
    remember (vec_at (a :: affordable)
                (uniform_int 0 (Z.of_nat (length (a :: affordable)) - 1) r) 0%Q) as bet.
    rewrite <- Haff in Hin. apply filter_In in Hin. destruct Hin as [Hin Hle].
    split; [exact Hin | apply fle_spec, Hle].
Qed.

(** A continuing decision of the random player bets an offered option
    within the balance, or 1 when nothing is offered. *)
Lemma random_bet_admissible (b : BasePlayer.t) (s : RandomPlayer.t) (machine : string)
    (session_data : SessionData) :
  pd_continue_playing (fst (fst (RandomPlayer.MakeDecision b s machine session_data))) = true ->
  (In (pd_bet_amount (fst (fst (RandomPlayer.MakeDecision b s machine session_data))))
      (sd_available_bets session_data) /\
   (pd_bet_amount (fst (fst (RandomPlayer.MakeDecision b s machine session_data)))
    <= BasePlayer.balance_ b)%Q)
  \/ (sd_available_bets session_data = [] /\
      pd_bet_amount (fst (fst (RandomPlayer.MakeDecision b s machine session_data))) = 1%Q).
Proof.
  unfold RandomPlayer.MakeDecision.
  destruct (RandomPlayer.ShouldEndSession b s session_data) as [ended rng1].
  destruct ended; [cbn; discriminate|].
  pose proof (GetRandomBet_cases (BasePlayer.with_rng b rng1) session_data) as Hcases.
  destruct (BasePlayer.GetRandomBet (BasePlayer.with_rng b rng1) session_data)
    as [bet_amount rng2].
  cbn [fst BasePlayer.with_rng BasePlayer.balance_] in Hcases.
  destruct (fle bet_amount 0) eqn:Hle; [cbn; discriminate|].
  destruct (BasePlayer.GetRandomDelay _ _ _) as [delay rng3].
  cbn [fst snd PlayerDecision_new pd_continue_playing pd_bet_amount].
  apply fle_false in Hle. intros _.
  destruct Hcases as [[Hnil H1]|[[_ H0]|Hin]].
  - right. now split.
  - exfalso. rewrite H0 in Hle. revert Hle. apply Qlt_irrefl.
  - left. exact Hin.
Qed.

(** X11.  The decision of the random player: when it continues, its bet is
    positive and is either one of the offered bet options within the balance,
    or 1 when no option is offered, and the bet is added to the money spent
    in the session; when it stops, the bet is 0 and the player's own counters
    are unchanged. *)
Theorem random_player_bets_within_balance (b : BasePlayer.t) (s : RandomPlayer.t)
    (machine : string) (session_data : SessionData) :
  let decision := fst (fst (RandomPlayer.MakeDecision b s machine session_data)) in
  let s' := snd (RandomPlayer.MakeDecision b s machine session_data) in
  (pd_continue_playing decision = true ->
   (0 < pd_bet_amount decision)%Q /\
   (In (pd_bet_amount decision) (sd_available_bets session_data) /\
    (pd_bet_amount decision <= BasePlayer.balance_ b)%Q
    \/ sd_available_bets session_data = [] /\ pd_bet_amount decision = 1%Q) /\
   RandomPlayer.session_spent_ s'
   = (RandomPlayer.session_spent_ s + pd_bet_amount decision)%Q) /\
  (pd_continue_playing decision = false -> pd_bet_amount decision = 0%Q /\ s' = s).
Proof.
  cbv zeta. unfold RandomPlayer.MakeDecision.
  destruct (RandomPlayer.ShouldEndSession b s session_data) as [ended rng1].
  destruct ended.
  { cbn. split; [discriminate | now split]. }
  pose proof (GetRandomBet_cases (BasePlayer.with_rng b rng1) session_data) as Hcases.
  destruct (BasePlayer.GetRandomBet (BasePlayer.with_rng b rng1) session_data)
    as [bet_amount rng2].
  cbn [fst BasePlayer.with_rng BasePlayer.balance_] in Hcases.
  destruct (fle bet_amount 0) eqn:Hle.
  { cbn. split; [discriminate | now split]. }
  destruct (BasePlayer.GetRandomDelay _ _ _) as [delay rng3].
  cbn [fst snd PlayerDecision_new pd_continue_playing pd_bet_amount
       RandomPlayer.session_spent_].
  apply fle_false in Hle.
  split.
  - intros _. split; [exact Hle|]. split; [|reflexivity].
    destruct Hcases as [[Hnil H1]|[[_ H0]|Hin]].
    + right. now split.
    + exfalso. rewrite H0 in Hle. revert Hle. apply Qlt_irrefl.
    + left. exact Hin.
  - intros Hstop. apply flt_false in Hstop. exfalso.
    apply (Qlt_irrefl 0). eapply Qlt_le_trans; eassumption.
Qed.

(** X12.  The bet predicted by the v1 model loader never passes the test
    [<= 0] of the code: it is 1 without loaded model, on a failed or empty
    inference and on a first output of the betting network that is [<= 0],
    and otherwise it is that first output, for which the test failed.  (For
    an output that is not a number the test fails too, and the output is
    returned as it is: the result is then not a positive number, which is
    why the property is stated with the test the code makes.) *)
Theorem PredictBetAmount_fails_nonpositive_test (l : V1ModelLoader.t)
    (betting_input : list Q) :
  fle (V1ModelLoader.PredictBetAmount l betting_input) 0 = false /\
  (V1ModelLoader.PredictBetAmount l betting_input = 1%Q \/
   exists model predicted_bet rest,
     V1ModelLoader.models_loaded_ l = true /\
     V1ModelLoader.betting_model_ l = Some model /\
     Predict model betting_input = Some (predicted_bet :: rest) /\
     fle predicted_bet 0 = false /\
     V1ModelLoader.PredictBetAmount l betting_input = predicted_bet).
Proof.
  unfold V1ModelLoader.PredictBetAmount.
  destruct (V1ModelLoader.models_loaded_ l); [|split; [reflexivity | now left]].
  destruct (V1ModelLoader.betting_model_ l) as [model|]; [|split; [reflexivity | now left]].
  destruct (Predict model betting_input) as [[|predicted_bet rest]|] eqn:Hout;
    try (split; [reflexivity | now left]).
  destruct (fle predicted_bet 0) eqn:E; [split; [reflexivity | now left]|].
  split; [exact E|]. right. exists model, predicted_bet, rest.
  split; [reflexivity|]. split; [reflexivity|]. split; [exact Hout|].
  split; [exact E | reflexivity].
Qed.

(** X13.  The bet of the v1 player.  Its first decision bets the configured
    first bet without consulting the models or the bet options.  Every later
    decision that continues bets within the balance an amount equal to one of
    the offered bet options, or 1 when no option is offered: a prediction
    that is no valid bet is replaced by a random bet. *)
Theorem v1_player_bet (b : BasePlayer.t) (s : V1Player.t) (machine : string)
    (session_data : SessionData) :
  let decision := fst (fst (V1Player.MakeDecision b s machine session_data)) in
  let s' := snd (V1Player.MakeDecision b s machine session_data) in
  (V1Player.is_first_bet_ s = true ->
   pd_bet_amount decision = V1Player.first_bet_amount_ s /\
   V1Player.is_first_bet_ s' = false) /\
  (V1Player.is_first_bet_ s = false ->
   s' = s /\
   (pd_continue_playing decision = true ->
    (exists option, In option (sd_available_bets session_data) /\
                    (option == pd_bet_amount decision)%Q) /\
    (pd_bet_amount decision <= BasePlayer.balance_ b)%Q
    \/ sd_available_bets session_data = [] /\ pd_bet_amount decision = 1%Q)).
Proof.
  cbv zeta. unfold V1Player.MakeDecision.
  destruct (V1Player.is_first_bet_ s) eqn:Hfirst.
  - destruct (V1Player.DecideDelayTime _ _) as [delay rng2]. cbn.
    split; [now split | discriminate].
  - split; [discriminate|]. intros _.
    unfold V1Player.DecideBetAmount. cbv zeta.
    set (predicted_bet := V1ModelLoader.PredictBetAmount _ _).
    destruct (BasePlayer.IsValidBet b predicted_bet session_data) eqn:Hvalid; cbn [negb].
    + destruct (V1Player.DecideDelayTime _ _) as [delay rng2].
      cbn [fst snd PlayerDecision_new pd_continue_playing pd_bet_amount].
      split; [reflexivity|]. intros _. left.
      unfold BasePlayer.IsValidBet in Hvalid.
      destruct (fle predicted_bet 0); [discriminate|].
      destruct (flt (BasePlayer.balance_ b) predicted_bet) eqn:Hbal; [discriminate|].
      apply existsb_exists in Hvalid. destruct Hvalid as (option & Hin & Heq).
      split; [exists option; split; [exact Hin | apply feq_spec, Heq]|].
      apply flt_false, Hbal.
    + pose proof (GetRandomBet_cases b session_data) as Hcases.
      destruct (BasePlayer.GetRandomBet b session_data) as [bet rng1].
      destruct (V1Player.DecideDelayTime _ _) as [delay rng2].
      cbn [fst snd PlayerDecision_new pd_continue_playing pd_bet_amount] in *.
      split; [reflexivity|]. intros Hcont. apply flt_spec in Hcont.
      destruct Hcases as [[Hnil H1]|[[_ H0]|[Hin Hle]]].
      * right. now split.
      * exfalso. rewrite H0 in Hcont. revert Hcont. apply Qlt_irrefl.
      * left. split; [|exact Hle]. exists bet. split; [exact Hin | reflexivity].
Qed.

Lemma streak_loop_closed (spins : list SpinResult) (winning : bool) (streak : Q) :
  (V1DataProcessor.streak_loop spins winning streak
   == streak + (if winning then 1 else -1)
               * inject_Z (Z.of_nat (leading_run
                    (fun spin => Bool.eqb (flt 0 (sr_profit spin)) winning) spins)))%Q.
Proof.
  revert streak. induction spins as [|spin rest IH]; intros streak;
    cbn [V1DataProcessor.streak_loop leading_run].
  - cbn [Z.of_nat]. change (inject_Z 0) with 0%Q. ring.
  - destruct (Bool.eqb (flt 0 (sr_profit spin)) winning).
    + rewrite IH. rewrite Nat2Z.inj_succ, <- Z.add_1_r, inject_Z_plus.
      change (inject_Z 1) with 1%Q. ring.
    + cbn [Z.of_nat]. change (inject_Z 0) with 0%Q. ring.
Qed.

(** X14.  The streak feature of the v1 player is the length of the run of
    equal outcomes at the end of the observed history, positive after a win
    and negative after a spin without profit; with at least one observed spin
    it is never 0 and its size is at most the number of observed spins. *)
Theorem CalculateStreak_is_current_run (session_data : SessionData) :
  (V1DataProcessor.CalculateStreak session_data
   == inject_Z (current_streak (sd_recent_spins session_data)))%Q /\
  (sd_recent_spins session_data <> [] ->
   1 <= Z.abs (current_streak (sd_recent_spins session_data))
     <= Z.of_nat (length (sd_recent_spins session_data))).
Proof.
  unfold V1DataProcessor.CalculateStreak, current_streak.
  generalize (sd_recent_spins session_data) as spins. intros spins.
  destruct (last spins) as [last_spin|] eqn:Hlast.
  - cbv zeta.
    set (winning := flt 0 (sr_profit last_spin)).
    set (same := fun spin => Bool.eqb (flt 0 (sr_profit spin)) winning).
    split.
    + rewrite streak_loop_closed. fold same.
      destruct winning; [|rewrite inject_Z_opp]; ring.
    + intros _.
      assert (Hrev : exists rest, rev spins = last_spin :: rest).
      { apply last_Some in Hlast. destruct Hlast as [l' ->].
        rewrite rev_app_distr. cbn. eauto. }
      destruct Hrev as [rest Hrev]. rewrite Hrev.
      assert (Hlen : length spins = S (length rest)).
      { rewrite <- length_rev, Hrev. reflexivity. }
      assert (Hrun : forall l, (leading_run same l <= length l)%nat).
      { induction l as [|x l IHl]; cbn [leading_run length]; [lia|].
        destruct (same x); lia. }
      cbn [leading_run].
      assert (Hsame : same last_spin = true) by apply eqb_reflx.
      rewrite Hsame. specialize (Hrun rest). destruct winning; lia.
  - split; [reflexivity|]. intros Hne. apply last_None in Hlast. contradiction.
Qed.

(** ** Sessions: what the passes of the loop preserve *)

Lemma Spin_result_fields m now bet_amount in_free r res m' :
  SlotMachine.Spin m now bet_amount in_free r = Some (res, m') ->
  SlotMachine.config_ m' = SlotMachine.config_ m /\
  SlotMachine.pay_table_ m' = SlotMachine.pay_table_ m /\
  sr_bet_amount res = bet_amount /\
  sr_profit res = (sr_win_amount res - bet_amount)%Q /\
  exists grid,
    sr_win_amount res
    = (if in_free
       then (PayTable.CalculateTotalWin (SlotMachine.pay_table_ m) grid bet_amount
               (active_lines (SlotMachine.config_ m))
             * free_spins_multiplier (SlotMachine.config_ m))%Q
       else PayTable.CalculateTotalWin (SlotMachine.pay_table_ m) grid bet_amount
              (active_lines (SlotMachine.config_ m))).
Proof.
  unfold SlotMachine.Spin, SlotMachine.CalculateWinAmount. intros H.
  destruct (SlotMachine.GenerateSpinGrid _ _) as [[grid rng']|]; [|discriminate].
  destruct in_free; cbn [negb] in H; injection H as <- <-; cbn;
    repeat split; exists grid; reflexivity.
Qed.

Lemma Spin_win_nonneg m now bet_amount in_free r res m' :
  (forall sym row p,
     PayTable.pay_table_ (SlotMachine.pay_table_ m) !! sym = Some row -> In p row ->
     (0 <= p)%Q) ->
  (0 <= free_spins_multiplier (SlotMachine.config_ m))%Q ->
  (0 <= bet_amount)%Q ->
  SlotMachine.Spin m now bet_amount in_free r = Some (res, m') ->
  (0 <= sr_win_amount res)%Q.
Proof.
  intros Htable Hmult Hbet Hspin.
  destruct (Spin_result_fields _ _ _ _ _ _ _ Hspin) as (_ & _ & _ & _ & grid & ->).
  assert (Hwin : (0 <= PayTable.CalculateTotalWin (SlotMachine.pay_table_ m) grid bet_amount
                         (active_lines (SlotMachine.config_ m)))%Q).
  { unfold PayTable.CalculateTotalWin. cbv zeta.
    apply fold_wins_nonneg; [exact Htable | exact Hbet | apply Qle_refl]. }
  destruct in_free; [apply Qmult_le_0_compat; assumption | exact Hwin].
Qed.

Section SessionInvariants.

Context {M : Type}.
Variable MakeDecision : BasePlayer.t -> M -> string -> SessionData -> PlayerDecision * Rng * M.
Variables (max_spins : Z) (max_duration : Q) (clock : Clock).

Local Abbreviation iteration :=
  (SessionController.iteration MakeDecision max_spins max_duration clock).
Local Abbreviation player_ := SessionController.player_.
Local Abbreviation machine_ := SessionController.machine_.
Local Abbreviation spin_history_ := SessionController.spin_history_.

(** A pass that continues: the decision's bet was positive, valid on the
    machine and within the balance; the machine spun with it; the spin is
    numbered and recorded, and the balance is debited and credited. *)
Lemma iteration_again_detail k stats (c : SessionController.t M) stats' c' :
  iteration k stats c = SessionController.Again stats' c' ->
  exists bet res,
    bet = pd_bet_amount
            (fst (fst (MakeDecision (player_ c) (SessionController.model_ c)
                         (SessionController.GetMachineId c)
                         (SessionController.PrepareSessionData c)))) /\
    (0 < bet)%Q /\
    (bet <= BasePlayer.balance_ (player_ c))%Q /\
    SlotMachine.IsValidBet (machine_ c) bet (BasePlayer.GetCurrency (player_ c)) = true /\
    SlotMachine.Spin (machine_ c) (system_time clock k) bet
      (SessionController.in_free_spins_ c) (SessionController.free_spins_remaining_ c)
    = Some (res, machine_ c') /\
    stats' = SessionController.UpdateSessionStats stats
               (SessionController.with_spin_number res
                  (Z.of_nat (length (spin_history_ c)) + 1)) /\
    spin_history_ c'
    = spin_history_ c ++ [SessionController.with_spin_number res
                            (Z.of_nat (length (spin_history_ c)) + 1)] /\
    BasePlayer.config_ (player_ c') = BasePlayer.config_ (player_ c) /\
    BasePlayer.balance_ (player_ c')
    = (BasePlayer.balance_ (player_ c) + - bet + sr_win_amount res)%Q.
Proof.
  unfold SessionController.iteration. intros H.
  destruct (negb (BasePlayer.IsActive (player_ c))); [discriminate|].
  destruct (SessionController.CheckSessionLimits _ _ _ _); [discriminate|].
  destruct (MakeDecision _ _ _ _) as [[decision rng'] model'].
  destruct (negb (pd_continue_playing decision) || fle (pd_bet_amount decision) 0) eqn:Hend;
    [discriminate|].
  destruct (negb (SlotMachine.IsValidBet _ _ _)) eqn:Hvalid; [discriminate|].
  destruct (flt _ _) eqn:Hbal; [discriminate|].
  apply orb_false_iff in Hend. destruct Hend as [_ Hpos]. apply fle_false in Hpos.
  apply negb_false_iff in Hvalid. apply flt_false in Hbal.
  cbn [SessionController.machine_ SessionController.player_] in Hvalid, Hbal.
  unfold BasePlayer.GetBalance, BasePlayer.with_rng in Hbal. cbn [BasePlayer.balance_] in Hbal.
  unfold SessionController.ExecuteSpin in H.
  cbn [SessionController.machine_ SessionController.player_ SessionController.model_
       SessionController.spin_history_ SessionController.in_free_spins_
       SessionController.free_spins_remaining_] in H.
  destruct (SlotMachine.Spin _ _ _ _ _) as [[spin_result machine']|] eqn:Hspin;
    [|discriminate].
  match type of H with
  | context [let '(_, _) := ?p in _] => destruct p as [in_free remaining]
  end.
  injection H as <- <-.
  exists (pd_bet_amount decision), spin_result. cbn [fst].
  split; [reflexivity|]. split; [exact Hpos|]. split; [exact Hbal|].
  split; [exact Hvalid|]. split; [exact Hspin|]. repeat split.
Qed.

(** A pass that leaves the loop records nothing; the balance is untouched
    unless the spin raised, in which case the bet stays debited. *)
Lemma iteration_break_detail k stats (c : SessionController.t M) why stats' c' :
  iteration k stats c = SessionController.Break why stats' c' ->
  stats' = stats /\
  spin_history_ c' = spin_history_ c /\
  machine_ c' = machine_ c /\
  BasePlayer.config_ (player_ c') = BasePlayer.config_ (player_ c) /\
  ((why <> SessionController.ExceptionCaught /\
    BasePlayer.balance_ (player_ c') = BasePlayer.balance_ (player_ c)) \/
   (why = SessionController.ExceptionCaught /\
    exists bet, (0 < bet)%Q /\ (bet <= BasePlayer.balance_ (player_ c))%Q /\
                BasePlayer.balance_ (player_ c')
                = (BasePlayer.balance_ (player_ c) + - bet)%Q)).
Proof.
  unfold SessionController.iteration. intros H.
  destruct (negb (BasePlayer.IsActive (player_ c))).
  { injection H as <- <- <-. repeat split. left. split; [discriminate | reflexivity]. }
  destruct (SessionController.CheckSessionLimits _ _ _ _).
  { injection H as <- <- <-. repeat split. left. split; [discriminate | reflexivity]. }
  destruct (MakeDecision _ _ _ _) as [[decision rng'] model'].
  destruct (negb (pd_continue_playing decision) || fle (pd_bet_amount decision) 0) eqn:Hend.
  { injection H as <- <- <-. repeat split. left. split; [discriminate | reflexivity]. }
  destruct (negb (SlotMachine.IsValidBet _ _ _)).
  { injection H as <- <- <-. repeat split. left. split; [discriminate | reflexivity]. }
  destruct (flt _ _) eqn:Hbal.
  { injection H as <- <- <-. repeat split. left. split; [discriminate | reflexivity]. }
  apply orb_false_iff in Hend. destruct Hend as [_ Hpos]. apply fle_false in Hpos.
  apply flt_false in Hbal.
  unfold BasePlayer.GetBalance, BasePlayer.with_rng in Hbal.
  cbn [SessionController.player_ BasePlayer.balance_] in Hbal.
  unfold SessionController.ExecuteSpin in H.
  cbn [SessionController.machine_ SessionController.player_ SessionController.model_
       SessionController.spin_history_ SessionController.in_free_spins_
       SessionController.free_spins_remaining_] in H.
  destruct (SlotMachine.Spin _ _ _ _ _) as [[spin_result machine']|] eqn:Hspin.
  - match type of H with
    | context [let '(_, _) := ?p in _] => destruct p as [in_free remaining]
    end.
    discriminate H.
  - injection H as <- <- <-. repeat split. right. split; [reflexivity|].
    exists (pd_bet_amount decision). repeat split; assumption.
Qed.

(** A property that every continuing pass preserves holds at the head of the
    pass in which the loop is left. *)
Lemma session_loop_reaches (Inv : SessionStats -> SessionController.t M -> Prop) :
  (forall k stats c stats' c',
     Inv stats c -> iteration k stats c = SessionController.Again stats' c' ->
     Inv stats' c') ->
  forall fuel k stats c why stats' c',
    Inv stats c ->
    SessionController.session_loop MakeDecision fuel max_spins max_duration clock k stats c
    = Some (why, stats', c') ->
    exists k' stats_n c_n,
      Inv stats_n c_n /\ iteration k' stats_n c_n = SessionController.Break why stats' c'.
Proof.
  intros Hstep. induction fuel as [|fuel IH]; intros k stats c why stats' c' Hinv H;
    [discriminate|].
  cbn [SessionController.session_loop] in H.
  destruct (iteration k stats c) as [why1 stats1 c1|stats1 c1] eqn:Hit.
  - injection H as <- <- <-. eauto.
  - eapply IH; [|exact H]. eapply Hstep; eassumption.
Qed.

Lemma RunSession_reaches (Inv : SessionStats -> SessionController.t M -> Prop)
    (c : SessionController.t M) (session_id : string) why stats c' :
  (forall k stats c stats' c',
     Inv stats c -> iteration k stats c = SessionController.Again stats' c' ->
     Inv stats' c') ->
  Inv (SessionController.initial_stats session_id c) (SessionController.clear_history c) ->
  SessionController.RunSession MakeDecision c session_id max_spins max_duration clock
  = (why, stats, c') ->
  exists k stats_n c_n,
    Inv stats_n c_n /\
    iteration k stats_n c_n = SessionController.Break why stats_n c' /\
    spin_history_ c' = spin_history_ c_n /\
    stats = SessionController.finish clock stats_n c'.
Proof.
  intros Hstep Hinit. unfold SessionController.RunSession. intros H.
  destruct (RunSession_loop_returns MakeDecision c session_id max_spins max_duration clock)
    as (why1 & stats1 & c1 & Hloop).
  rewrite Hloop in H. injection H as <- <- <-.
  destruct (session_loop_reaches Inv Hstep _ _ _ _ _ _ _ Hinit Hloop)
    as (k & stats_n & c_n & Hinv & Hbreak).
  pose proof (iteration_break_detail _ _ _ _ _ _ Hbreak) as (-> & Hh & _).
  exists k, stats_n, c_n. repeat split; assumption.
Qed.

End SessionInvariants.

(** X15.  A session never records more spins than its cap: the number of
    spins of the record returned by [RunSession], which is the number of
    recorded spin results, is at most [max_spins], and it is 0 when the cap
    is not positive. *)
Theorem session_respects_spin_cap {M : Type}
    (MakeDecision : BasePlayer.t -> M -> string -> SessionData -> PlayerDecision * Rng * M)
    (c : SessionController.t M) (session_id : string) (max_spins : Z) (max_duration : Q)
    (clock : Clock) (why : SessionController.Exit) (stats : SessionStats)
    (c' : SessionController.t M) :
  SessionController.RunSession MakeDecision c session_id max_spins max_duration clock
    = (why, stats, c') ->
  0 <= ss_total_spins stats <= Z.max 0 max_spins /\
  Z.of_nat (length (SessionController.spin_history_ c')) = ss_total_spins stats.
Proof.
  intros Hrun.
  destruct (RunSession_reaches MakeDecision max_spins max_duration clock
              (fun stats c =>
                 0 <= ss_total_spins stats <= Z.max 0 max_spins /\
                 Z.of_nat (length (SessionController.spin_history_ c)) = ss_total_spins stats)
              c session_id why stats c')
    as (k & stats_n & c_n & Hinv & _ & Hh & ->).
  - intros k stats0 c0 stats1 c1 [Hcap Hlen] Hit.
    pose proof (iteration_again_spins _ _ _ _ _ _ _ _ _ Hit) as [Hlt Hinc].
    destruct (iteration_again_detail _ _ _ _ _ _ _ _ _ Hit)
      as (bet & res & _ & _ & _ & _ & _ & _ & Hhist & _).
    rewrite Hhist, length_app, Hinc. cbn [length]. lia.
  - cbn. lia.
  - exact Hrun.
  - cbn [SessionController.finish ss_total_spins]. rewrite Hh. exact Hinv.
Qed.

Lemma session_respects_spin_cap_witness :
  0 <= ss_total_spins
         (snd (fst (SessionController.RunSession RandomPlayer.MakeDecision
                      (controller_on plain_machine) "s" 3 300 still_clock)))
    <= Z.max 0 3.
Proof.
  apply (session_respects_spin_cap RandomPlayer.MakeDecision (controller_on plain_machine)
           "s" 3 300 still_clock SessionController.LimitReached
           (snd (fst (SessionController.RunSession RandomPlayer.MakeDecision
                        (controller_on plain_machine) "s" 3 300 still_clock)))
           (snd (SessionController.RunSession RandomPlayer.MakeDecision
                   (controller_on plain_machine) "s" 3 300 still_clock))).
  vm_compute. reflexivity.
Defined.

(** X16.  The money of a session is accounted for, operation by operation.
    In the record returned by [RunSession], [total_bet] and [total_win] are
    the bets and the wins of the recorded spins added up from 0 in the order
    of the spins, [initial_balance] and [final_balance] are the player's
    balance before and after the session, and [total_profit] is their
    difference.  Unless the session ended on an exception of the machine,
    [final_balance] is the initial balance after debiting the bet and
    crediting the win of every recorded spin, in this order; when it did,
    the positive bet of the failed spin is debited once more and no spin is
    recorded for it.  Every equation relates two results of the same
    sequence of additions, so none depends on how an addition rounds. *)
Theorem session_accounting {M : Type}
    (MakeDecision : BasePlayer.t -> M -> string -> SessionData -> PlayerDecision * Rng * M)
    (c : SessionController.t M) (session_id : string) (max_spins : Z) (max_duration : Q)
    (clock : Clock) (why : SessionController.Exit) (stats : SessionStats)
    (c' : SessionController.t M) :
  SessionController.RunSession MakeDecision c session_id max_spins max_duration clock
    = (why, stats, c') ->
  ss_initial_balance stats = BasePlayer.balance_ (SessionController.player_ c) /\
  ss_final_balance stats = BasePlayer.balance_ (SessionController.player_ c') /\
  ss_total_profit stats = (ss_final_balance stats - ss_initial_balance stats)%Q /\
  ss_total_bet stats
  = running_sum (map sr_bet_amount (SessionController.spin_history_ c')) /\
  ss_total_win stats
  = running_sum (map sr_win_amount (SessionController.spin_history_ c')) /\
  (why <> SessionController.ExceptionCaught ->
   ss_final_balance stats
   = replay_balance (ss_initial_balance stats) (SessionController.spin_history_ c')) /\
  (why = SessionController.ExceptionCaught ->
   exists bet,
     (0 < bet)%Q /\
     ss_final_balance stats
     = (replay_balance (ss_initial_balance stats) (SessionController.spin_history_ c')
        + - bet)%Q).
Proof.
  intros Hrun.
  destruct (RunSession_reaches MakeDecision max_spins max_duration clock
              (fun stats0 c0 =>
                 ss_initial_balance stats0 = BasePlayer.balance_ (SessionController.player_ c) /\
                 BasePlayer.balance_ (SessionController.player_ c0)
                 = replay_balance (ss_initial_balance stats0)
                     (SessionController.spin_history_ c0) /\
                 ss_total_bet stats0
                 = running_sum (map sr_bet_amount (SessionController.spin_history_ c0)) /\
                 ss_total_win stats0
                 = running_sum (map sr_win_amount (SessionController.spin_history_ c0)))
              c session_id why stats c')
    as (k & stats_n & c_n & (Hinit & Hbal & Hbet & Hwin) & Hbreak & Hh & ->).
  - intros k stats0 c0 stats1 c1 (Hinit & Hbal & Hbet & Hwin) Hit.
    destruct (iteration_again_detail _ _ _ _ _ _ _ _ _ Hit)
      as (bet & res & _ & _ & _ & _ & Hspin & -> & Hhist & _ & Hbal1).
    destruct (Spin_result_fields _ _ _ _ _ _ _ Hspin) as (_ & _ & Hb & _).
    cbn [SessionController.UpdateSessionStats SessionController.with_spin_number
         ss_initial_balance ss_total_win ss_total_bet sr_bet_amount sr_win_amount].
    unfold running_sum, replay_balance in *.
    rewrite Hhist, !map_app, !fold_left_app, Hbal1.
    cbn [map fold_left SessionController.with_spin_number sr_bet_amount sr_win_amount].
    rewrite Hb, <- Hbal, <- Hbet, <- Hwin. split; [exact Hinit|]. repeat split.
  - cbn. repeat split; reflexivity.
  - exact Hrun.
  - pose proof (iteration_break_detail _ _ _ _ _ _ _ _ _ _ Hbreak)
      as (_ & _ & _ & _ & Hcase).
    cbn [SessionController.finish ss_initial_balance ss_final_balance ss_total_profit
         ss_total_bet ss_total_win].
    unfold BasePlayer.GetBalance. rewrite Hh.
    split; [exact Hinit|]. split; [reflexivity|]. split; [reflexivity|].
    split; [exact Hbet|]. split; [exact Hwin|]. split.
    + intros Hwhy. destruct Hcase as [[_ ->]|[Hex _]]; [exact Hbal | contradiction].
    + intros Hwhy. destruct Hcase as [[Hne _]|[_ (bet & Hpos & _ & ->)]]; [contradiction|].
      exists bet. split; [exact Hpos|]. now rewrite Hbal.
Qed.

(** On the machine that pays 5 per spin, three spins of 1 from a balance of
    10: [((10 - 1 + 5) - 1 + 5) - 1 + 5]. *)
Lemma session_accounting_witness :
  ss_final_balance
    (snd (fst (SessionController.RunSession RandomPlayer.MakeDecision
                 (controller_on plain_machine) "s" 3 300 still_clock)))
  = replay_balance 10
      (SessionController.spin_history_
         (snd (SessionController.RunSession RandomPlayer.MakeDecision
                 (controller_on plain_machine) "s" 3 300 still_clock))) /\
  (replay_balance 10
     (SessionController.spin_history_
        (snd (SessionController.RunSession RandomPlayer.MakeDecision
                (controller_on plain_machine) "s" 3 300 still_clock)))
   == 22)%Q.
Proof.
  pose proof (session_accounting RandomPlayer.MakeDecision (controller_on plain_machine)
                "s" 3 300 still_clock SessionController.LimitReached
                (snd (fst (SessionController.RunSession RandomPlayer.MakeDecision
                             (controller_on plain_machine) "s" 3 300 still_clock)))
                (snd (SessionController.RunSession RandomPlayer.MakeDecision
                        (controller_on plain_machine) "s" 3 300 still_clock))
                ltac:(vm_compute; reflexivity))
    as (Hinit & _ & _ & _ & _ & Hfinal & _).
  split; [|vm_compute; reflexivity].
  rewrite (Hfinal ltac:(discriminate)). f_equal.
Defined.

(** X17.  Every spin recorded by a session was made with a positive bet
    that is one of the machine's bet options for the player's currency, has
    [profit = win - bet], and the recorded spins are numbered 1, 2, ... in
    the order they were made. *)
Theorem recorded_spins_are_valid {M : Type}
    (MakeDecision : BasePlayer.t -> M -> string -> SessionData -> PlayerDecision * Rng * M)
    (c : SessionController.t M) (session_id : string) (max_spins : Z) (max_duration : Q)
    (clock : Clock) (why : SessionController.Exit) (stats : SessionStats)
    (c' : SessionController.t M) :
  SessionController.RunSession MakeDecision c session_id max_spins max_duration clock
    = (why, stats, c') ->
  Forall (fun spin =>
            (0 < sr_bet_amount spin)%Q /\
            SlotMachine.IsValidBet (SessionController.machine_ c) (sr_bet_amount spin)
              (BasePlayer.GetCurrency (SessionController.player_ c)) = true /\
            sr_profit spin = (sr_win_amount spin - sr_bet_amount spin)%Q)
         (SessionController.spin_history_ c') /\
  map sr_spin_number (SessionController.spin_history_ c')
  = seqZ 1 (Z.of_nat (length (SessionController.spin_history_ c'))).
Proof.
  intros Hrun.
  destruct (RunSession_reaches MakeDecision max_spins max_duration clock
              (fun _ c0 =>
                 SlotMachine.config_ (SessionController.machine_ c0)
                 = SlotMachine.config_ (SessionController.machine_ c) /\
                 BasePlayer.config_ (SessionController.player_ c0)
                 = BasePlayer.config_ (SessionController.player_ c) /\
                 Forall (fun spin =>
                           (0 < sr_bet_amount spin)%Q /\
                           SlotMachine.IsValidBet (SessionController.machine_ c)
                             (sr_bet_amount spin)
                             (BasePlayer.GetCurrency (SessionController.player_ c)) = true /\
                           sr_profit spin = (sr_win_amount spin - sr_bet_amount spin)%Q)
                        (SessionController.spin_history_ c0) /\
                 map sr_spin_number (SessionController.spin_history_ c0)
                 = seqZ 1 (Z.of_nat (length (SessionController.spin_history_ c0))))
              c session_id why stats c')
    as (k & stats_n & c_n & (_ & _ & Hall & Hnum) & _ & Hh & _).
  - intros k stats0 c0 stats1 c1 (Hm & Hp & Hall & Hnum) Hit.
    destruct (iteration_again_detail _ _ _ _ _ _ _ _ _ Hit)
      as (bet & res & _ & Hpos & _ & Hvalid & Hspin & _ & Hhist & Hcfg & _).
    destruct (Spin_result_fields _ _ _ _ _ _ _ Hspin) as (Hc & _ & Hb & Hprofit & _).
    split; [congruence|]. split; [congruence|]. rewrite Hhist. split.
    + apply List.Forall_app. split; [exact Hall|]. constructor; [|constructor].
      cbn [SessionController.with_spin_number sr_bet_amount sr_win_amount sr_profit].
      rewrite Hb. split; [exact Hpos|]. split; [|exact Hprofit].
      unfold SlotMachine.IsValidBet, SlotMachine.GetBetOptions, BasePlayer.GetCurrency
        in Hvalid |- *.
      now rewrite <- Hm, <- Hp.
    + rewrite map_app, Hnum, length_app. cbn [length map]. rewrite Nat.add_1_r, seqZ_S.
      f_equal. cbn [SessionController.with_spin_number sr_spin_number]. f_equal. lia.
  - cbn. repeat split; constructor.
  - exact Hrun.
  - rewrite Hh. split; assumption.
Qed.

Lemma recorded_spins_are_valid_witness :
  map sr_spin_number
    (SessionController.spin_history_
       (snd (SessionController.RunSession RandomPlayer.MakeDecision
               (controller_on losing_machine) "s" 3 300 still_clock)))
  = [1; 2; 3].
Proof.
  pose proof (recorded_spins_are_valid RandomPlayer.MakeDecision
                (controller_on losing_machine) "s" 3 300 still_clock
                SessionController.LimitReached
                (snd (fst (SessionController.RunSession RandomPlayer.MakeDecision
                             (controller_on losing_machine) "s" 3 300 still_clock)))
                (snd (SessionController.RunSession RandomPlayer.MakeDecision
                        (controller_on losing_machine) "s" 3 300 still_clock))
                ltac:(vm_compute; reflexivity))
    as [_ Hnum].
  rewrite Hnum. vm_compute. reflexivity.
Defined.

(** X18.  A session never overdraws the player.  When the player enters
    with a balance that is not negative and the machine's pay table and
    free-spin multiplier are not negative, the balance at the end of the
    session is not negative, however the session ends: a bet is debited only
    when it is within the balance, and a win is never negative. *)
Theorem session_never_overdraws {M : Type}
    (MakeDecision : BasePlayer.t -> M -> string -> SessionData -> PlayerDecision * Rng * M)
    (c : SessionController.t M) (session_id : string) (max_spins : Z) (max_duration : Q)
    (clock : Clock) (why : SessionController.Exit) (stats : SessionStats)
    (c' : SessionController.t M) :
  (0 <= BasePlayer.balance_ (SessionController.player_ c))%Q ->
  (forall sym row p,
     PayTable.pay_table_ (SlotMachine.pay_table_ (SessionController.machine_ c)) !! sym
     = Some row ->
     In p row -> (0 <= p)%Q) ->
  (0 <= free_spins_multiplier (SlotMachine.config_ (SessionController.machine_ c)))%Q ->
  SessionController.RunSession MakeDecision c session_id max_spins max_duration clock
    = (why, stats, c') ->
  (0 <= ss_final_balance stats)%Q /\
  (0 <= BasePlayer.balance_ (SessionController.player_ c'))%Q.
Proof.
  intros Hbal0 Htable Hmult Hrun.
  destruct (RunSession_reaches MakeDecision max_spins max_duration clock
              (fun _ c0 =>
                 SlotMachine.config_ (SessionController.machine_ c0)
                 = SlotMachine.config_ (SessionController.machine_ c) /\
                 SlotMachine.pay_table_ (SessionController.machine_ c0)
                 = SlotMachine.pay_table_ (SessionController.machine_ c) /\
                 (0 <= BasePlayer.balance_ (SessionController.player_ c0))%Q)
              c session_id why stats c')
    as (k & stats_n & c_n & (_ & _ & Hbal) & Hbreak & _ & ->).
  - intros k stats0 c0 stats1 c1 (Hc & Hpt & Hbal) Hit.
    destruct (iteration_again_detail _ _ _ _ _ _ _ _ _ Hit)
      as (bet & res & _ & Hpos & Hle & _ & Hspin & _ & _ & _ & Hbal1).
    destruct (Spin_result_fields _ _ _ _ _ _ _ Hspin) as (Hc1 & Hpt1 & _).
    split; [congruence|]. split; [congruence|].
    assert (Hwin : (0 <= sr_win_amount res)%Q).
    { eapply Spin_win_nonneg; [| | |exact Hspin].
      - rewrite Hpt. exact Htable.
      - rewrite Hc. exact Hmult.
      - apply Qlt_le_weak, Hpos. }
    rewrite Hbal1. lra.
  - cbn. repeat split; try reflexivity. exact Hbal0.
  - exact Hrun.
  - assert (Hfinal : (0 <= BasePlayer.balance_ (SessionController.player_ c'))%Q).
    { pose proof (iteration_break_detail _ _ _ _ _ _ _ _ _ _ Hbreak)
        as (_ & _ & _ & _ & Hcase).
      destruct Hcase as [[_ ->]|[_ (bet & _ & Hle & ->)]]; [exact Hbal | lra]. }
    split; [exact Hfinal | exact Hfinal].
Qed.

Lemma session_never_overdraws_witness :
  (0 <= ss_final_balance
          (snd (fst (SessionController.RunSession RandomPlayer.MakeDecision
                       (controller_on losing_machine) "s" 30 300 still_clock))))%Q.
Proof.
  apply (session_never_overdraws RandomPlayer.MakeDecision
           (controller_on losing_machine) "s" 30 300 still_clock
           (fst (fst (SessionController.RunSession RandomPlayer.MakeDecision
                        (controller_on losing_machine) "s" 30 300 still_clock)))
           (snd (fst (SessionController.RunSession RandomPlayer.MakeDecision
                        (controller_on losing_machine) "s" 30 300 still_clock)))
           (snd (SessionController.RunSession RandomPlayer.MakeDecision
                   (controller_on losing_machine) "s" 30 300 still_clock))).
  - vm_compute. discriminate.
  - intros sym row p Hrow Hin.
    change (PayTable.pay_table_ (SlotMachine.pay_table_
              (SessionController.machine_ (controller_on losing_machine))))
      with table12 in Hrow.
    unfold table12 in Hrow.
    apply lookup_insert_Some in Hrow. destruct Hrow as [[_ <-]|[_ Hrow]].
    + cbn [In] in Hin. destruct Hin as [<-|[<-|[<-|[]]]]; vm_compute; discriminate.
    + apply lookup_singleton_Some in Hrow. destruct Hrow as [_ <-].
      cbn [In] in Hin. destruct Hin as [<-|[<-|[<-|[]]]]; vm_compute; discriminate.
  - vm_compute. discriminate.
  - destruct (SessionController.RunSession _ _ _ _ _ _) as [[? ?] ?]. reflexivity.
Defined.

(** X19.  A session played by the random player never ends on a bet above
    the balance, and it ends on an invalid bet only when the machine offers
    no bet option for the player's currency (the player then bets 1). *)
Theorem random_player_session_exits (c : SessionController.t RandomPlayer.t)
    (session_id : string) (max_spins : Z) (max_duration : Q) (clock : Clock)
    (why : SessionController.Exit) (stats : SessionStats)
    (c' : SessionController.t RandomPlayer.t) :
  SessionController.RunSession RandomPlayer.MakeDecision c session_id max_spins
    max_duration clock = (why, stats, c') ->
  why <> SessionController.InsufficientBalance /\
  (why = SessionController.InvalidBet ->
   SlotMachine.GetBetOptions (SessionController.machine_ c)
     (BasePlayer.GetCurrency (SessionController.player_ c)) = []).
Proof.
  intros Hrun.
  destruct (RunSession_reaches RandomPlayer.MakeDecision max_spins max_duration clock
              (fun _ c0 =>
                 SlotMachine.config_ (SessionController.machine_ c0)
                 = SlotMachine.config_ (SessionController.machine_ c) /\
                 BasePlayer.config_ (SessionController.player_ c0)
                 = BasePlayer.config_ (SessionController.player_ c))
              c session_id why stats c')
    as (k & stats_n & c_n & (Hm & Hp) & Hbreak & _ & _).
  - intros k stats0 c0 stats1 c1 (Hm & Hp) Hit.
    destruct (iteration_again_detail _ _ _ _ _ _ _ _ _ Hit)
      as (bet & res & _ & _ & _ & _ & Hspin & _ & _ & Hcfg & _).
    destruct (Spin_result_fields _ _ _ _ _ _ _ Hspin) as (Hc & _).
    split; congruence.
  - split; reflexivity.
  - exact Hrun.
  - unfold SlotMachine.GetBetOptions, BasePlayer.GetCurrency. rewrite <- Hm, <- Hp.
    clear Hrun Hm Hp. revert Hbreak.
    unfold SessionController.iteration.
    destruct (negb (BasePlayer.IsActive _)).
    { intros H. injection H. intros. subst why. split; discriminate. }
    destruct (SessionController.CheckSessionLimits _ _ _ _).
    { intros H. injection H. intros. subst why. split; discriminate. }
    pose proof (random_bet_admissible (SessionController.player_ c_n)
                  (SessionController.model_ c_n) (SessionController.GetMachineId c_n)
                  (SessionController.PrepareSessionData c_n)) as Hbet.
    destruct (RandomPlayer.MakeDecision _ _ _ _) as [[decision rng'] model'].
    cbn [fst] in Hbet.
    destruct (negb (pd_continue_playing decision) || fle (pd_bet_amount decision) 0) eqn:Hend.
    { intros H. injection H. intros. subst why. split; discriminate. }
    apply orb_false_iff in Hend. destruct Hend as [Hcont _].
    apply negb_false_iff in Hcont. specialize (Hbet Hcont).
    cbn [SessionController.PrepareSessionData sd_available_bets] in Hbet.
    unfold SlotMachine.IsValidBet, BasePlayer.GetBalance, BasePlayer.GetCurrency,
      BasePlayer.with_rng, SlotMachine.GetBetOptions in *.
    cbn [SessionController.machine_ SessionController.player_ BasePlayer.config_
         BasePlayer.balance_].
    destruct Hbet as [[Hin Hle]|[Hnil H1]].
    + match goal with
      | |- context [negb (existsb ?f ?l)] => assert (Hvalid : existsb f l = true)
      end.
      { apply existsb_exists. exists (pd_bet_amount decision).
        split; [exact Hin | apply feq_spec; reflexivity]. }
      rewrite Hvalid. cbn [negb].
      assert (Hbal : flt (BasePlayer.balance_ (SessionController.player_ c_n))
                       (pd_bet_amount decision) = false) by (apply flt_false, Hle).
      rewrite Hbal.
      destruct (SessionController.ExecuteSpin _ _ _ _) as [c2|[stats2 c2]];
        intros H; [|discriminate].
      injection H. intros. subst why. split; discriminate.
    + rewrite Hnil. cbn [existsb negb].
      intros H. injection H. intros. subst why. split; [discriminate | reflexivity].
Qed.

Lemma random_player_session_exits_witness :
  fst (fst (SessionController.RunSession RandomPlayer.MakeDecision
              (controller_on losing_machine) "s" 30 300 still_clock))
  <> SessionController.InsufficientBalance.
Proof.
  apply (random_player_session_exits (controller_on losing_machine) "s" 30 300 still_clock
           (fst (fst (SessionController.RunSession RandomPlayer.MakeDecision
                        (controller_on losing_machine) "s" 30 300 still_clock)))
           (snd (fst (SessionController.RunSession RandomPlayer.MakeDecision
                        (controller_on losing_machine) "s" 30 300 still_clock)))
           (snd (SessionController.RunSession RandomPlayer.MakeDecision
                   (controller_on losing_machine) "s" 30 300 still_clock))).
  destruct (SessionController.RunSession _ _ _ _ _ _) as [[? ?] ?]. reflexivity.
Defined.

(** ** The thread pool: no task is lost or run twice *)

Lemma concat_insert_perm {A} (qs : list (list A)) (i : nat) (q q' : list A) :
  qs !! i = Some q ->
  Permutation (q ++ concat (<[i := q']> qs)) (q' ++ concat qs).
Proof.
  revert i. induction qs as [|q0 qs IH]; intros [|i] H; try discriminate H.
  - cbn in H. injection H as ->. cbn [concat]. cbn.
    rewrite !app_assoc. apply Permutation_app_tail, Permutation_app_comm.
  - cbn in H. cbn [concat]. change (<[S i := q']> (q0 :: qs)) with (q0 :: <[i := q']> qs).
    cbn [concat]. specialize (IH i H).
    rewrite !app_assoc.
    rewrite (Permutation_app_comm q q0), (Permutation_app_comm q' q0).
    rewrite <- !app_assoc. now apply Permutation_app_head.
Qed.

Lemma flat_map_insert_perm {A B} (f : A -> list B) (l : list A) (i : nat) (x x' : A) :
  l !! i = Some x ->
  Permutation (f x ++ flat_map f (<[i := x']> l)) (f x' ++ flat_map f l).
Proof.
  revert i. induction l as [|x0 l IH]; intros [|i] H; try discriminate H.
  - cbn in H. injection H as ->. cbn.
    rewrite !app_assoc. apply Permutation_app_tail, Permutation_app_comm.
  - cbn in H. change (<[S i := x']> (x0 :: l)) with (x0 :: <[i := x']> l).
    cbn [flat_map]. specialize (IH i H).
    rewrite !app_assoc.
    rewrite (Permutation_app_comm (f x) (f x0)), (Permutation_app_comm (f x') (f x0)).
    rewrite <- !app_assoc. now apply Permutation_app_head.
Qed.

Lemma PopBack_Some (q : list ThreadPool.Task) task q' :
  ThreadPool.PopBack q = Some (task, q') -> q = q' ++ [task].
Proof.
  unfold ThreadPool.PopBack. destruct (rev q) as [|item rest] eqn:E; [discriminate|].
  intros H. injection H as <- <-.
  rewrite <- (rev_involutive q), E. reflexivity.
Qed.

Lemma default_lookup_nil {A} (qs : list (list A)) (i : nat) (x : A) (q : list A) :
  default [] (qs !! i) = x :: q -> qs !! i = Some (x :: q).
Proof. destruct (qs !! i); cbn; [congruence | discriminate]. Qed.

Lemma SubmitBatch_loop_length queues thread_idx tasks :
  length (ThreadPool.SubmitBatch_loop queues thread_idx tasks) = length queues.
Proof.
  revert queues thread_idx. induction tasks as [|task rest IH]; intros queues thread_idx;
    cbn [ThreadPool.SubmitBatch_loop]; [reflexivity|].
  cbv zeta. rewrite IH. apply length_insert.
Qed.

Lemma SubmitBatch_loop_perm queues thread_idx tasks :
  (0 < length queues)%nat ->
  Permutation (concat (ThreadPool.SubmitBatch_loop queues thread_idx tasks))
              (concat queues ++ tasks).
Proof.
  revert queues thread_idx. induction tasks as [|task rest IH]; intros queues thread_idx Hn;
    cbn [ThreadPool.SubmitBatch_loop].
  - now rewrite app_nil_r.
  - cbv zeta. rewrite IH by (rewrite length_insert; exact Hn).
    assert (Hi : (thread_idx mod length queues < length queues)%nat)
      by (apply Nat.mod_upper_bound; lia).
    destruct (lookup_lt_is_Some_2 queues _ Hi) as [q Hq].
    rewrite Hq. cbn [default from_option id]. unfold ThreadPool.PushBack.
    pose proof (concat_insert_perm queues _ q (q ++ [task]) Hq) as Hperm.
    apply (Permutation_app_inv_l q).
    rewrite app_assoc, Hperm. rewrite <- !app_assoc. apply Permutation_app_head.
    cbn [app]. apply Permutation_middle.
Qed.

(** A step of a worker moves a task between the deques, the workers and the
    executed list, or moves nothing. *)
Lemma worker_step_conserves (st st' : ThreadPool.State) (w : nat) :
  ThreadPool.worker_step st w = Some st' ->
  Permutation (tasks_of st') (tasks_of st) /\
  length (ThreadPool.queues_ st') = length (ThreadPool.queues_ st) /\
  ThreadPool.shutdown_ st' = ThreadPool.shutdown_ st /\
  ThreadPool.total_tasks_ st' - Z.of_nat (length (ThreadPool.executed st'))
  = ThreadPool.total_tasks_ st - Z.of_nat (length (ThreadPool.executed st)).
Proof.
  unfold ThreadPool.worker_step, tasks_of.
  destruct (ThreadPool.workers_ st !! w) as [pc|] eqn:Hpc; [|discriminate].
  pose proof (fun pc' => flat_map_insert_perm pc_task (ThreadPool.workers_ st) w pc pc' Hpc)
    as Hworkers.
  destruct pc as [| |attempts| |task|]; cbn [pc_task app] in Hworkers.
  - destruct (ThreadPool.shutdown_ st) eqn:Hsh; intros H; injection H as <-; cbn;
      (split; [|repeat split; assumption]).
    + now rewrite (Hworkers ThreadPool.Exited).
    + now rewrite (Hworkers ThreadPool.AtLocal).
  - destruct (ThreadPool.PopBack _) as [[task q']|] eqn:Hpop; intros H; injection H as <-;
      cbn.
    + split; [|split; [apply length_insert | split; reflexivity]].
      apply PopBack_Some in Hpop.
      destruct (ThreadPool.queues_ st !! w) as [q|] eqn:Hq; cbn in Hpop;
        [|destruct q'; discriminate Hpop].
      subst q.
      pose proof (concat_insert_perm (ThreadPool.queues_ st) w (q' ++ [task]) q' Hq) as Hqs.
      assert (Hqs' : Permutation (concat (ThreadPool.queues_ st))
                       (task :: concat (<[w := q']> (ThreadPool.queues_ st)))).
      { apply (Permutation_app_inv_l q'). rewrite <- Hqs. solve_Permutation. }
      rewrite (Hworkers (ThreadPool.Running task)), Hqs'. cbn [pc_task].
      solve_Permutation.
    + split; [|repeat split]. now rewrite (Hworkers (ThreadPool.AtSteal 0)).
  - destruct (attempts <? ThreadPool.thread_count_ st - 1).
    + cbv zeta. set (target := Z.to_nat _).
      destruct (ThreadPool.PopFront _) as [[task q']|] eqn:Hpop; intros H;
        injection H as <-; cbn.
      * split; [|split; [apply length_insert | split; reflexivity]].
        unfold ThreadPool.PopFront in Hpop.
        destruct (default [] (ThreadPool.queues_ st !! target)) as [|item rest] eqn:Hq;
          [discriminate|].
        injection Hpop as -> ->. apply default_lookup_nil in Hq.
        pose proof (concat_insert_perm (ThreadPool.queues_ st) target (task :: q') q' Hq)
          as Hqs.
        assert (Hqs' : Permutation (concat (ThreadPool.queues_ st))
                         (task :: concat (<[target := q']> (ThreadPool.queues_ st)))).
        { apply (Permutation_app_inv_l q'). rewrite <- Hqs. solve_Permutation. }
        rewrite (Hworkers (ThreadPool.Running task)), Hqs'. cbn [pc_task].
        solve_Permutation.
      * split; [|repeat split]. now rewrite (Hworkers (ThreadPool.AtSteal (attempts + 1))).
    + intros H; injection H as <-; cbn. split; [|repeat split].
      now rewrite (Hworkers ThreadPool.AtWait).
  - intros H; injection H as <-; cbn. split; [|repeat split].
    now rewrite (Hworkers ThreadPool.AtCheck).
  - intros H; injection H as <-; cbn. split; [|split; [reflexivity | split; [reflexivity|]]].
    + pose proof (Hworkers ThreadPool.AtCheck) as Hws. cbn [pc_task app] in Hws.
      rewrite <- Hws. rewrite map_app. cbn [map snd].
      solve_Permutation.
    + rewrite length_app. cbn [length]. lia.
  - discriminate.
Qed.

Lemma run_conserves (events : list ThreadPool.Event) :
  forall st st' : ThreadPool.State,
    (0 < length (ThreadPool.queues_ st))%nat ->
    ThreadPool.run st events = Some st' ->
    Permutation (tasks_of st') (tasks_of st ++ accepted (ThreadPool.shutdown_ st) events) /\
    ThreadPool.total_tasks_ st' - Z.of_nat (length (ThreadPool.executed st'))
    = ThreadPool.total_tasks_ st - Z.of_nat (length (ThreadPool.executed st))
      - Z.of_nat (thrown events).
Proof.
  unfold thrown.
  induction events as [|e rest IH]; intros st st' Hn H; cbn [ThreadPool.run] in H.
  - injection H as <-. cbn [accepted List.filter length]. rewrite app_nil_r.
    split; [reflexivity | lia].
  - destruct (ThreadPool.step st e) as [st1|] eqn:Hstep; [|discriminate].
    destruct e as [w|tasks| |w]; cbn [ThreadPool.step] in Hstep;
      cbn [accepted List.filter length].
    + apply worker_step_conserves in Hstep. destruct Hstep as (Hperm & Hlen & Hsh & Htot).
      destruct (IH st1 st' ltac:(lia) H) as [Hp Ht].
      rewrite Hsh in Hp. split; [|lia]. now rewrite Hp, Hperm.
    + injection Hstep as <-. unfold ThreadPool.SubmitBatch in H.
      destruct (ThreadPool.shutdown_ st) eqn:Hsh.
      * destruct (IH st st' Hn H) as [Hp Ht]. rewrite Hsh in Hp. now split.
      * match type of H with
        | ThreadPool.run ?s _ = _ => destruct (IH s st') as [Hp Ht]
        end.
        { cbn. now rewrite SubmitBatch_loop_length. }
        { exact H. }
        cbn in Hp, Ht. split; [|exact Ht].
        rewrite Hp. unfold tasks_of. cbn.
        rewrite (SubmitBatch_loop_perm _ _ _ Hn).
        solve_Permutation.
    + injection Hstep as <-. unfold ThreadPool.Shutdown in H.
      destruct (ThreadPool.shutdown_ st) eqn:Hsh.
      * destruct (IH st st' Hn H) as [Hp Ht]. rewrite Hsh in Hp. now split.
      * match type of H with
        | ThreadPool.run ?s _ = _ => destruct (IH s st' Hn H) as [Hp Ht]
        end.
        cbn in Hp, Ht. split; assumption.
    + apply worker_fail_as_step in Hstep.
      destruct Hstep as (st2 & Hstep & Hsh2 & Hqs & Hws & Hex & Hcount).
      apply worker_step_conserves in Hstep. destruct Hstep as (Hperm & Hlen & Hsh & Htot).
      destruct (IH st1 st' ltac:(rewrite Hqs; lia) H) as [Hp Ht].
      assert (Htasks : tasks_of st1 = tasks_of st2)
        by (unfold tasks_of; now rewrite Hqs, Hws, Hex).
      rewrite Hsh2, Hsh, Htasks in Hp. split; [now rewrite Hp, Hperm|].
      rewrite Hex in Ht. cbn [length]. lia.
Qed.

(** X20.  The thread pool neither loses nor duplicates a task.  In every
    state a pool of at least one worker reaches by worker steps, tasks that
    return or throw, batch submissions and shutdown requests, the tasks
    waiting in the deques, being run and already run are, taken together,
    exactly the tasks of the batches submitted before the first shutdown
    request; the counter of completed tasks is the number of tasks run minus
    the number of those that threw; and when the submitted tasks are
    pairwise distinct no task is run twice. *)
Theorem pool_conserves_tasks (thread_count : nat) (events : list ThreadPool.Event)
    (st : ThreadPool.State) :
  (0 < thread_count)%nat ->
  ThreadPool.run (ThreadPool.new thread_count) events = Some st ->
  Permutation (tasks_of st) (accepted false events) /\
  ThreadPool.total_tasks_ st
  = Z.of_nat (length (ThreadPool.executed st)) - Z.of_nat (thrown events) /\
  (NoDup (accepted false events) -> NoDup (map snd (ThreadPool.executed st))).
Proof.
  intros Hn Hrun.
  destruct (run_conserves events (ThreadPool.new thread_count) st) as [Hperm Htot].
  { cbn. now rewrite length_replicate. }
  { exact Hrun. }
  assert (Hnew : tasks_of (ThreadPool.new thread_count) = []).
  { unfold tasks_of. cbn. rewrite app_nil_r.
    clear. induction thread_count as [|n IH]; [reflexivity|]. cbn.
    apply app_eq_nil in IH. destruct IH as [-> ->]. reflexivity. }
  rewrite Hnew in Hperm. cbn in Hperm, Htot.
  split; [exact Hperm|]. split; [lia|].
  intros Hnodup. rewrite <- Hperm in Hnodup. unfold tasks_of in Hnodup.
  apply NoDup_app in Hnodup. destruct Hnodup as (_ & _ & Hnodup).
  apply NoDup_app in Hnodup. destruct Hnodup as (_ & _ & Hnodup). exact Hnodup.
Qed.

(** Of two tasks run, one threw: the counter stands at 1. *)
Lemma pool_conserves_tasks_witness :
  exists st,
    ThreadPool.run (ThreadPool.new 2) one_task_throws = Some st /\
    Permutation (tasks_of st) [0; 1]%nat /\
    length (ThreadPool.executed st) = 2%nat /\
    ThreadPool.total_tasks_ st = 1.
Proof.
  destruct (ThreadPool.run (ThreadPool.new 2) one_task_throws) as [st|] eqn:E;
    [|vm_compute in E; discriminate E].
  exists st. split; [reflexivity|].
  destruct (pool_conserves_tasks 2 one_task_throws st ltac:(lia) E) as (Hperm & Hcount & _).
  split; [exact Hperm|].
  assert (Hlen : length (ThreadPool.executed st) = 2%nat)
    by (vm_compute in E; injection E as <-; reflexivity).
  split; [exact Hlen|]. rewrite Hcount, Hlen. reflexivity.
Defined.

(** ** The thread pool: a batch is dealt round-robin *)

Lemma SubmitBatch_loop_snoc queues thread_idx tasks task :
  ThreadPool.SubmitBatch_loop queues thread_idx (tasks ++ [task])
  = <[ ((thread_idx + length tasks) mod length queues)%nat :=
         ThreadPool.PushBack
           (default [] (ThreadPool.SubmitBatch_loop queues thread_idx tasks
                        !! ((thread_idx + length tasks) mod length queues)%nat))
           task ]>
      (ThreadPool.SubmitBatch_loop queues thread_idx tasks).
Proof.
  revert queues thread_idx. induction tasks as [|t0 rest IH]; intros queues thread_idx;
    cbn [app ThreadPool.SubmitBatch_loop length].
  - now rewrite Nat.add_0_r.
  - cbv zeta. rewrite IH, length_insert.
    now replace (S thread_idx + length rest)%nat with (thread_idx + S (length rest))%nat by lia.
Qed.

Lemma succ_div_mod (n k : nat) :
  (0 < n)%nat ->
  ((k mod n = n - 1 /\ S k mod n = 0 /\ S k / n = S (k / n)) \/
   (k mod n < n - 1 /\ S k mod n = S (k mod n) /\ S k / n = k / n))%nat.
Proof.
  intros Hn.
  pose proof (Nat.div_mod_eq k n) as Hk.
  pose proof (Nat.mod_upper_bound k n ltac:(lia)) as Hr.
  destruct (Nat.eq_dec (k mod n)%nat (n - 1)%nat) as [E|E].
  - left. split; [exact E|].
    assert (H : (S k = n * S (k / n) + 0)%nat) by nia.
    split.
    + symmetry. apply (Nat.mod_unique (S k) n (S (k / n)) 0); [lia | exact H].
    + symmetry. apply (Nat.div_unique (S k) n (S (k / n)) 0); [lia | exact H].
  - right. split; [lia|].
    assert (H : (S k = n * (k / n) + S (k mod n))%nat) by lia.
    split.
    + symmetry. apply (Nat.mod_unique (S k) n (k / n) (S (k mod n))); [lia | exact H].
    + symmetry. apply (Nat.div_unique (S k) n (k / n) (S (k mod n))); [lia | exact H].
Qed.

Lemma SubmitBatch_loop_deal (n : nat) (tasks : list ThreadPool.Task) :
  (0 < n)%nat ->
  (forall j, (j < length tasks)%nat ->
     default [] (ThreadPool.SubmitBatch_loop (replicate n []) 0 tasks !! (j mod n)%nat)
       !! (j / n)%nat
     = tasks !! j) /\
  (forall i, (i < n)%nat ->
     length (default [] (ThreadPool.SubmitBatch_loop (replicate n []) 0 tasks !! i))
     = (length tasks / n + if i <? length tasks mod n then 1 else 0)%nat).
Proof.
  intros Hn. induction tasks as [|task tasks IH] using rev_ind.
  - split; [intros j Hj; cbn in Hj; lia|].
    intros i Hi. cbn [ThreadPool.SubmitBatch_loop length].
    rewrite lookup_replicate_2 by exact Hi. cbn.
    rewrite Nat.Div0.div_0_l, Nat.Div0.mod_0_l. reflexivity.
  - destruct IH as [IHat IHlen].
    rewrite SubmitBatch_loop_snoc, length_replicate, Nat.add_0_l, length_app.
    cbn [length]. rewrite Nat.add_1_r.
    set (Q := ThreadPool.SubmitBatch_loop (replicate n []) 0 tasks) in *.
    set (k := length tasks) in *.
    assert (HQ : length Q = n).
    { unfold Q. now rewrite SubmitBatch_loop_length, length_replicate. }
    assert (Hr : (k mod n < n)%nat) by (apply Nat.mod_upper_bound; lia).
    unfold ThreadPool.PushBack.
    split.
    + intros j Hj.
      assert (Hjr : (j mod n < n)%nat) by (apply Nat.mod_upper_bound; lia).
      destruct (Nat.eq_dec j k) as [->|Hne].
      * rewrite list_lookup_insert_eq by lia. cbn.
        pose proof (IHlen (k mod n)%nat Hr) as Hlen.
        rewrite Nat.ltb_irrefl, Nat.add_0_r in Hlen.
        rewrite lookup_app_r by lia. rewrite Hlen, Nat.sub_diag.
        unfold k. rewrite lookup_app_r by lia. now rewrite Nat.sub_diag.
      * assert (Hlt : (j < k)%nat) by lia.
        specialize (IHat j Hlt).
        rewrite lookup_app_l by exact Hlt. rewrite <- IHat.
        destruct (Nat.eq_dec (j mod n)%nat (k mod n)%nat) as [E|E].
        -- rewrite E, list_lookup_insert_eq by lia. cbn.
           rewrite E in IHat.
           apply lookup_app_l. eapply lookup_lt_is_Some_1.
           rewrite IHat. apply lookup_lt_is_Some_2. exact Hlt.
        -- now rewrite list_lookup_insert_ne by congruence.
    + intros i Hi. specialize (IHlen i Hi).
      assert (Hlen' :
        length (default [] (<[(k mod n)%nat := default [] (Q !! (k mod n)%nat) ++ [task]]> Q
                            !! i))
        = (length (default [] (Q !! i)) + if Nat.eq_dec i (k mod n)%nat then 1 else 0)%nat).
      { destruct (Nat.eq_dec i (k mod n)%nat) as [->|E].
        - rewrite list_lookup_insert_eq by lia. cbn [from_option id].
          rewrite length_app. reflexivity.
        - rewrite list_lookup_insert_ne by congruence. lia. }
      rewrite Hlen', IHlen.
      destruct (succ_div_mod n k Hn) as [(Hm & Hm' & Hd)|(Hm & Hm' & Hd)]; rewrite Hm', Hd;
        destruct (Nat.eq_dec i (k mod n)%nat);
        repeat match goal with
               | |- context [(?a <? ?b)%nat] => destruct (Nat.ltb_spec a b)
               end; lia.
Qed.

(** X21.  A batch submitted to a pool whose deques are empty is dealt
    round-robin: the j-th task of the batch is the (j / n)-th entry of the
    deque of worker j mod n, so each deque holds its tasks in submission
    order, and the deque of worker i holds [k / n] tasks, plus one when
    [i < k mod n], for a batch of [k] tasks and [n] workers: the sizes of
    any two deques differ by at most one. *)
Theorem SubmitBatch_deals_round_robin (thread_count : nat) (tasks : list ThreadPool.Task) :
  (0 < thread_count)%nat ->
  (forall j, (j < length tasks)%nat ->
     ThreadPool.queue_of (ThreadPool.SubmitBatch (ThreadPool.new thread_count) tasks)
       (j mod thread_count)%nat !! (j / thread_count)%nat
     = tasks !! j) /\
  (forall i, (i < thread_count)%nat ->
     length (ThreadPool.queue_of
               (ThreadPool.SubmitBatch (ThreadPool.new thread_count) tasks) i)
     = (length tasks / thread_count
        + if i <? length tasks mod thread_count then 1 else 0)%nat).
Proof.
  intros Hn. unfold ThreadPool.queue_of, ThreadPool.SubmitBatch, ThreadPool.new.
  cbn [ThreadPool.shutdown_ ThreadPool.queues_].
  apply SubmitBatch_loop_deal, Hn.
Qed.

Lemma SubmitBatch_deals_round_robin_witness :
  ThreadPool.queue_of (ThreadPool.SubmitBatch (ThreadPool.new 2) [10; 11; 12; 13; 14]%nat)
    (3 mod 2)%nat !! (3 / 2)%nat
  = Some 13%nat.
Proof.
  apply (proj1 (SubmitBatch_deals_round_robin 2 [10; 11; 12; 13; 14]%nat ltac:(lia)) 3%nat).
  cbn. lia.
Defined.

(** ** Construction of reel sets and machines *)

Lemma sorted_names_Permutation (reels_config : gmap string (list Z)) :
  Permutation (sorted_names reels_config) (map fst (map_to_list reels_config)).
Proof. apply merge_sort_Permutation. Qed.

Lemma sorted_names_In (reels_config : gmap string (list Z)) (name : string) :
  In name (sorted_names reels_config) <-> is_Some (reels_config !! name).
Proof.
  rewrite <- list_elem_of_In, sorted_names_Permutation.
  change (map fst (map_to_list reels_config)) with ((map_to_list reels_config).*1).
  rewrite list_elem_of_fmap. split.
  - intros ([name' symbols] & -> & Hin). apply elem_of_map_to_list in Hin. eauto.
  - intros [symbols Hsym]. exists (name, symbols). split; [reflexivity|].
    now apply elem_of_map_to_list.
Qed.

Lemma sorted_names_NoDup (reels_config : gmap string (list Z)) :
  NoDup (sorted_names reels_config).
Proof.
  rewrite sorted_names_Permutation. apply NoDup_fst_map_to_list.
Qed.

Lemma sorted_names_Sorted (reels_config : gmap string (list Z)) :
  Sorted name_le (sorted_names reels_config).
Proof.
  apply Sorted_merge_sort. intros a b. apply String.leb_total.
Qed.

Lemma sorted_names_nil (reels_config : gmap string (list Z)) :
  sorted_names reels_config = [] <-> reels_config = ∅.
Proof.
  split.
  - intros Hnil. apply map_eq. intros name. rewrite lookup_empty.
    destruct (reels_config !! name) as [symbols|] eqn:E; [|reflexivity].
    assert (Hin : In name (sorted_names reels_config)) by (apply sorted_names_In; eauto).
    rewrite Hnil in Hin. destruct Hin.
  - intros ->. unfold sorted_names. rewrite map_to_list_empty. reflexivity.
Qed.

Lemma build_reels_spec (reels_config : gmap string (list Z)) (names : list string) :
  (forall name, In name names -> is_Some (reels_config !! name)) ->
  match build_reels reels_config names with
  | None => exists name, In name names /\ reels_config !! name = Some []
  | Some reels =>
      reels = map (fun name => default [] (reels_config !! name)) names /\
      Forall (fun reel => reel <> []) reels
  end.
Proof.
  induction names as [|name rest IH]; intros Hall; cbn [build_reels map].
  - split; [reflexivity | constructor].
  - destruct (Hall name ltac:(now left)) as [symbols Hsym]. rewrite Hsym. cbn [default].
    specialize (IH (fun n Hn => Hall n (or_intror Hn))).
    destruct symbols as [|x symbols]; cbn [Reel_new].
    + exists name. split; [now left | exact Hsym].
    + destruct (build_reels reels_config rest) as [reels|].
      * destruct IH as [-> Hne]. split; [reflexivity|]. constructor; [discriminate | exact Hne].
      * destruct IH as (n & Hin & Hn). exists n. split; [now right | exact Hn].
Qed.

Lemma ReelSet_new_None_iff (reels_config : gmap string (list Z)) (window : Z) :
  ReelSet_new reels_config window = None <->
  reels_config = ∅ \/ exists name, reels_config !! name = Some [].
Proof.
  unfold ReelSet_new.
  pose proof (build_reels_spec reels_config (sorted_names reels_config)
                (fun name => proj1 (sorted_names_In reels_config name))) as Hspec.
  destruct (build_reels reels_config (sorted_names reels_config)) as [[|reel reels]|].
  - destruct Hspec as [Hmap _]. symmetry in Hmap. apply map_eq_nil in Hmap.
    apply sorted_names_nil in Hmap. split; [now left | reflexivity].
  - destruct Hspec as [Hmap Hne]. split; [discriminate|].
    intros [->|[name Hname]]; exfalso.
    + unfold sorted_names in Hmap. rewrite map_to_list_empty in Hmap. discriminate Hmap.
    + assert (Hin : In name (sorted_names reels_config)) by (apply sorted_names_In; eauto).
      apply (in_map (fun name => default [] (reels_config !! name))) in Hin.
      rewrite <- Hmap, Hname in Hin. cbn [default] in Hin.
      rewrite List.Forall_forall in Hne. now apply (Hne [] Hin).
  - destruct Hspec as (name & _ & Hname). split; [eauto | reflexivity].
Qed.

Lemma ReelSet_new_Some (reels_config : gmap string (list Z)) (window : Z) (rs : ReelSet) :
  ReelSet_new reels_config window = Some rs ->
  window_size_ rs = window /\
  reels_ rs = map (fun name => default [] (reels_config !! name)) (sorted_names reels_config) /\
  Forall (fun reel => reel <> []) (reels_ rs) /\
  reels_ rs <> [].
Proof.
  unfold ReelSet_new.
  pose proof (build_reels_spec reels_config (sorted_names reels_config)
                (fun name => proj1 (sorted_names_In reels_config name))) as Hspec.
  destruct (build_reels reels_config (sorted_names reels_config)) as [[|reel reels]|];
    try discriminate.
  intros H. injection H as <-. cbn [window_size_ reels_].
  destruct Hspec as [Hmap Hne]. repeat split; try assumption. discriminate.
Qed.

(** X22.  The constructor of a reel set orders the strips by name.  It
    fails exactly when no strip is configured or some strip is empty;
    otherwise the reels are the configured strips, each once, in ascending
    byte-wise order of their names, whatever the iteration order of the
    configuration map, and the window size is the one given. *)
Theorem ReelSet_new_orders_strips_by_name (reels_config : gmap string (list Z))
    (window : Z) :
  (ReelSet_new reels_config window = None <->
   reels_config = ∅ \/ exists name, reels_config !! name = Some []) /\
  (forall rs, ReelSet_new reels_config window = Some rs ->
     window_size_ rs = window /\
     reels_ rs
     = map (fun name => default [] (reels_config !! name)) (sorted_names reels_config)) /\
  Sorted name_le (sorted_names reels_config) /\
  NoDup (sorted_names reels_config) /\
  (forall name, In name (sorted_names reels_config) <-> is_Some (reels_config !! name)).
Proof.
  split; [apply ReelSet_new_None_iff|]. split.
  - intros rs Hrs. destruct (ReelSet_new_Some _ _ _ Hrs) as (Hw & Hreels & _).
    now split.
  - split; [apply sorted_names_Sorted|]. split; [apply sorted_names_NoDup|].
    apply sorted_names_In.
Qed.




(** Names are compared as byte strings, not as numbers: the strip [reel10]
    comes before [reel2]. *)
Example ReelSet_new_lexicographic :
  ReelSet_new {[ "reel1"%string := [1]; "reel2"%string := [2]; "reel10"%string := [10] ]} 3
  = Some (mkReelSet [[1]; [10]; [2]] 3).
Proof. vm_compute. reflexivity. Qed.

(** ** Task generation *)

Lemma add_task_adds machine_config player_config sim (st : list SessionTask.t * Z)
    (session_num : Z) :
  0 <= snd st -> snd st + 1 <= INT_MAX ->
  adds_tasks sim
    [(machine_id machine_config, model_version player_config, cluster_id player_config,
      session_num)]
    st (TaskDistributor.add_task machine_config player_config sim st session_num).
Proof.
  destruct st as [tasks task_id]. cbn [snd]. intros H0 Hmax.
  unfold adds_tasks, TaskDistributor.add_task. cbn [fst snd length].
  rewrite wrap32_id by (unfold INT_MIN, INT_MAX in *; lia).
  split; [lia|]. rewrite !map_app. cbn [map]. split; [|split].
  - f_equal.
  - reflexivity.
  - intros Hall. apply List.Forall_app. split; [exact Hall|]. now constructor.
Qed.

(** A loop whose body adds the tasks of [keys_of x] adds those of all its
    items, in order. *)
Lemma fold_adds_tasks {X} (sim : SimulationConfig)
    (body : list SessionTask.t * Z -> X -> list SessionTask.t * Z)
    (keys_of : X -> list (string * string * string * Z)) (items : list X) :
  (forall st x,
     0 <= snd st -> snd st + Z.of_nat (length (keys_of x)) <= INT_MAX ->
     adds_tasks sim (keys_of x) st (body st x)) ->
  forall st,
    0 <= snd st -> snd st + Z.of_nat (length (flat_map keys_of items)) <= INT_MAX ->
    adds_tasks sim (flat_map keys_of items) st (fold_left body items st).
Proof.
  intros Hbody. induction items as [|x items IH]; intros st H0 Hmax;
    cbn [flat_map fold_left].
  - unfold adds_tasks. cbn [length]. rewrite !app_nil_r. repeat split; [lia | auto].
  - cbn [flat_map] in Hmax. rewrite length_app in Hmax.
    destruct (Hbody st x H0 ltac:(lia)) as (Hid & Hids & Hkeys & Hsim).
    destruct (IH (body st x) ltac:(lia) ltac:(lia)) as (Hid' & Hids' & Hkeys' & Hsim').
    unfold adds_tasks. rewrite length_app, Hid', Hids', Hkeys', Hid, Hids, Hkeys.
    split; [lia|]. split; [|split].
    + rewrite <- app_assoc. f_equal. rewrite Nat2Z.inj_add.
      rewrite (seqZ_app (snd st)) by lia. reflexivity.
    + now rewrite <- app_assoc.
    + auto.
Qed.

Lemma flat_map_singleton {A B} (f : A -> B) (l : list A) :
  flat_map (fun a => [f a]) l = map f l.
Proof. induction l as [|a l IH]; cbn; [reflexivity | now rewrite IH]. Qed.

Lemma generated_keys_length machine_configs player_configs sim :
  Z.of_nat (length (generated_keys machine_configs player_configs sim))
  = Z.of_nat (length machine_configs) * Z.of_nat (length player_configs)
    * Z.max 0 (sessions_per_pair sim).
Proof.
  unfold generated_keys.
  rewrite (flat_map_uniform_length _
             (length player_configs * Z.to_nat (sessions_per_pair sim))).
  - nia.
  - intros machine_config.
    apply flat_map_uniform_length. intros player_config.
    rewrite length_map. apply length_seqZ.
Qed.

(** X24.  [GenerateSessionTasks] makes one task per machine, player and
    session number, machines outermost and session numbers innermost, and
    numbers the tasks 0, 1, 2, ... in that order; every task carries the
    simulation configuration.  There are [machines x players x
    sessions_per_pair] tasks (none when [sessions_per_pair] is not positive).
    This holds as long as the number of tasks fits the 32-bit counter. *)
Theorem GenerateSessionTasks_enumerates_pairs (machine_configs : list MachineConfig)
    (player_configs : list PlayerConfig) (sim : SimulationConfig) :
  Z.of_nat (length machine_configs) * Z.of_nat (length player_configs)
  * Z.max 0 (sessions_per_pair sim) <= INT_MAX ->
  map task_key (TaskDistributor.GenerateSessionTasks machine_configs player_configs sim)
  = generated_keys machine_configs player_configs sim /\
  map SessionTask.task_id
      (TaskDistributor.GenerateSessionTasks machine_configs player_configs sim)
  = seqZ 0 (Z.of_nat (length (TaskDistributor.GenerateSessionTasks
                                machine_configs player_configs sim))) /\
  Z.of_nat (length (TaskDistributor.GenerateSessionTasks machine_configs player_configs sim))
  = Z.of_nat (length machine_configs) * Z.of_nat (length player_configs)
    * Z.max 0 (sessions_per_pair sim) /\
  Forall (fun task => SessionTask.sim_config task = sim)
         (TaskDistributor.GenerateSessionTasks machine_configs player_configs sim).
Proof.
  intros Hfit. rewrite <- generated_keys_length in Hfit.
  unfold TaskDistributor.GenerateSessionTasks.
  assert (Hadds :
    adds_tasks sim (generated_keys machine_configs player_configs sim) ([], 0)
      (fold_left
         (fun st machine_config =>
            fold_left
              (fun st player_config =>
                 fold_left (TaskDistributor.add_task machine_config player_config sim)
                   (seqZ 0 (sessions_per_pair sim)) st)
              player_configs st)
         machine_configs ([], 0))).
  { unfold generated_keys in Hfit |- *. apply fold_adds_tasks; cbn [snd]; [|lia|lia].
    intros st machine_config H0 Hmax.
    apply fold_adds_tasks; [|exact H0|exact Hmax].
    intros st' player_config H0' Hmax'.
    rewrite <- flat_map_singleton in Hmax' |- *.
    apply fold_adds_tasks; [|exact H0'|exact Hmax'].
    intros st'' session_num H0'' Hmax''. apply add_task_adds; [exact H0''|].
    cbn [length] in Hmax''. lia. }
  destruct Hadds as (_ & Hids & Hkeys & Hsim). cbn [fst snd map app] in Hids, Hkeys, Hsim.
  split; [exact Hkeys|].
  assert (Hlen : length (fst (fold_left
         (fun st machine_config =>
            fold_left
              (fun st player_config =>
                 fold_left (TaskDistributor.add_task machine_config player_config sim)
                   (seqZ 0 (sessions_per_pair sim)) st)
              player_configs st)
         machine_configs ([], 0)))
         = length (generated_keys machine_configs player_configs sim)).
  { rewrite <- (length_map task_key), Hkeys. reflexivity. }
  rewrite Hlen. split; [exact Hids|]. split; [apply generated_keys_length|].
  apply Hsim. constructor.
Qed.

Lemma GenerateSessionTasks_enumerates_pairs_witness :
  map SessionTask.task_id
    (TaskDistributor.GenerateSessionTasks
       [config_of [101] 1 [payline5] table12; config_of [101] 3 [] ∅]
       [player_config spread; player_config low_mean; player_config spread]
       (mkSimulationConfig 2 100 300))
  = seqZ 0 12.
Proof.
  refine (eq_trans
    (proj1 (proj2 (GenerateSessionTasks_enumerates_pairs
       [config_of [101] 1 [payline5] table12; config_of [101] 3 [] ∅]
       [player_config spread; player_config low_mean; player_config spread]
       (mkSimulationConfig 2 100 300) _))) _).
  - vm_compute. discriminate.
  - vm_compute. reflexivity.
Defined.

(** ** The instance pool *)

Section InstancePoolBound.

Context {Player Machine : Type}.
Variable CreatePlayer : string -> string -> option Player.
Variable CreateMachine : string -> option Machine.

Local Abbreviation bounded pools :=
  (map_Forall (fun (_ : string) pool => (length pool <= InstancePool.MAX_POOL_SIZE)%nat)
              pools).

Lemma take_or_create_bounded {A} (pools : gmap string (list A)) key create :
  bounded pools -> bounded (snd (InstancePool.take_or_create pools key create)).
Proof.
  intros Hb. unfold InstancePool.take_or_create. cbv zeta.
  destruct (rev (default [] (pools !! key))) as [|instance rest] eqn:Hrev; cbn [snd].
  - apply map_Forall_insert_2; [cbn; lia | exact Hb].
  - apply map_Forall_insert_2; [|exact Hb].
    destruct (pools !! key) as [pool|] eqn:Hpool; cbn in Hrev; [|discriminate Hrev].
    specialize (Hb key pool Hpool). cbn beta in Hb.
    rewrite <- length_rev, Hrev in Hb. cbn [length] in Hb. rewrite length_rev. lia.
Qed.

Lemma keep_or_delete_bounded {A} (pools : gmap string (list A)) key instance :
  bounded pools -> bounded (InstancePool.keep_or_delete pools key instance).
Proof.
  intros Hb. unfold InstancePool.keep_or_delete. cbv zeta.
  destruct instance as [i|]; [|exact Hb].
  destruct (length (default [] (pools !! key)) <? InstancePool.MAX_POOL_SIZE)%nat eqn:Hlt.
  - apply Nat.ltb_lt in Hlt. apply map_Forall_insert_2; [|exact Hb].
    rewrite length_app. cbn [length]. lia.
  - apply map_Forall_insert_2; [|exact Hb].
    destruct (pools !! key) as [pool|] eqn:Hpool; cbn; [|lia].
    exact (Hb key pool Hpool).
Qed.

Lemma take_after_keep {A} (pools : gmap string (list A)) key (instance : A) create :
  (length (default [] (pools !! key)) < InstancePool.MAX_POOL_SIZE)%nat ->
  InstancePool.take_or_create
    (InstancePool.keep_or_delete pools key (Some instance)) key create
  = (Some instance, <[key := default [] (pools !! key)]> pools).
Proof.
  intros Hlt. unfold InstancePool.keep_or_delete, InstancePool.take_or_create. cbv zeta.
  apply Nat.ltb_lt in Hlt. rewrite Hlt.
  rewrite lookup_insert_eq. cbn [default from_option id].
  rewrite rev_app_distr. cbn [rev app]. rewrite rev_involutive.
  now rewrite insert_insert_eq.
Qed.

(** X25.  The instance pool is bounded and reuses instances.  Whatever
    sequence of [GetInstances] and [ReturnInstances] calls is made on a new
    pool, no pool of players or machines ever holds more than
    [MAX_POOL_SIZE = 3] instances.  A pair of instances returned under a key
    whose pools are not full is the pair the next [GetInstances] for that key
    hands out, without calling the factories. *)
Theorem instance_pool_bounded_and_reused :
  (forall calls : list (InstancePool.Call Player Machine),
     bounded
       (InstancePool.player_pools_
          (fold_left (InstancePool.call CreatePlayer CreateMachine) calls InstancePool.new)) /\
     bounded
       (InstancePool.machine_pools_
          (fold_left (InstancePool.call CreatePlayer CreateMachine) calls InstancePool.new))) /\
  (forall (p : InstancePool.t Player Machine) player machine pv pc mid,
     (length (default [] (InstancePool.player_pools_ p !! InstancePool.MakeKey pv pc mid))
      < InstancePool.MAX_POOL_SIZE)%nat ->
     (length (default [] (InstancePool.machine_pools_ p !! InstancePool.MakeKey pv pc mid))
      < InstancePool.MAX_POOL_SIZE)%nat ->
     fst (InstancePool.GetInstances CreatePlayer CreateMachine
            (InstancePool.ReturnInstances p (Some player) (Some machine) pv pc mid)
            pv pc mid)
     = (Some player, Some machine)).
Proof.
  split.
  - intros calls.
    assert (Hgen : forall p : InstancePool.t Player Machine,
              bounded (InstancePool.player_pools_ p) /\
              bounded (InstancePool.machine_pools_ p) ->
              bounded
                (InstancePool.player_pools_
                   (fold_left (InstancePool.call CreatePlayer CreateMachine) calls p)) /\
              bounded
                (InstancePool.machine_pools_
                   (fold_left (InstancePool.call CreatePlayer CreateMachine) calls p))).
    { induction calls as [|c calls IH]; intros p Hp; cbn [fold_left]; [exact Hp|].
      apply IH. destruct Hp as [Hplayers Hmachines].
      destruct c as [pv pc mid|player machine pv pc mid]; cbn [InstancePool.call].
      - unfold InstancePool.GetInstances. cbv zeta.
        pose proof (take_or_create_bounded (InstancePool.player_pools_ p)
                      (InstancePool.MakeKey pv pc mid) (CreatePlayer pv pc) Hplayers) as H1.
        pose proof (take_or_create_bounded (InstancePool.machine_pools_ p)
                      (InstancePool.MakeKey pv pc mid) (CreateMachine mid) Hmachines) as H2.
        destruct (InstancePool.take_or_create (InstancePool.player_pools_ p) _ _).
        destruct (InstancePool.take_or_create (InstancePool.machine_pools_ p) _ _).
        cbn in *. now split.
      - cbn. split; now apply keep_or_delete_bounded. }
    apply Hgen. cbn. split; apply map_Forall_empty.
  - intros p player machine pv pc mid Hplayers Hmachines.
    unfold InstancePool.GetInstances, InstancePool.ReturnInstances. cbv zeta.
    cbn [InstancePool.player_pools_ InstancePool.machine_pools_].
    rewrite !take_after_keep by assumption. reflexivity.
Qed.

End InstancePoolBound.

(** ** The random player's budget over several sessions *)

Lemma RandomPlayer_state_grows (b : BasePlayer.t) (s : RandomPlayer.t) (machine : string)
    (session_data : SessionData) :
  RandomPlayer.session_budget_ (snd (RandomPlayer.MakeDecision b s machine session_data))
  = RandomPlayer.session_budget_ s /\
  (RandomPlayer.session_spent_ s
   <= RandomPlayer.session_spent_
        (snd (RandomPlayer.MakeDecision b s machine session_data)))%Q.
Proof.
  unfold RandomPlayer.MakeDecision.
  destruct (RandomPlayer.ShouldEndSession b s session_data) as [ended rng1].
  destruct ended; [cbn; split; [reflexivity | apply Qle_refl]|].
  destruct (BasePlayer.GetRandomBet _ _) as [bet_amount rng2].
  destruct (fle bet_amount 0) eqn:Hle; [cbn; split; [reflexivity | apply Qle_refl]|].
  destruct (BasePlayer.GetRandomDelay _ _ _) as [delay rng3]. cbn.
  apply fle_false in Hle. split; [reflexivity | lra].
Qed.

Lemma RandomPlayer_exhausted_stops (b : BasePlayer.t) (s : RandomPlayer.t) (machine : string)
    (session_data : SessionData) :
  (RandomPlayer.session_budget_ s <= RandomPlayer.session_spent_ s)%Q ->
  pd_continue_playing (fst (fst (RandomPlayer.MakeDecision b s machine session_data)))
  = false /\
  snd (RandomPlayer.MakeDecision b s machine session_data) = s.
Proof.
  intros Hspent. apply fle_spec in Hspent.
  unfold RandomPlayer.MakeDecision, RandomPlayer.ShouldEndSession.
  destruct (next_draw (BasePlayer.rng_ b)) as [r rng'].
  rewrite Hspent.
  destruct (flt (uniform_real 0 1 r) (RandomPlayer.end_probability_ s));
    [cbn; now split|].
  destruct (RandomPlayer.max_consecutive_losses_ s <=? RandomPlayer.consecutive_losses_ s);
    cbn; now split.
Qed.

(** The members of the subclass after a pass are those before it or those
    the decision left. *)
Lemma iteration_model {M : Type}
    (MakeDecision : BasePlayer.t -> M -> string -> SessionData -> PlayerDecision * Rng * M)
    (max_spins : Z) (max_duration : Q) (clock : Clock) (k : nat) (stats : SessionStats)
    (c : SessionController.t M) :
  match SessionController.iteration MakeDecision max_spins max_duration clock k stats c with
  | SessionController.Break why _ c' =>
      SessionController.model_ c' = SessionController.model_ c \/
      (SessionController.model_ c'
       = snd (MakeDecision (SessionController.player_ c) (SessionController.model_ c)
                (SessionController.GetMachineId c) (SessionController.PrepareSessionData c)))
  | SessionController.Again _ c' =>
      SessionController.model_ c'
      = snd (MakeDecision (SessionController.player_ c) (SessionController.model_ c)
               (SessionController.GetMachineId c) (SessionController.PrepareSessionData c)) /\
      pd_continue_playing
        (fst (fst (MakeDecision (SessionController.player_ c) (SessionController.model_ c)
                     (SessionController.GetMachineId c)
                     (SessionController.PrepareSessionData c)))) = true
  end.
Proof.
  unfold SessionController.iteration.
  destruct (negb (BasePlayer.IsActive _)); [now left|].
  destruct (SessionController.CheckSessionLimits _ _ _ _); [now left|].
  destruct (MakeDecision _ _ _ _) as [[decision rng'] model']. cbn [fst snd].
  destruct (negb (pd_continue_playing decision) || fle (pd_bet_amount decision) 0) eqn:Hend;
    [now right|].
  destruct (negb (SlotMachine.IsValidBet _ _ _)); [now right|].
  destruct (flt _ _); [now right|].
  apply orb_false_iff in Hend. destruct Hend as [Hcont _]. apply negb_false_iff in Hcont.
  unfold SessionController.ExecuteSpin.
  destruct (SlotMachine.Spin _ _ _ _ _) as [[spin_result machine']|]; [|now right].
  match goal with
  | |- context [let '(_, _) := ?p in _] => destruct p as [in_free remaining]
  end.
  cbn. now split.
Qed.

(** X26.  The random player's budget is never restored.  Over a session
    the money counted as spent only grows and the budget stays as configured;
    the player has no reset of its own, so both survive the reset between
    sessions.  Once the money spent has reached the budget, every session
    played with that player instance ends without a spin and leaves the
    player's counters as they are, whatever balance it starts with. *)
Theorem random_player_budget_is_never_restored (c : SessionController.t RandomPlayer.t)
    (session_id : string) (max_spins : Z) (max_duration : Q) (clock : Clock)
    (why : SessionController.Exit) (stats : SessionStats)
    (c' : SessionController.t RandomPlayer.t) :
  SessionController.RunSession RandomPlayer.MakeDecision c session_id max_spins
    max_duration clock = (why, stats, c') ->
  RandomPlayer.session_budget_ (SessionController.model_ c')
  = RandomPlayer.session_budget_ (SessionController.model_ c) /\
  (RandomPlayer.session_spent_ (SessionController.model_ c)
   <= RandomPlayer.session_spent_ (SessionController.model_ c'))%Q /\
  ((RandomPlayer.session_budget_ (SessionController.model_ c)
    <= RandomPlayer.session_spent_ (SessionController.model_ c))%Q ->
   ss_total_spins stats = 0 /\
   SessionController.model_ c' = SessionController.model_ c).
Proof.
  intros Hrun.
  destruct (RunSession_reaches RandomPlayer.MakeDecision max_spins max_duration clock
              (fun stats0 c0 =>
                 RandomPlayer.session_budget_ (SessionController.model_ c0)
                 = RandomPlayer.session_budget_ (SessionController.model_ c) /\
                 (RandomPlayer.session_spent_ (SessionController.model_ c)
                  <= RandomPlayer.session_spent_ (SessionController.model_ c0))%Q /\
                 ((RandomPlayer.session_budget_ (SessionController.model_ c)
                   <= RandomPlayer.session_spent_ (SessionController.model_ c))%Q ->
                  ss_total_spins stats0 = 0 /\
                  SessionController.model_ c0 = SessionController.model_ c))
              c session_id why stats c')
    as (k & stats_n & c_n & (Hbudget & Hspent & Hdone) & Hbreak & _ & ->).
  - intros k stats0 c0 stats1 c1 (Hbudget & Hspent & Hdone) Hit.
    pose proof (iteration_model RandomPlayer.MakeDecision max_spins max_duration clock
                  k stats0 c0) as Hmodel.
    rewrite Hit in Hmodel. destruct Hmodel as [Hm Hcont].
    pose proof (RandomPlayer_state_grows (SessionController.player_ c0)
                  (SessionController.model_ c0) (SessionController.GetMachineId c0)
                  (SessionController.PrepareSessionData c0)) as [Hb Hs].
    rewrite <- Hm in Hb, Hs.
    split; [congruence|]. split; [eapply Qle_trans; eassumption|].
    intros Hex. exfalso. destruct (Hdone Hex) as [_ Heq].
    assert (Hex0 : (RandomPlayer.session_budget_ (SessionController.model_ c0)
                    <= RandomPlayer.session_spent_ (SessionController.model_ c0))%Q)
      by (rewrite Heq; exact Hex).
    destruct (RandomPlayer_exhausted_stops (SessionController.player_ c0)
                (SessionController.model_ c0) (SessionController.GetMachineId c0)
                (SessionController.PrepareSessionData c0) Hex0) as [Hstop _].
    congruence.
  - cbn. split; [reflexivity|]. split; [apply Qle_refl|]. intros _. now split.
  - exact Hrun.
  - pose proof (iteration_model RandomPlayer.MakeDecision max_spins max_duration clock
                  k stats_n c_n) as Hmodel.
    rewrite Hbreak in Hmodel.
    pose proof (RandomPlayer_state_grows (SessionController.player_ c_n)
                  (SessionController.model_ c_n) (SessionController.GetMachineId c_n)
                  (SessionController.PrepareSessionData c_n)) as [Hb Hs].
    cbn [SessionController.finish ss_total_spins].
    destruct Hmodel as [Hm|Hm]; rewrite Hm.
    + split; [exact Hbudget|]. split; [exact Hspent|]. exact Hdone.
    + split; [congruence|]. split; [eapply Qle_trans; eassumption|].
      intros Hex. destruct (Hdone Hex) as [Hzero Heq]. split; [exact Hzero|].
      rewrite <- Heq.
      apply RandomPlayer_exhausted_stops. rewrite Heq. exact Hex.
Qed.

Lemma random_player_budget_is_never_restored_witness :
  ss_total_spins
    (snd (fst (SessionController.RunSession RandomPlayer.MakeDecision
                 (SessionController.mk ten_units
                    (RandomPlayer.mk 0 0 0 1000000 5 1000000 0 5) plain_machine [] false 0)
                 "s" 3 300 still_clock)))
  = 0.
Proof.
  apply (random_player_budget_is_never_restored
           (SessionController.mk ten_units
              (RandomPlayer.mk 0 0 0 1000000 5 1000000 0 5) plain_machine [] false 0)
           "s" 3 300 still_clock
           (fst (fst (SessionController.RunSession RandomPlayer.MakeDecision
                        (SessionController.mk ten_units
                           (RandomPlayer.mk 0 0 0 1000000 5 1000000 0 5) plain_machine
                           [] false 0)
                        "s" 3 300 still_clock)))
           (snd (fst (SessionController.RunSession RandomPlayer.MakeDecision
                        (SessionController.mk ten_units
                           (RandomPlayer.mk 0 0 0 1000000 5 1000000 0 5) plain_machine
                           [] false 0)
                        "s" 3 300 still_clock)))
           (snd (SessionController.RunSession RandomPlayer.MakeDecision
                   (SessionController.mk ten_units
                      (RandomPlayer.mk 0 0 0 1000000 5 1000000 0 5) plain_machine
                      [] false 0)
                   "s" 3 300 still_clock))).
  - destruct (SessionController.RunSession _ _ _ _ _ _) as [[? ?] ?]. reflexivity.
  - vm_compute. discriminate.
Defined.

(** ** The detector on the layout it expects *)

(** Three rows, five reels; the scatter symbol 20 shows on the reels 0, 1
    and 3. *)
Lemma detector_right_on_row_major_witness :
  SlotMachine.CheckFreeSpinsTrigger three_scatter_reels
    (row_major 3 [[20; 1; 1]; [1; 1; 20]; [1; 1; 1]; [1; 20; 1]; [1; 1; 1]])
  = true.
Proof.
  refine (eq_trans
    (detector_right_on_row_major three_scatter_reels
       [[20; 1; 1]; [1; 1; 20]; [1; 1; 1]; [1; 20; 1]; [1; 1; 1]] _ _) _).
  - vm_compute. reflexivity.
  - repeat constructor.
  - vm_compute. reflexivity.
Defined.
